(** * ifex: the EXIF codec subsystem of the JavaScript sources

    A shallow embedding of [src/exif/*.js] and [src/models.js]: format
    detection, the tag table, the JPEG, TIFF/DNG and RAW processors, the XMP
    sidecar writer and the folder batch runner.  JavaScript objects used as
    dictionaries are finite maps, exceptions are an error monad, the file
    system is an explicit state that is threaded through every call, and the
    third-party codecs (piexifjs, UTIF) are a record of functions the
    processors are parameterised by.  Their code is not part of the
    repository; where a property is about what [piexif.remove] does to a
    JPEG, the function is modelled on the container as the spec describes
    the step.

    [src/dataManager.js], the store of cameras, lenses, films, photographers
    and setups, and the part of [src/cli.js] that turns the store and the
    answers of the user into a selection and a folder path, are embedded the
    same way; the prompts themselves are a function the code is given. *)

From stdpp Require Import base strings gmap list pretty.
From Stdlib Require Import ZArith Ascii String.

Set Warnings "-register-all".
Local Open Scope string_scope.
Local Open Scope Z_scope.
Local Open Scope list_scope.

(** ** JavaScript values *)

Module JS.

(** Numbers that occur in a selection or a tag: integers and [NaN]. *)
Inductive num := Int (z : Z) | NaN.

Inductive value :=
| Undefined
| Null
| Bool (b : bool)
| Num (n : num)
| Str (s : string)
| Arr (items : list value).

(** [ToBoolean]: what [if (v)], [!v], [v && w] and [v || w] test. *)
Definition truthy (v : value) : bool :=
  match v with
  | Undefined | Null => false
  | Bool b => b
  | Num (Int z) => negb (z =? 0)
  | Num NaN => false
  | Str s => negb (String.eqb s "")
  | Arr _ => true
  end.

Definition typeof (v : value) : string :=
  match v with
  | Undefined => "undefined"
  | Null => "object"
  | Bool _ => "boolean"
  | Num _ => "number"
  | Str _ => "string"
  | Arr _ => "object"
  end.

(** [a === b] on primitives; two array values are distinct objects. *)
Definition strict_eq (a b : value) : bool :=
  match a, b with
  | Undefined, Undefined => true
  | Null, Null => true
  | Bool x, Bool y => Bool.eqb x y
  | Num (Int x), Num (Int y) => x =? y
  | Str x, Str y => String.eqb x y
  | _, _ => false
  end.

(** [v || w] *)
Definition or_else (v w : value) : value := if truthy v then v else w.

(** [Array.prototype.join] on strings. *)
Fixpoint join (sep : string) (parts : list string) : string :=
  match parts with
  | [] => ""
  | [p] => p
  | p :: rest => p +:+ sep +:+ join sep rest
  end.

Definition num_toString (n : num) : string :=
  match n with
  | Int z => pretty z
  | NaN => "NaN"
  end.

(** [String(v)], the conversion of a template literal [`${v}`]. *)
Fixpoint toString (v : value) : string :=
  match v with
  | Undefined => "undefined"
  | Null => "null"
  | Bool true => "true"
  | Bool false => "false"
  | Num n => num_toString n
  | Str s => s
  | Arr items =>
      join "," (List.map (fun x => match x with
                                   | Undefined | Null => ""
                                   | _ => toString x
                                   end) items)
  end.

(** White space of the Latin-1 range, as [String.prototype.trim] sees it. *)
Definition is_space (c : ascii) : bool :=
  let n := nat_of_ascii c in
  ((9 <=? n)%nat && (n <=? 13)%nat) || (n =? 32)%nat || (n =? 160)%nat.

Fixpoint trimStart (s : string) : string :=
  match s with
  | EmptyString => EmptyString
  | String c r => if is_space c then trimStart r else s
  end.

Fixpoint trimEnd (s : string) : string :=
  match s with
  | EmptyString => EmptyString
  | String c r =>
      match trimEnd r with
      | EmptyString => if is_space c then EmptyString else String c EmptyString
      | r' => String c r'
      end
  end.

Definition trim (s : string) : string := trimEnd (trimStart s).

(** The test [typeof v === 'string' && v.trim() === ''] . *)
Definition blank_string (v : value) : bool :=
  match v with
  | Str s => String.eqb (trim s) ""
  | _ => false
  end.

Definition digit_value (radix : Z) (c : ascii) : option Z :=
  let n := Z.of_nat (nat_of_ascii c) in
  let d := if (48 <=? n) && (n <=? 57) then Some (n - 48)
           else if (97 <=? n) && (n <=? 122) then Some (n - 87)
           else if (65 <=? n) && (n <=? 90) then Some (n - 55)
           else None in
  match d with
  | Some k => if k <? radix then Some k else None
  | None => None
  end.

Fixpoint digits_prefix (radix : Z) (s : string) (acc : option Z) : option Z :=
  match s with
  | EmptyString => acc
  | String c r =>
      match digit_value radix c with
      | Some d => digits_prefix radix r (Some (radix * default 0 acc + d))
      | None => acc
      end
  end.

(** [parseInt(s)] without a radix argument: leading white space, a sign,
    an optional [0x] prefix, then the longest run of digits. *)
Definition parseInt_string (s : string) : num :=
  let s1 := trimStart s in
  let '(neg, s2) :=
    match s1 with
    | String "-" r => (true, r)
    | String "+" r => (false, r)
    | _ => (false, s1)
    end in
  let '(radix, s3) :=
    match s2 with
    | String "0" (String "x" r) => (16, r)
    | String "0" (String "X" r) => (16, r)
    | _ => (10, s2)
    end in
  match digits_prefix radix s3 None with
  | Some n => Int (if neg : bool then - n else n)
  | None => NaN
  end.

Definition parseInt (v : value) : value := Num (parseInt_string (toString v)).

(** [String.prototype.includes] *)
Fixpoint starts_with (p s : string) : bool :=
  match p, s with
  | EmptyString, _ => true
  | String a p', String b s' => Ascii.eqb a b && starts_with p' s'
  | String _ _, EmptyString => false
  end.

Fixpoint includes (s p : string) : bool :=
  starts_with p s ||
  match s with
  | EmptyString => false
  | String _ r => includes r p
  end.

(** [String.prototype.toLowerCase] on ASCII letters. *)
Definition lower (c : ascii) : ascii :=
  let n := nat_of_ascii c in
  if (65 <=? n)%nat && (n <=? 90)%nat then ascii_of_nat (n + 32) else c.

Fixpoint toLowerCase (s : string) : string :=
  match s with
  | EmptyString => EmptyString
  | String c r => String (lower c) (toLowerCase r)
  end.

(** [s.lastIndexOf(c)], -1 when [c] does not occur. *)
Fixpoint lastIndexOf_from (c : ascii) (s : string) (i : Z) (found : Z) : Z :=
  match s with
  | EmptyString => found
  | String a r => lastIndexOf_from c r (i + 1) (if Ascii.eqb a c then i else found)
  end.

Definition lastIndexOf (s : string) (c : ascii) : Z := lastIndexOf_from c s 0 (-1).

(** [s.slice(n)] for [0 <= n]. *)
Definition slice_from (s : string) (n : Z) : string :=
  String.substring (Z.to_nat n) (String.length s - Z.to_nat n) s.

End JS.

(** ** Exceptions

  A JavaScript function that may [throw] returns a [result]; [try]/[catch]
  is a match on it. *)

Inductive result (A : Type) :=
| Ok (a : A)
| Throw (message : string).
Arguments Ok {A} a.
Arguments Throw {A} message.

#[global] Instance result_ret : MRet result := fun A a => Ok a.
#[global] Instance result_bind : MBind result :=
  fun A B f r => match r with Ok a => f a | Throw m => Throw m end.

(** A property access [o.p] on [o] that may be [undefined] or [null]. *)
Definition member {A : Type} (o : option A) : result A :=
  match o with
  | Some a => Ok a
  | None => Throw "TypeError: Cannot read properties of undefined"
  end.

(** A call into a library that either returns or throws. *)
Definition call {A : Type} (o : option A) : result A :=
  match o with
  | Some a => Ok a
  | None => Throw "library error"
  end.

(** ** src/exif/fileTypes.js *)

Module FileTypes.

Fixpoint split_on (sep : ascii) (s : string) : list string :=
  match s with
  | EmptyString => [EmptyString]
  | String c r =>
      let rest := split_on sep r in
      if Ascii.eqb c sep then EmptyString :: rest
      else match rest with
           | h :: t => String c h :: t
           | [] => [String c EmptyString]
           end
  end.

(** [path.basename]: the last non-empty segment of the path. *)
Definition basename (p : string) : string :=
  List.last (List.filter (fun seg => negb (String.eqb seg "")) (split_on "/" p)) "".

Definition getFileExtension (filePath : string) : string :=
  let fileName := basename filePath in
  let lastDotIndex := JS.lastIndexOf fileName "." in
  if (lastDotIndex =? -1) || (lastDotIndex =? Z.of_nat (String.length fileName) - 1)
  then ""
  else JS.toLowerCase (JS.slice_from fileName (lastDotIndex + 1)).

Definition array_includes (l : list string) (x : string) : bool :=
  existsb (String.eqb x) l.

Definition isJpegFile (filePath : string) : bool :=
  array_includes ["jpg"; "jpeg"] (getFileExtension filePath).

Definition isTiffFile (filePath : string) : bool :=
  array_includes ["tiff"; "tif"] (getFileExtension filePath).

Definition isDngFile (filePath : string) : bool :=
  array_includes ["dng"] (getFileExtension filePath).

Definition isRawFile (filePath : string) : bool :=
  array_includes
    ["dng"; "cr2"; "cr3"; "nef"; "nrw"; "arw"; "srf"; "sr2"; "orf"; "rw2";
     "raf"; "srw"; "pef"; "x3f"; "erf"; "mef"; "mrw"; "dcr"; "kdc"; "3fr";
     "fff"; "iiq"; "k25"; "rwl"]
    (getFileExtension filePath).

Definition isSupportedFile (filePath : string) : bool :=
  isJpegFile filePath || isTiffFile filePath || isDngFile filePath || isRawFile filePath.

Inductive fileType := jpeg | tiff | dng | raw | unknown.

Definition getFileType (filePath : string) : fileType :=
  if isJpegFile filePath then jpeg
  else if isTiffFile filePath then tiff
  else if isDngFile filePath then dng
  else if isRawFile filePath then raw
  else unknown.

End FileTypes.

(** ** src/models.js and the selection handed to the processors *)

Module Models.

Record Camera := { cam_maker : JS.value; cam_model : JS.value }.

Record Lens := {
  lens_maker : JS.value;
  lens_model : JS.value;
  focalLength : JS.value;
  aperture : JS.value;
  mount : JS.value
}.

Record Film := { film_maker : JS.value; film_name : JS.value; iso : JS.value }.

(** [Lens.getLensModelWithAperture] *)
Definition getLensModelWithAperture (l : Lens) : string :=
  let parts : list string := [] in
  let parts := if JS.truthy (lens_model l)
               then parts ++ [JS.toString (lens_model l)] else parts in
  let parts := if JS.truthy (focalLength l)
               then parts ++ [JS.toString (focalLength l) +:+ "mm"] else parts in
  let parts := if JS.truthy (aperture l)
               then parts ++ ["f/" +:+ JS.toString (aperture l)] else parts in
  JS.join " " parts.

(** [{ setup, camera, lens }] as [DataManager.getSetupWithDetails] builds
    it; an absent or [null] member is [None]. *)
Record SetupDetails := { camera : option Camera; lens : option Lens }.

Record Selection := {
  setup : option SetupDetails;
  film : option Film;
  shotISO : JS.value;
  photographer : JS.value
}.

End Models.

(** ** src/exif/tags.js *)

Module Tags.

(** The object [piexif.load] returns and [piexif.dump] takes: one bucket
    of tags per IFD name, and the thumbnail. *)
Record exif := {
  ifds : gmap string (gmap Z JS.value);
  thumbnail : JS.value
}.

Inductive configKey :=
| cameraMaker | cameraModel | lensMaker | lensModel | focalLength
| fNumber | filmISO | shotISO | photographer.

(** Modelled from the spec: [piexif.ImageIFD.Make].  The tag tables of
    piexifjs are not among the sources; section 4.2 of the spec lists the
    numbers and the repository's tests read the tags back under them. *)
Definition ImageIFD_Make : Z := 271.

(** Modelled from the spec: [piexif.ImageIFD.Model], section 4.2. *)
Definition ImageIFD_Model : Z := 272.

(** Modelled from the spec: [piexif.ImageIFD.Artist], section 4.2. *)
Definition ImageIFD_Artist : Z := 315.

(** Modelled from the spec: [piexif.ExifIFD.FNumber], section 4.2. *)
Definition ExifIFD_FNumber : Z := 33437.

(** Modelled from the spec: [piexif.ExifIFD.ISOSpeedRatings], section 4.2. *)
Definition ExifIFD_ISOSpeedRatings : Z := 34855.

(** Modelled from the spec: [piexif.ExifIFD.ISOSpeed], section 4.2. *)
Definition ExifIFD_ISOSpeed : Z := 34867.

(** Modelled from the spec: [piexif.ExifIFD.FocalLength], section 4.2. *)
Definition ExifIFD_FocalLength : Z := 37386.

(** Modelled from the spec: [piexif.ExifIFD.LensMake], section 4.2. *)
Definition ExifIFD_LensMake : Z := 42035.

(** Modelled from the spec: [piexif.ExifIFD.LensModel], section 4.2. *)
Definition ExifIFD_LensModel : Z := 42036.

Definition EXIF_TAGS (k : configKey) : string * Z :=
  match k with
  | cameraMaker => ("0th", ImageIFD_Make)
  | cameraModel => ("0th", ImageIFD_Model)
  | lensMaker => ("Exif", ExifIFD_LensMake)
  | lensModel => ("Exif", ExifIFD_LensModel)
  | focalLength => ("Exif", ExifIFD_FocalLength)
  | fNumber => ("Exif", ExifIFD_FNumber)
  | filmISO => ("Exif", ExifIFD_ISOSpeedRatings)
  | shotISO => ("Exif", ExifIFD_ISOSpeed)
  | photographer => ("0th", ImageIFD_Artist)
  end.

(** [exifObj[ifd][tag] = value], the bucket being there. *)
Definition assign (exifObj : exif) (ifd : string) (tag : Z) (value : JS.value) : exif :=
  {| ifds := <[ifd := <[tag := value]> (default ∅ (ifds exifObj !! ifd))]> (ifds exifObj);
     thumbnail := thumbnail exifObj |}.

Definition setExifValue (exifObj : exif) (k : configKey) (value : JS.value) : exif :=
  if negb (JS.truthy value) || JS.blank_string value then exifObj
  else
    let '(ifd, tag) := EXIF_TAGS k in
    let exifObj :=
      match ifds exifObj !! ifd with
      | Some _ => exifObj
      | None => {| ifds := <[ifd := ∅]> (ifds exifObj); thumbnail := thumbnail exifObj |}
      end in
    assign exifObj ifd tag value.

Definition createCleanExifObject : exif :=
  {| ifds := <["0th" := ∅]> (<["Exif" := ∅]> (<["GPS" := ∅]>
               (<["Interop" := ∅]> (<["1st" := ∅]> ∅))));
     thumbnail := JS.Null |}.

(** The tag stored under [ifd] and [tag], if any. *)
Definition tag_of (exifObj : exif) (ifd : string) (tag : Z) : option JS.value :=
  ifds exifObj !! ifd ≫= (.!! tag).

(** The set of (IFD, tag) pairs an EXIF object holds. *)
Definition fields (exifObj : exif) : gset (string * Z) :=
  list_to_set
    (b ← map_to_list (ifds exifObj);
     (fun t => (b.1, t)) <$> elements (dom b.2)).

End Tags.

(** ** The environment of the processors *)

(** The third-party functions the processors call.  A call that throws
    returns [None].  [piexif_load], [piexif_dump], [piexif_insert] and
    [piexif_remove] are piexifjs, [UTIF_decode] and [UTIF_encode] are UTIF;
    [round_tenths a] is [Math.round(parseFloat(a) * 10)], floating-point
    arithmetic of the runtime. *)
Record Libraries := {
  piexif_load : string -> option Tags.exif;
  piexif_dump : Tags.exif -> option string;
  piexif_insert : string -> string -> option string;
  piexif_remove : string -> option string;
  UTIF_decode : string -> option (list (gmap string JS.value));
  UTIF_encode : list (gmap string JS.value) -> option string;
  round_tenths : JS.value -> JS.value
}.

(** The part of Node's [fs] the processors use.  A file system is the
    content of every file by path, and the paths that refuse to be written
    or removed. *)
Module Fs.

Record fsys := {
  files : gmap string string;
  locked : gset string
}.

Definition readFileSync (fs : fsys) (path : string) : result string :=
  match files fs !! path with
  | Some data => Ok data
  | None => Throw "ENOENT: no such file or directory"
  end.

Definition writeFileSync (fs : fsys) (path data : string) : result fsys :=
  if decide (path ∈ locked fs) then Throw "EACCES: permission denied"
  else Ok {| files := <[path := data]> (files fs); locked := locked fs |}.

Definition existsSync (fs : fsys) (path : string) : bool :=
  bool_decide (is_Some (files fs !! path)).

Definition unlinkSync (fs : fsys) (path : string) : result fsys :=
  match files fs !! path with
  | None => Throw "ENOENT: no such file or directory"
  | Some _ =>
      if decide (path ∈ locked fs) then Throw "EACCES: permission denied"
      else Ok {| files := delete path (files fs); locked := locked fs |}
  end.

(** What [fs.readdirSync] and [fs.statSync] see below a folder. *)
Inductive entry :=
| File
| Directory (listing : option (list (string * entry)))
| Other
| Dangling.

(** [path.join(dir, name)] for a [dir] in normal form. *)
Definition path_join (dir name : string) : string := dir +:+ "/" +:+ name.

End Fs.

(** ** piexifjs: the JPEG container and the removal of its EXIF segment

    piexifjs is a dependency of the repository; its code is not among the
    sources.  The spec describes the erase step it performs, "parse the
    container, strip any EXIF segment entirely", an EXIF segment being "a
    length-prefixed metadata block embedded in a JPEG container". *)

Module Piexif.

Definition bytes (codes : list Z) : string :=
  string_of_list_ascii (List.map (fun c => ascii_of_nat (Z.to_nat c)) codes).

(** [s.slice(n)] *)
Definition drop (n : nat) (s : string) : string :=
  String.substring n (String.length s - n) s.

(** The start-of-image marker, the marker of an APP1 segment, the
    start-of-scan marker, and the identifier that opens the payload of an
    EXIF segment. *)
Definition SOI : string := bytes [255; 216].
Definition APP1 : string := bytes [255; 225].
Definition SOS : string := bytes [255; 218].
Definition Exif00 : string := "Exif" +:+ bytes [0; 0].

(** Modelled from the spec: the parse of the container behind the
    start-of-image marker, which piexifjs does and whose code is not among
    the sources.  The container is a row of length-prefixed segments: a
    two-byte marker, a two-byte big-endian length that counts itself and the
    payload, the payload; the start-of-scan segment runs to the end of the
    data and ends the row.  Data that ends before a start-of-scan segment
    does not parse.  [fuel] bounds the number of segments. *)
Fixpoint segments (fuel : nat) (data : string) : option (list string) :=
  match fuel with
  | O => None
  | S fuel =>
      if JS.starts_with SOS data then Some [data]
      else
        match drop 2 data with
        | String hi (String lo _) =>
            let endPoint := (256 * nat_of_ascii hi + nat_of_ascii lo + 2)%nat in
            match drop endPoint data with
            | EmptyString => None
            | rest => cons (String.substring 0 endPoint data) <$> segments fuel rest
            end
        | _ => None
        end
  end.

(** Modelled from the spec: the segments of a JPEG, [None] when the data
    does not start with the start-of-image marker or does not parse. *)
Definition splitIntoSegments (jpeg : string) : option (list string) :=
  if JS.starts_with SOI jpeg then segments (String.length jpeg) (drop 2 jpeg) else None.

(** Modelled from the spec: an EXIF segment is an APP1 segment whose payload
    starts with the identifier [Exif] and two zero bytes. *)
Definition is_exif_segment (seg : string) : bool :=
  JS.starts_with APP1 seg && JS.starts_with Exif00 (drop 4 seg).

(** Modelled from the spec: [piexif.remove], "parse the container, strip any
    EXIF segment entirely"; every other segment is put back as it was, in
    order.  [None] when the container does not parse (the call throws). *)
Definition remove (jpeg : string) : option string :=
  segs ← splitIntoSegments jpeg;
  Some (SOI +:+ String.concat "" (List.filter (fun seg => negb (is_exif_segment seg)) segs)).

(** The start-of-scan segment of a JPEG: the compressed image. *)
Definition scan (jpeg : string) : string :=
  match splitIntoSegments jpeg with
  | Some segs => List.last segs ""
  | None => ""
  end.

End Piexif.

(** ** src/exif/sidecarProcessor.js *)

Module Sidecar.

Definition quote : string := String "034"%char EmptyString.
Definition newline : string := String "010"%char EmptyString.
Definition attribute (name value : string) : string :=
  name +:+ "=" +:+ quote +:+ value +:+ quote.

(** The nested template of the shot ISO:
    [selection.shotISO ? `<exif:PhotographicSensitivity>...` : ''] *)
Definition sensitivity_element (shotISO : JS.value) : string :=
  if JS.truthy shotISO
  then "<exif:PhotographicSensitivity>" +:+ JS.toString shotISO
       +:+ "</exif:PhotographicSensitivity>"
  else "".

(** The lines of the template literal of [generateXmpSidecar]. *)
Definition xmp_lines (cam : Models.Camera) (l : Models.Lens) (f : Models.Film)
    (creator : JS.value) (sensitivity : string) : list string :=
  [ "<?xml " +:+ attribute "version" "1.0" +:+ " " +:+ attribute "encoding" "UTF-8" +:+ "?>";
    "<x:xmpmeta " +:+ attribute "xmlns:x" "adobe:ns:meta/" +:+ " "
      +:+ attribute "x:xmptk" "IFEX CLI" +:+ ">";
    "  <rdf:RDF " +:+ attribute "xmlns:rdf" "http://www.w3.org/1999/02/22-rdf-syntax-ns#" +:+ ">";
    "    <rdf:Description " +:+ attribute "rdf:about" "";
    "        " +:+ attribute "xmlns:tiff" "http://ns.adobe.com/tiff/1.0/";
    "        " +:+ attribute "xmlns:exif" "http://ns.adobe.com/exif/1.0/";
    "        " +:+ attribute "xmlns:dc" "http://purl.org/dc/elements/1.1/" +:+ ">";
    "      <tiff:Make>" +:+ JS.toString (Models.cam_maker cam) +:+ "</tiff:Make>";
    "      <tiff:Model>" +:+ JS.toString (Models.cam_model cam) +:+ "</tiff:Model>";
    "      <exif:LensMake>" +:+ JS.toString (Models.lens_maker l) +:+ "</exif:LensMake>";
    "      <exif:LensModel>" +:+ Models.getLensModelWithAperture l +:+ "</exif:LensModel>";
    "      <exif:ISOSpeedRatings>";
    "        <rdf:Seq>";
    "          <rdf:li>" +:+ JS.toString (Models.iso f) +:+ "</rdf:li>";
    "        </rdf:Seq>";
    "      </exif:ISOSpeedRatings>";
    "      " +:+ sensitivity;
    "      <dc:creator>";
    "        <rdf:Seq>";
    "          <rdf:li>" +:+ JS.toString creator +:+ "</rdf:li>";
    "        </rdf:Seq>";
    "      </dc:creator>";
    "    </rdf:Description>";
    "  </rdf:RDF>";
    "</x:xmpmeta>" ].

Definition generateXmpSidecar (selection : Models.Selection) : result string :=
  s ← member (Models.setup selection);
  cam ← member (Models.camera s);
  l ← member (Models.lens s);
  f ← member (Models.film selection);
  Ok (JS.join newline
        (xmp_lines cam l f (Models.photographer selection)
           (sensitivity_element (Models.shotISO selection)))).

Definition createSidecarFile (fs : Fs.fsys) (filePath : string)
    (selection : option Models.Selection) : Fs.fsys * bool :=
  let attempt :=
    let sidecarPath := filePath +:+ ".xmp" in
    sel ← member selection;
    xmpContent ← generateXmpSidecar sel;
    Fs.writeFileSync fs sidecarPath xmpContent in
  match attempt with
  | Ok fs' => (fs', true)
  | Throw _ => (fs, false)
  end.

(** The file system after the call, and the value returned; [Throw] when
    [fs.unlinkSync] throws. *)
Definition removeSidecarFile (fs : Fs.fsys) (filePath : string) : result (Fs.fsys * bool) :=
  let sidecarPath := filePath +:+ ".xmp" in
  if Fs.existsSync fs sidecarPath then
    fs' ← Fs.unlinkSync fs sidecarPath;
    Ok (fs', true)
  else Ok (fs, false).

End Sidecar.

(** ** src/exif/jpegProcessor.js *)

Module JpegProcessor.
Section WithLibraries.
Context (lib : Libraries).

Definition validateSelection (selection : option Models.Selection) : result unit :=
  match selection with
  | None => Throw "Selection object is required"
  | Some sel =>
      match Models.setup sel with
      | None => Throw "Selection must include setup with camera and lens"
      | Some s =>
          match Models.camera s, Models.lens s with
          | Some _, Some _ =>
              match Models.film sel with
              | None => Throw "Selection must include film information"
              | Some _ => Ok ()
              end
          | _, _ => Throw "Selection must include setup with camera and lens"
          end
      end
  end.

(** [selection.shotISO && selection.shotISO !== selection.film.iso] *)
Definition shot_differs (selection : Models.Selection) (f : Models.Film) : bool :=
  JS.truthy (Models.shotISO selection)
  && negb (JS.strict_eq (Models.shotISO selection) (Models.iso f)).

Definition setAllExifValues (exifObj : Tags.exif) (selection : Models.Selection)
    : result Tags.exif :=
  s ← member (Models.setup selection);
  cam ← member (Models.camera s);
  let exifObj := Tags.setExifValue exifObj Tags.cameraMaker (Models.cam_maker cam) in
  let exifObj := Tags.setExifValue exifObj Tags.cameraModel (Models.cam_model cam) in
  let exifObj := Tags.setExifValue exifObj Tags.photographer (Models.photographer selection) in
  f ← member (Models.film selection);
  let exifObj := Tags.setExifValue exifObj Tags.filmISO (JS.Arr [Models.iso f]) in
  let exifObj :=
    if shot_differs selection f
    then Tags.setExifValue exifObj Tags.shotISO (Models.shotISO selection)
    else exifObj in
  l ← member (Models.lens s);
  let exifObj := Tags.setExifValue exifObj Tags.lensMaker (Models.lens_maker l) in
  let exifObj :=
    Tags.setExifValue exifObj Tags.lensModel (JS.Str (Models.getLensModelWithAperture l)) in
  let exifObj :=
    if JS.truthy (Models.focalLength l)
    then Tags.setExifValue exifObj Tags.focalLength
           (JS.Arr [JS.parseInt (Models.focalLength l); JS.Num (JS.Int 1)])
    else exifObj in
  let exifObj :=
    if JS.truthy (Models.aperture l)
    then Tags.setExifValue exifObj Tags.fNumber
           (JS.Arr [round_tenths lib (Models.aperture l); JS.Num (JS.Int 10)])
    else exifObj in
  Ok exifObj.

(** The object [createBasicExif] builds before it serialises it. *)
Definition basicExifObj (selection : Models.Selection) : result Tags.exif :=
  let basicExifObj := Tags.createCleanExifObject in
  s ← member (Models.setup selection);
  cam ← member (Models.camera s);
  let basicExifObj :=
    if JS.truthy (Models.cam_maker cam)
    then Tags.assign basicExifObj "0th" Tags.ImageIFD_Make (Models.cam_maker cam)
    else basicExifObj in
  let basicExifObj :=
    if JS.truthy (Models.cam_model cam)
    then Tags.assign basicExifObj "0th" Tags.ImageIFD_Model (Models.cam_model cam)
    else basicExifObj in
  let basicExifObj :=
    if JS.truthy (Models.photographer selection)
    then Tags.assign basicExifObj "0th" Tags.ImageIFD_Artist (Models.photographer selection)
    else basicExifObj in
  f ← member (Models.film selection);
  let basicExifObj :=
    if JS.truthy (Models.iso f)
    then Tags.assign basicExifObj "Exif" Tags.ExifIFD_ISOSpeedRatings (JS.Arr [Models.iso f])
    else basicExifObj in
  let basicExifObj :=
    if shot_differs selection f
    then Tags.assign basicExifObj "Exif" Tags.ExifIFD_ISOSpeed (Models.shotISO selection)
    else basicExifObj in
  Ok basicExifObj.

(** The object [createMinimalExif] builds before it serialises it. *)
Definition minimalExifObj (selection : Models.Selection) : result Tags.exif :=
  s ← member (Models.setup selection);
  cam ← member (Models.camera s);
  f ← member (Models.film selection);
  let minimalExifObj :=
    {| Tags.ifds :=
         <["0th" := <[Tags.ImageIFD_Make := JS.or_else (Models.cam_maker cam) (JS.Str "Unknown")]>
                    (<[Tags.ImageIFD_Model := JS.or_else (Models.cam_model cam) (JS.Str "Unknown")]>
                    (<[Tags.ImageIFD_Artist :=
                         JS.or_else (Models.photographer selection) (JS.Str "Unknown")]> ∅))]>
         (<["Exif" := <[Tags.ExifIFD_ISOSpeedRatings := JS.Arr [Models.iso f]]> ∅]>
         (<["GPS" := ∅]> (<["Interop" := ∅]> (<["1st" := ∅]> ∅))));
       Tags.thumbnail := JS.Null |} in
  let minimalExifObj :=
    if shot_differs selection f
       && String.eqb (JS.typeof (Models.shotISO selection)) "number"
    then Tags.assign minimalExifObj "Exif" Tags.ExifIFD_ISOSpeed (Models.shotISO selection)
    else minimalExifObj in
  Ok minimalExifObj.

Definition createMinimalExif (selection : Models.Selection) : result string :=
  minimalExifObj ← minimalExifObj selection;
  call (piexif_dump lib minimalExifObj).

Definition createBasicExif (selection : Models.Selection) : result string :=
  basicExifObj ← basicExifObj selection;
  match piexif_dump lib basicExifObj with
  | Some bytes => Ok bytes
  | None => createMinimalExif selection
  end.

Definition applyExifToFile (fs : Fs.fsys) (filePath : string)
    (selection : option Models.Selection) : Fs.fsys * bool :=
  let attempt :=
    _ ← validateSelection selection;
    sel ← member selection;
    jpegData ← Fs.readFileSync fs filePath;
    let exifObj :=
      match piexif_load lib jpegData with
      | Some exifObj => exifObj
      | None => Tags.createCleanExifObject
      end in
    exifObj ← setAllExifValues exifObj sel;
    exifBytes ← match piexif_dump lib exifObj with
                | Some bytes => Ok bytes
                | None => createBasicExif sel
                end;
    newJpegData ← call (piexif_insert lib exifBytes jpegData);
    Fs.writeFileSync fs filePath newJpegData in
  match attempt with
  | Ok fs' => (fs', true)
  | Throw _ => (fs, false)
  end.

Definition eraseExifFromFile (fs : Fs.fsys) (filePath : string) : Fs.fsys * bool :=
  let attempt :=
    jpegData ← Fs.readFileSync fs filePath;
    newJpegData ← call (piexif_remove lib jpegData);
    Fs.writeFileSync fs filePath newJpegData in
  match attempt with
  | Ok fs' => (fs', true)
  | Throw _ => (fs, false)
  end.

End WithLibraries.
End JpegProcessor.

(** ** src/exif/tiffProcessor.js *)

Module TiffProcessor.
Section WithLibraries.
Context (lib : Libraries).

Definition validateSelection (selection : option Models.Selection) : result unit :=
  match selection with
  | None => Throw "Selection object is required"
  | Some sel =>
      match Models.setup sel with
      | None => Throw "Selection must include setup with camera and lens"
      | Some s =>
          match Models.camera s, Models.lens s with
          | Some _, Some _ =>
              match Models.film sel with
              | None => Throw "Selection must include film information"
              | Some _ => Ok ()
              end
          | _, _ => Throw "Selection must include setup with camera and lens"
          end
      end
  end.

(** [tiff.p] on a decoded IFD object. *)
Definition prop (tiff : gmap string JS.value) (p : string) : JS.value :=
  default JS.Undefined (tiff !! p).

Definition setTiffExifValues (tiff : gmap string JS.value) (selection : Models.Selection)
    : result (gmap string JS.value) :=
  let tiff := <["t256" := JS.or_else (prop tiff "t256") (prop tiff "width")]> tiff in
  let tiff := <["t257" := JS.or_else (prop tiff "t257") (prop tiff "height")]> tiff in
  s ← member (Models.setup selection);
  cam ← member (Models.camera s);
  let tiff := <["t271" := Models.cam_maker cam]> tiff in
  let tiff := <["t272" := Models.cam_model cam]> tiff in
  l ← member (Models.lens s);
  let tiff := <["t42035" := Models.lens_maker l]> tiff in
  let tiff := <["t42036" := JS.Str (Models.getLensModelWithAperture l)]> tiff in
  f ← member (Models.film selection);
  let tiff := <["t34855" := JS.Arr [Models.iso f]]> tiff in
  let tiff :=
    if JS.truthy (Models.shotISO selection)
    then <["t34864" := Models.shotISO selection]> tiff
    else tiff in
  let tiff := <["t315" := Models.photographer selection]> tiff in
  Ok tiff.

Definition applyExifToFile (fs : Fs.fsys) (filePath : string)
    (selection : option Models.Selection) : Fs.fsys * bool :=
  let attempt :=
    _ ← validateSelection selection;
    data ← Fs.readFileSync fs filePath;
    match UTIF_decode lib data with
    | None => Ok (Sidecar.createSidecarFile fs filePath selection)
    | Some tiffs =>
        match tiffs with
        | [] => Throw "No valid TIFF data found"
        | tiff :: _ =>
            let inner :=
              sel ← member selection;
              tiff ← setTiffExifValues tiff sel;
              newData ← call (UTIF_encode lib [tiff]);
              Fs.writeFileSync fs filePath newData in
            match inner with
            | Ok fs' => Ok (fs', true)
            | Throw _ => Ok (Sidecar.createSidecarFile fs filePath selection)
            end
        end
    end in
  match attempt with
  | Ok r => r
  | Throw _ => (fs, false)
  end.

Definition essentialTags : list string :=
  ["t256"; "t257"; "t258"; "t259"; "t262"; "t273"; "t277"; "t278"; "t279"].

Definition keep_defined (tiff : gmap string JS.value) (cleanTiff : gmap string JS.value)
    (tag : string) : gmap string JS.value :=
  match tiff !! tag with
  | None | Some JS.Undefined => cleanTiff
  | Some v => <[tag := v]> cleanTiff
  end.

Definition keep_truthy (tiff : gmap string JS.value) (cleanTiff : gmap string JS.value)
    (p : string) : gmap string JS.value :=
  if JS.truthy (prop tiff p) then <[p := prop tiff p]> cleanTiff else cleanTiff.

Definition eraseExifFromFile (fs : Fs.fsys) (filePath : string) : Fs.fsys * bool :=
  let attempt :=
    data ← Fs.readFileSync fs filePath;
    tiffs ← call (UTIF_decode lib data);
    match tiffs with
    | [] => Throw "No valid TIFF data found"
    | tiff :: _ =>
        let cleanTiff := fold_left (keep_defined tiff) essentialTags ∅ in
        let cleanTiff := keep_truthy tiff cleanTiff "width" in
        let cleanTiff := keep_truthy tiff cleanTiff "height" in
        let cleanTiff := keep_truthy tiff cleanTiff "data" in
        newData ← call (UTIF_encode lib [cleanTiff]);
        Fs.writeFileSync fs filePath newData
    end in
  match attempt with
  | Ok fs' => (fs', true)
  | Throw _ => (fs, false)
  end.

End WithLibraries.
End TiffProcessor.

(** ** src/exif/rawProcessor.js *)

Module RawProcessor.
Section WithLibraries.
Context (lib : Libraries).

Definition validateSelection (selection : option Models.Selection) : result unit :=
  match selection with
  | None => Throw "Selection object is required"
  | Some sel =>
      match Models.setup sel with
      | None => Throw "Selection must include setup with camera and lens"
      | Some s =>
          match Models.camera s, Models.lens s with
          | Some _, Some _ =>
              match Models.film sel with
              | None => Throw "Selection must include film information"
              | Some _ => Ok ()
              end
          | _, _ => Throw "Selection must include setup with camera and lens"
          end
      end
  end.

Definition applyExifToFile (fs : Fs.fsys) (filePath : string)
    (selection : option Models.Selection) : Fs.fsys * bool :=
  let attempt :=
    _ ← validateSelection selection;
    if FileTypes.isDngFile filePath
    then Ok (TiffProcessor.applyExifToFile lib fs filePath selection)
    else Ok (Sidecar.createSidecarFile fs filePath selection) in
  match attempt with
  | Ok r => r
  | Throw _ => (fs, false)
  end.

Definition eraseExifFromFile (fs : Fs.fsys) (filePath : string) : Fs.fsys * bool :=
  let attempt :=
    if FileTypes.isDngFile filePath
    then Ok (TiffProcessor.eraseExifFromFile lib fs filePath)
    else
      r ← Sidecar.removeSidecarFile fs filePath;
      let '(fs', removed) := r in
      if removed : bool then Ok (fs', true) else Ok (fs', true) in
  match attempt with
  | Ok r => r
  | Throw _ => (fs, false)
  end.

End WithLibraries.
End RawProcessor.

(** ** src/exif/exifManager.js *)

Module ExifManager.
Section WithLibraries.
Context (lib : Libraries).

Definition applyExifToFile (fs : Fs.fsys) (filePath : string)
    (selection : option Models.Selection) : Fs.fsys * bool :=
  match FileTypes.getFileType filePath with
  | FileTypes.jpeg => JpegProcessor.applyExifToFile lib fs filePath selection
  | FileTypes.tiff => TiffProcessor.applyExifToFile lib fs filePath selection
  | FileTypes.dng | FileTypes.raw => RawProcessor.applyExifToFile lib fs filePath selection
  | FileTypes.unknown => (fs, false)
  end.

Definition eraseExifFromFile (fs : Fs.fsys) (filePath : string) : Fs.fsys * bool :=
  match FileTypes.getFileType filePath with
  | FileTypes.jpeg => JpegProcessor.eraseExifFromFile lib fs filePath
  | FileTypes.tiff => TiffProcessor.eraseExifFromFile lib fs filePath
  | FileTypes.dng | FileTypes.raw => RawProcessor.eraseExifFromFile lib fs filePath
  | FileTypes.unknown => (fs, false)
  end.

End WithLibraries.
End ExifManager.

(** ** src/exif/fileCollector.js *)

Module FileCollector.

Record collected := {
  name : string;
  path : string;
  directory : string
}.

(** One turn of the loop of [scanDirectory] on the entry [entry] of the
    directory [dirPath], which lies [rel] below the folder: the files it
    adds, or [None] when [fs.statSync] throws. *)
Fixpoint scanEntry (recursive : bool) (dirPath : string) (rel : list string)
    (entry : string) (stat : Fs.entry) : option (list collected) :=
  let fullPath := Fs.path_join dirPath entry in
  match stat with
  | Fs.Dangling => None
  | Fs.File =>
      if FileTypes.isSupportedFile entry
      then Some [{| name := JS.join "/" (rel ++ [entry]);
                    path := fullPath;
                    directory := match rel with [] => "." | _ => JS.join "/" rel end |}]
      else Some []
  | Fs.Directory listing =>
      if recursive then
        match listing with
        | None => Some []
        | Some entries =>
            Some ((fix loop (entries : list (string * Fs.entry)) : list collected :=
                     match entries with
                     | [] => []
                     | (e, st) :: rest =>
                         match scanEntry recursive fullPath (rel ++ [entry]) e st with
                         | Some found => found ++ loop rest
                         | None => []
                         end
                     end) entries)
        end
      else Some []
  | Fs.Other => Some []
  end.

(** [scanDirectory(dirPath)]: the loop over [fs.readdirSync(dirPath)] inside
    its [try]; an exception ends the scan of this directory and keeps what
    was found. *)
Fixpoint scanListing (recursive : bool) (dirPath : string) (rel : list string)
    (entries : list (string * Fs.entry)) : list collected :=
  match entries with
  | [] => []
  | (e, st) :: rest =>
      match scanEntry recursive dirPath rel e st with
      | Some found => found ++ scanListing recursive dirPath rel rest
      | None => []
      end
  end.

(** [root] is what the file system holds at [folderPath]. *)
Definition collectFilesRecursively (root : Fs.entry) (folderPath : string)
    (recursive : bool) : list collected :=
  match root with
  | Fs.Directory (Some entries) => scanListing recursive folderPath [] entries
  | _ => []
  end.

Record ProcessingResult := {
  pr_name : string;
  pr_type : FileTypes.fileType;
  pr_directory : string;
  success : option bool
}.

Record BatchResult := {
  total : nat;
  processed : nat;
  failed : nat;
  files : list ProcessingResult
}.

Inductive folderResult :=
| Failure (message : string)
| Success (results : BatchResult).

Section WithLibraries.
Context (lib : Libraries).

(** The body of the [for] loop of [processFolder], on one file. *)
Definition processFile (selection : option Models.Selection) (action : string)
    (fs : Fs.fsys) (results : BatchResult) (file : collected) : Fs.fsys * BatchResult :=
  let '(fs, success) :=
    if String.eqb action "apply" then
      let '(fs', ok) := ExifManager.applyExifToFile lib fs (path file) selection in
      (fs', Some ok)
    else if String.eqb action "erase" then
      let '(fs', ok) := ExifManager.eraseExifFromFile lib fs (path file) in
      (fs', Some ok)
    else (fs, None) in
  let files := files results ++ [{| pr_name := name file;
                                    pr_type := FileTypes.getFileType (name file);
                                    pr_directory := directory file;
                                    success := success |}] in
  match success with
  | Some true =>
      (fs, {| total := total results; processed := S (processed results);
              failed := failed results; files := files |})
  | _ =>
      (fs, {| total := total results; processed := processed results;
              failed := S (failed results); files := files |})
  end.

Fixpoint processFiles (selection : option Models.Selection) (action : string)
    (supportedFiles : list collected) (fs : Fs.fsys) (results : BatchResult)
    : Fs.fsys * BatchResult :=
  match supportedFiles with
  | [] => (fs, results)
  | file :: rest =>
      let '(fs, results) := processFile selection action fs results file in
      processFiles selection action rest fs results
  end.

Definition processFolder (root : Fs.entry) (fs : Fs.fsys) (folderPath : string)
    (selection : option Models.Selection) (action : string) (recursive : bool)
    : Fs.fsys * folderResult :=
  let supportedFiles := collectFilesRecursively root folderPath recursive in
  if (List.length supportedFiles =? 0)%nat then
    let recursiveText := if recursive then " (including subdirectories)" else "" in
    (fs, Failure ("No supported image files (JPEG, TIFF, DNG, RAW) found in the specified folder"
                  +:+ recursiveText +:+ "."))
  else
    let results := {| total := List.length supportedFiles; processed := 0; failed := 0;
                      files := [] |} in
    let '(fs, results) := processFiles selection action supportedFiles fs results in
    (fs, Success results).

End WithLibraries.
End FileCollector.

(** ** src/dataManager.js *)

Module DataManager.

(** The objects of the five collections: what the model classes construct
    and what [fromObject] copies. *)
Record CameraObj := {
  c_id : JS.value; c_maker : JS.value; c_model : JS.value; c_createdAt : JS.value
}.

Record LensObj := {
  l_id : JS.value; l_maker : JS.value; l_model : JS.value; l_focalLength : JS.value;
  l_aperture : JS.value; l_mount : JS.value; l_createdAt : JS.value
}.

Record FilmObj := {
  f_id : JS.value; f_maker : JS.value; f_name : JS.value; f_iso : JS.value;
  f_createdAt : JS.value
}.

Record PhotographerObj := {
  p_id : JS.value; p_name : JS.value; p_email : JS.value; p_createdAt : JS.value
}.

Record SetupObj := {
  s_id : JS.value; s_name : JS.value; s_cameraId : JS.value; s_lensId : JS.value;
  s_createdAt : JS.value
}.

(** [this.data] *)
Record Data := {
  cameras : list CameraObj;
  lenses : list LensObj;
  films : list FilmObj;
  photographers : list PhotographerObj;
  setups : list SetupObj
}.

(** What [loadData] returns when there is no data file. *)
Definition empty : Data :=
  {| cameras := []; lenses := []; films := []; photographers := []; setups := [] |}.

(** A [DataManager]: the path of its data file, and [this.data]. *)
Record t := { DATA_FILE : string; data : Data }.

(** [{ success, message }] *)
Record Outcome := { success : bool; message : string }.

Definition set_cameras (dm : t) (cameras : list CameraObj) : t :=
  {| DATA_FILE := DATA_FILE dm;
     data := {| cameras := cameras; lenses := lenses (data dm); films := films (data dm);
                photographers := photographers (data dm); setups := setups (data dm) |} |}.

Definition set_lenses (dm : t) (lenses : list LensObj) : t :=
  {| DATA_FILE := DATA_FILE dm;
     data := {| cameras := cameras (data dm); lenses := lenses; films := films (data dm);
                photographers := photographers (data dm); setups := setups (data dm) |} |}.

Definition set_films (dm : t) (films : list FilmObj) : t :=
  {| DATA_FILE := DATA_FILE dm;
     data := {| cameras := cameras (data dm); lenses := lenses (data dm); films := films;
                photographers := photographers (data dm); setups := setups (data dm) |} |}.

Definition set_photographers (dm : t) (photographers : list PhotographerObj) : t :=
  {| DATA_FILE := DATA_FILE dm;
     data := {| cameras := cameras (data dm); lenses := lenses (data dm);
                films := films (data dm); photographers := photographers;
                setups := setups (data dm) |} |}.

Definition set_setups (dm : t) (setups : list SetupObj) : t :=
  {| DATA_FILE := DATA_FILE dm;
     data := {| cameras := cameras (data dm); lenses := lenses (data dm);
                films := films (data dm); photographers := photographers (data dm);
                setups := setups |} |}.

(** [Array.prototype.findIndex], [None] for -1. *)
Fixpoint findIndex {A : Type} (p : A → bool) (l : list A) : option nat :=
  match l with
  | [] => None
  | x :: rest => if p x then Some 0%nat else S <$> findIndex p rest
  end.

Section WithRuntime.

(** [JSON.stringify(data, null, 2)]; the identifiers [uuidv4()] returns and
    the time stamps [new Date().toISOString()] returns are arguments [uuid]
    and [now] of the methods that construct an object. *)
Context (JSON_stringify : Data → string).

Definition saveData (dm : t) (fs : Fs.fsys) : Fs.fsys * bool :=
  match Fs.writeFileSync fs (DATA_FILE dm) (JSON_stringify (data dm)) with
  | Ok fs' => (fs', true)
  | Throw _ => (fs, false)
  end.

(** *** Cameras *)

Definition createCamera (dm : t) (fs : Fs.fsys) (uuid now : string) (maker model : JS.value)
    : t * Fs.fsys * option CameraObj :=
  let camera := {| c_id := JS.Str uuid; c_maker := maker; c_model := model;
                   c_createdAt := JS.Str now |} in
  let dm := set_cameras dm (cameras (data dm) ++ [camera]) in
  let '(fs, saved) := saveData dm fs in
  (dm, fs, if saved then Some camera else None).

Definition Camera_fromObject (obj : CameraObj) : CameraObj :=
  {| c_id := c_id obj; c_maker := c_maker obj; c_model := c_model obj;
     c_createdAt := c_createdAt obj |}.

Definition getCameras (dm : t) : list CameraObj :=
  Camera_fromObject <$> cameras (data dm).

Definition getCameraById (dm : t) (id : JS.value) : option CameraObj :=
  Camera_fromObject <$> List.find (fun c => JS.strict_eq (c_id c) id) (cameras (data dm)).

Definition updateCamera (dm : t) (fs : Fs.fsys) (id maker model : JS.value)
    : t * Fs.fsys * bool :=
  match findIndex (fun c => JS.strict_eq (c_id c) id) (cameras (data dm)) with
  | None => (dm, fs, false)
  | Some index =>
      let dm := set_cameras dm
                  (alter (fun c => {| c_id := c_id c; c_maker := maker; c_model := model;
                                      c_createdAt := c_createdAt c |})
                     index (cameras (data dm))) in
      let '(fs, saved) := saveData dm fs in
      (dm, fs, saved)
  end.

Definition deleteCamera (dm : t) (fs : Fs.fsys) (id : JS.value) : t * Fs.fsys * Outcome :=
  let setupsUsingCamera :=
    List.filter (fun s => JS.strict_eq (s_cameraId s) id) (setups (data dm)) in
  if (0 <? List.length setupsUsingCamera)%nat then
    (dm, fs, {| success := false;
                message := "Cannot delete camera: it is used in existing setups" |})
  else
    let dm := set_cameras dm
                (List.filter (fun c => negb (JS.strict_eq (c_id c) id)) (cameras (data dm))) in
    let '(fs, saved) := saveData dm fs in
    (dm, fs, {| success := saved; message := "Camera deleted successfully" |}).

(** *** Lenses *)

Definition createLens (dm : t) (fs : Fs.fsys) (uuid now : string)
    (maker model focalLength aperture mount : JS.value) : t * Fs.fsys * option LensObj :=
  let lens := {| l_id := JS.Str uuid; l_maker := maker; l_model := model;
                 l_focalLength := focalLength; l_aperture := aperture; l_mount := mount;
                 l_createdAt := JS.Str now |} in
  let dm := set_lenses dm (lenses (data dm) ++ [lens]) in
  let '(fs, saved) := saveData dm fs in
  (dm, fs, if saved then Some lens else None).

Definition Lens_fromObject (obj : LensObj) : LensObj :=
  {| l_id := l_id obj; l_maker := l_maker obj; l_model := l_model obj;
     l_focalLength := l_focalLength obj; l_aperture := l_aperture obj;
     l_mount := l_mount obj; l_createdAt := l_createdAt obj |}.

Definition getLenses (dm : t) : list LensObj := Lens_fromObject <$> lenses (data dm).

Definition getLensById (dm : t) (id : JS.value) : option LensObj :=
  Lens_fromObject <$> List.find (fun l => JS.strict_eq (l_id l) id) (lenses (data dm)).

Definition updateLens (dm : t) (fs : Fs.fsys)
    (id maker model focalLength aperture mount : JS.value) : t * Fs.fsys * bool :=
  match findIndex (fun l => JS.strict_eq (l_id l) id) (lenses (data dm)) with
  | None => (dm, fs, false)
  | Some index =>
      let dm := set_lenses dm
                  (alter (fun l => {| l_id := l_id l; l_maker := maker; l_model := model;
                                      l_focalLength := focalLength; l_aperture := aperture;
                                      l_mount := mount; l_createdAt := l_createdAt l |})
                     index (lenses (data dm))) in
      let '(fs, saved) := saveData dm fs in
      (dm, fs, saved)
  end.

Definition deleteLens (dm : t) (fs : Fs.fsys) (id : JS.value) : t * Fs.fsys * Outcome :=
  let setupsUsingLens :=
    List.filter (fun s => JS.strict_eq (s_lensId s) id) (setups (data dm)) in
  if (0 <? List.length setupsUsingLens)%nat then
    (dm, fs, {| success := false;
                message := "Cannot delete lens: it is used in existing setups" |})
  else
    let dm := set_lenses dm
                (List.filter (fun l => negb (JS.strict_eq (l_id l) id)) (lenses (data dm))) in
    let '(fs, saved) := saveData dm fs in
    (dm, fs, {| success := saved; message := "Lens deleted successfully" |}).

(** *** Films *)

Definition createFilm (dm : t) (fs : Fs.fsys) (uuid now : string) (maker name iso : JS.value)
    : t * Fs.fsys * option FilmObj :=
  let film := {| f_id := JS.Str uuid; f_maker := maker; f_name := name; f_iso := iso;
                 f_createdAt := JS.Str now |} in
  let dm := set_films dm (films (data dm) ++ [film]) in
  let '(fs, saved) := saveData dm fs in
  (dm, fs, if saved then Some film else None).

Definition Film_fromObject (obj : FilmObj) : FilmObj :=
  {| f_id := f_id obj; f_maker := f_maker obj; f_name := f_name obj; f_iso := f_iso obj;
     f_createdAt := f_createdAt obj |}.

Definition getFilms (dm : t) : list FilmObj := Film_fromObject <$> films (data dm).

Definition getFilmById (dm : t) (id : JS.value) : option FilmObj :=
  Film_fromObject <$> List.find (fun f => JS.strict_eq (f_id f) id) (films (data dm)).

Definition updateFilm (dm : t) (fs : Fs.fsys) (id maker name iso : JS.value)
    : t * Fs.fsys * bool :=
  match findIndex (fun f => JS.strict_eq (f_id f) id) (films (data dm)) with
  | None => (dm, fs, false)
  | Some index =>
      let dm := set_films dm
                  (alter (fun f => {| f_id := f_id f; f_maker := maker; f_name := name;
                                      f_iso := iso; f_createdAt := f_createdAt f |})
                     index (films (data dm))) in
      let '(fs, saved) := saveData dm fs in
      (dm, fs, saved)
  end.

Definition deleteFilm (dm : t) (fs : Fs.fsys) (id : JS.value) : t * Fs.fsys * Outcome :=
  let dm := set_films dm
              (List.filter (fun f => negb (JS.strict_eq (f_id f) id)) (films (data dm))) in
  let '(fs, saved) := saveData dm fs in
  (dm, fs, {| success := saved; message := "Film deleted successfully" |}).

(** *** Photographers *)

Definition createPhotographer (dm : t) (fs : Fs.fsys) (uuid now : string)
    (name email : JS.value) : t * Fs.fsys * PhotographerObj :=
  let photographer := {| p_id := JS.Str uuid; p_name := name; p_email := email;
                         p_createdAt := JS.Str now |} in
  let dm := set_photographers dm (photographers (data dm) ++ [photographer]) in
  let '(fs, _) := saveData dm fs in
  (dm, fs, photographer).

Definition Photographer_fromObject (obj : PhotographerObj) : PhotographerObj :=
  {| p_id := p_id obj; p_name := p_name obj; p_email := p_email obj;
     p_createdAt := p_createdAt obj |}.

Definition getPhotographers (dm : t) : list PhotographerObj :=
  Photographer_fromObject <$> photographers (data dm).

Definition getPhotographerById (dm : t) (id : JS.value) : option PhotographerObj :=
  Photographer_fromObject
    <$> List.find (fun p => JS.strict_eq (p_id p) id) (photographers (data dm)).

Definition updatePhotographer (dm : t) (fs : Fs.fsys) (id name email : JS.value)
    : t * Fs.fsys * bool :=
  match findIndex (fun p => JS.strict_eq (p_id p) id) (photographers (data dm)) with
  | None => (dm, fs, false)
  | Some index =>
      let dm := set_photographers dm
                  (alter (fun p => {| p_id := p_id p; p_name := name; p_email := email;
                                      p_createdAt := p_createdAt p |})
                     index (photographers (data dm))) in
      let '(fs, saved) := saveData dm fs in
      (dm, fs, saved)
  end.

Definition deletePhotographer (dm : t) (fs : Fs.fsys) (id : JS.value)
    : t * Fs.fsys * Outcome :=
  let dm := set_photographers dm
              (List.filter (fun p => negb (JS.strict_eq (p_id p) id))
                 (photographers (data dm))) in
  let '(fs, saved) := saveData dm fs in
  (dm, fs, {| success := saved; message := "Photographer deleted successfully" |}).

(** *** Setups *)

Definition createSetup (dm : t) (fs : Fs.fsys) (uuid now : string)
    (name cameraId lensId : JS.value) : t * Fs.fsys * option SetupObj :=
  let camera := getCameraById dm cameraId in
  let lens := getLensById dm lensId in
  match camera, lens with
  | Some _, Some _ =>
      let setup := {| s_id := JS.Str uuid; s_name := name; s_cameraId := cameraId;
                      s_lensId := lensId; s_createdAt := JS.Str now |} in
      let dm := set_setups dm (setups (data dm) ++ [setup]) in
      let '(fs, saved) := saveData dm fs in
      (dm, fs, if saved then Some setup else None)
  | _, _ => (dm, fs, None)
  end.

Definition Setup_fromObject (obj : SetupObj) : SetupObj :=
  {| s_id := s_id obj; s_name := s_name obj; s_cameraId := s_cameraId obj;
     s_lensId := s_lensId obj; s_createdAt := s_createdAt obj |}.

Definition getSetups (dm : t) : list SetupObj := Setup_fromObject <$> setups (data dm).

Definition getSetupById (dm : t) (id : JS.value) : option SetupObj :=
  Setup_fromObject <$> List.find (fun s => JS.strict_eq (s_id s) id) (setups (data dm)).

(** [{ setup, camera, lens }], or [null] *)
Record Details := {
  d_setup : SetupObj;
  d_camera : option CameraObj;
  d_lens : option LensObj
}.

Definition getSetupWithDetails (dm : t) (id : JS.value) : option Details :=
  match getSetupById dm id with
  | None => None
  | Some setup =>
      let camera := getCameraById dm (s_cameraId setup) in
      let lens := getLensById dm (s_lensId setup) in
      Some {| d_setup := setup; d_camera := camera; d_lens := lens |}
  end.

Definition updateSetup (dm : t) (fs : Fs.fsys) (id name cameraId lensId : JS.value)
    : t * Fs.fsys * bool :=
  match findIndex (fun s => JS.strict_eq (s_id s) id) (setups (data dm)) with
  | None => (dm, fs, false)
  | Some index =>
      let camera := getCameraById dm cameraId in
      let lens := getLensById dm lensId in
      match camera, lens with
      | Some _, Some _ =>
          let dm := set_setups dm
                      (alter (fun s => {| s_id := s_id s; s_name := name;
                                          s_cameraId := cameraId; s_lensId := lensId;
                                          s_createdAt := s_createdAt s |})
                         index (setups (data dm))) in
          let '(fs, saved) := saveData dm fs in
          (dm, fs, saved)
      | _, _ => (dm, fs, false)
      end
  end.

Definition deleteSetup (dm : t) (fs : Fs.fsys) (id : JS.value) : t * Fs.fsys * Outcome :=
  let dm := set_setups dm
              (List.filter (fun s => negb (JS.strict_eq (s_id s) id)) (setups (data dm))) in
  let '(fs, saved) := saveData dm fs in
  (dm, fs, {| success := saved; message := "Setup deleted successfully" |}).

End WithRuntime.
End DataManager.

(** ** src/models.js: the names shown in the menus *)

Module Display.

(** The conversion [Array.prototype.join] applies to an element. *)
Definition join_item (v : JS.value) : string :=
  match v with
  | JS.Undefined | JS.Null => ""
  | _ => JS.toString v
  end.

(** [Camera.getDisplayName] *)
Definition Camera_getDisplayName (c : DataManager.CameraObj) : string :=
  JS.toString (DataManager.c_maker c) +:+ " " +:+ JS.toString (DataManager.c_model c).

(** [Lens.getDisplayName] *)
Definition Lens_getDisplayName (l : DataManager.LensObj) : string :=
  let parts := [join_item (DataManager.l_maker l)] in
  let parts :=
    if JS.truthy (DataManager.l_focalLength l)
    then parts ++ [JS.toString (DataManager.l_focalLength l) +:+ "mm"]
    else if JS.truthy (DataManager.l_model l)
         then parts ++ [join_item (DataManager.l_model l)]
         else parts in
  let parts := if JS.truthy (DataManager.l_aperture l)
               then parts ++ ["f/" +:+ JS.toString (DataManager.l_aperture l)] else parts in
  let parts := if JS.truthy (DataManager.l_mount l)
               then parts ++ ["(" +:+ JS.toString (DataManager.l_mount l) +:+ ")"] else parts in
  JS.join " " parts.

(** [Film.getDisplayName] *)
Definition Film_getDisplayName (f : DataManager.FilmObj) : string :=
  JS.toString (DataManager.f_maker f) +:+ " " +:+ JS.toString (DataManager.f_name f)
  +:+ " (ISO " +:+ JS.toString (DataManager.f_iso f) +:+ ")".

(** [Photographer.getDisplayName] *)
Definition Photographer_getDisplayName (p : DataManager.PhotographerObj) : JS.value :=
  if JS.truthy (DataManager.p_email p)
  then JS.Str (JS.toString (DataManager.p_name p) +:+ " ("
               +:+ JS.toString (DataManager.p_email p) +:+ ")")
  else DataManager.p_name p.

End Display.

(** ** src/cli.js *)

Module CLI.

(** [String.prototype.endsWith] *)
Definition endsWith (s suffix : string) : bool :=
  (String.length suffix <=? String.length s)%nat
  && String.eqb (String.substring (String.length s - String.length suffix)
                   (String.length suffix) s) suffix.

(** [s.slice(1, -1)] *)
Definition slice_1_minus_1 (s : string) : string :=
  String.substring 1 (String.length s - 2) s.

(** [s.replace(/\\ /g, ' ')]: every backslash that a space follows goes,
    left to right. *)
Fixpoint unescape_spaces (s : string) : string :=
  match s with
  | String "\"%char (String " "%char rest) => String " "%char (unescape_spaces rest)
  | String c rest => String c (unescape_spaces rest)
  | EmptyString => EmptyString
  end.

Definition cleanFolderPath (inputPath : string) : string :=
  let cleanPath := JS.trim inputPath in
  let cleanPath :=
    if (JS.starts_with Sidecar.quote cleanPath && endsWith cleanPath Sidecar.quote)
       || (JS.starts_with "'" cleanPath && endsWith cleanPath "'")
    then JS.trim (slice_1_minus_1 cleanPath)
    else cleanPath in
  unescape_spaces cleanPath.

(** The [validate] function of the [shotISO] question: [true], or the
    message shown. *)
Definition validateShotISO (input : string) : JS.value :=
  if negb (JS.truthy (JS.Str (JS.trim input))) then JS.Bool true
  else
    let iso := JS.parseInt_string input in
    match iso with
    | JS.Int n => if 0 <? n then JS.Bool true else JS.Str "Please enter a valid ISO number"
    | JS.NaN => JS.Str "Please enter a valid ISO number"
    end.

(** [{ name, value }] *)
Record Choice := { name : JS.value; value : JS.value }.

(** The questions [selectSetupAndFilm] asks: the three lists of choices. *)
Record Questions := {
  setupChoices : list Choice;
  filmChoices : list Choice;
  photographerChoices : list Choice
}.

(** What [promptWithCancel] does: it returns the answers, throws a
    [CancelledError], or throws something else. *)
Inductive Reply :=
| Answers (setupId filmId : JS.value) (shotISO : string) (photographerId : JS.value)
| CancelledError
| OtherError (message : string).

(** What [selectSetupAndFilm] returns: [null] when a list is empty,
    [undefined] after a cancellation, or the selection. *)
Inductive Chosen :=
| ReturnedNull
| ReturnedUndefined
| Selected (selection : Models.Selection).

(** The part of a stored object the processors read. *)
Definition toCamera (c : DataManager.CameraObj) : Models.Camera :=
  {| Models.cam_maker := DataManager.c_maker c; Models.cam_model := DataManager.c_model c |}.

Definition toLens (l : DataManager.LensObj) : Models.Lens :=
  {| Models.lens_maker := DataManager.l_maker l; Models.lens_model := DataManager.l_model l;
     Models.focalLength := DataManager.l_focalLength l;
     Models.aperture := DataManager.l_aperture l; Models.mount := DataManager.l_mount l |}.

Definition toFilm (f : DataManager.FilmObj) : Models.Film :=
  {| Models.film_maker := DataManager.f_maker f; Models.film_name := DataManager.f_name f;
     Models.iso := DataManager.f_iso f |}.

Definition toSetupDetails (d : DataManager.Details) : Models.SetupDetails :=
  {| Models.camera := toCamera <$> DataManager.d_camera d;
     Models.lens := toLens <$> DataManager.d_lens d |}.

(** [setups.map(setup => ...)]: one choice per setup; a setup without
    details, camera or lens throws a [TypeError]. *)
Fixpoint setupChoicesOf (dm : DataManager.t) (setups : list DataManager.SetupObj)
    : result (list Choice) :=
  match setups with
  | [] => Ok []
  | setup :: rest =>
      details ← member (DataManager.getSetupWithDetails dm (DataManager.s_id setup));
      camera ← member (DataManager.d_camera details);
      lens ← member (DataManager.d_lens details);
      let choice :=
        {| name := JS.Str (JS.toString (DataManager.s_name setup) +:+ " ("
                           +:+ Display.Camera_getDisplayName camera +:+ " + "
                           +:+ Display.Lens_getDisplayName lens +:+ ")");
           value := DataManager.s_id setup |} in
      choices ← setupChoicesOf dm rest;
      Ok (choice :: choices)
  end.

Definition selectSetupAndFilm (dm : DataManager.t) (promptWithCancel : Questions → Reply)
    : result Chosen :=
  let setups := DataManager.getSetups dm in
  let films := DataManager.getFilms dm in
  let photographers := DataManager.getPhotographers dm in
  if (List.length setups =? 0)%nat then Ok ReturnedNull
  else if (List.length films =? 0)%nat then Ok ReturnedNull
  else if (List.length photographers =? 0)%nat then Ok ReturnedNull
  else
    setupChoices ← setupChoicesOf dm setups;
    let filmChoices :=
      (fun film => {| name := JS.Str (Display.Film_getDisplayName film);
                      value := DataManager.f_id film |}) <$> films in
    let photographerChoices :=
      (fun photographer => {| name := Display.Photographer_getDisplayName photographer;
                              value := DataManager.p_id photographer |}) <$> photographers in
    match promptWithCancel {| setupChoices := setupChoices; filmChoices := filmChoices;
                              photographerChoices := photographerChoices |} with
    | CancelledError => Ok ReturnedUndefined
    | OtherError message => Throw message
    | Answers setupId filmId shotISO photographerId =>
        let setupDetails := DataManager.getSetupWithDetails dm setupId in
        let film := DataManager.getFilmById dm filmId in
        let photographer := DataManager.getPhotographerById dm photographerId in
        shot ← (if JS.truthy (JS.Str shotISO) then Ok (JS.parseInt (JS.Str shotISO))
                else f ← member film; Ok (DataManager.f_iso f));
        p ← member photographer;
        Ok (Selected {| Models.setup := toSetupDetails <$> setupDetails;
                        Models.film := toFilm <$> film;
                        Models.shotISO := shot;
                        Models.photographer := DataManager.p_name p |})
    end.

End CLI.

(** ** Vocabulary of the statements *)

(** The selection carries a setup with a camera and a lens, and a film. *)
Definition complete (selection : option Models.Selection) : Prop :=
  ∃ sel s cam l f,
    selection = Some sel ∧ Models.setup sel = Some s ∧
    Models.camera s = Some cam ∧ Models.lens s = Some l ∧ Models.film sel = Some f.

(** [setExifValue] stores this value. *)
Definition stored (v : JS.value) : bool := JS.truthy v && negb (JS.blank_string v).






(** A segment that carries its own length: it does not open the scan, has
    a marker and a length field, and is as long as the length field says. *)
Definition delimited (seg : string) : bool :=
  negb (JS.starts_with Piexif.SOS seg) &&
  match Piexif.drop 2 seg with
  | String hi (String lo _) =>
      (String.length seg =? 256 * nat_of_ascii hi + nat_of_ascii lo + 2)%nat
  | _ => false
  end.

(** A row of segments as a container holds it: segments that carry their
    length, then the start-of-scan segment. *)
Fixpoint framed (segs : list string) : bool :=
  match segs with
  | [] => false
  | [scan] => JS.starts_with Piexif.SOS scan
  | seg :: rest => delimited seg && framed rest
  end.

(** The segments that are not EXIF segments. *)
Definition without_exif (segs : list string) : list string :=
  List.filter (fun seg => negb (Piexif.is_exif_segment seg)) segs.

(** The selection made of a camera, a lens, a film, a shot ISO and a
    photographer. *)
Definition selection_of (cam : Models.Camera) (l : Models.Lens) (f : Models.Film)
    (shotISO photographer : JS.value) : Models.Selection :=
  {| Models.setup := Some {| Models.camera := Some cam; Models.lens := Some l |};
     Models.film := Some f;
     Models.shotISO := shotISO;
     Models.photographer := photographer |}.

(** A value the spec calls absent: [null], [undefined] or a string of
    white space. *)
Definition absent (v : JS.value) : Prop :=
  v = JS.Null ∨ v = JS.Undefined ∨ ∃ s, v = JS.Str s ∧ JS.trim s = "".

(** Every string in [e] that was not in [e0] has a character that is not
    white space. *)
Definition no_blank_since (e0 e : Tags.exif) : Prop :=
  ∀ i t s, Tags.tag_of e i t = Some (JS.Str s) →
    JS.trim s ≠ "" ∨ Tags.tag_of e0 i t = Some (JS.Str s).

(** ** Sample data: a selection, a toy codec library, a small file system *)

Module Sample.

Definition camera : Models.Camera :=
  {| Models.cam_maker := JS.Str "Canon"; Models.cam_model := JS.Str "AE-1" |}.

Definition lens : Models.Lens :=
  {| Models.lens_maker := JS.Str "Canon"; Models.lens_model := JS.Str "FD";
     Models.focalLength := JS.Str "50"; Models.aperture := JS.Str "1.2";
     Models.mount := JS.Str "FD" |}.

Definition film : Models.Film :=
  {| Models.film_maker := JS.Str "Kodak"; Models.film_name := JS.Str "Portra";
     Models.iso := JS.Num (JS.Int 400) |}.

Definition selection : Models.Selection :=
  {| Models.setup := Some {| Models.camera := Some camera; Models.lens := Some lens |};
     Models.film := Some film;
     Models.shotISO := JS.Num (JS.Int 800);
     Models.photographer := JS.Str "Jane Doe" |}.

(** Shot at box speed. *)
Definition box_speed : Models.Selection :=
  {| Models.setup := Models.setup selection; Models.film := Models.film selection;
     Models.shotISO := JS.Num (JS.Int 400);
     Models.photographer := Models.photographer selection |}.

(** No photographer. *)
Definition anonymous : Models.Selection :=
  {| Models.setup := Models.setup selection; Models.film := Models.film selection;
     Models.shotISO := Models.shotISO selection;
     Models.photographer := JS.Null |}.

(** A camera and a film, no lens. *)
Definition camera_only : Models.Selection :=
  {| Models.setup := Some {| Models.camera := Some camera; Models.lens := None |};
     Models.film := Some film;
     Models.shotISO := JS.Num (JS.Int 800);
     Models.photographer := JS.Str "Jane Doe" |}.

(** A lens whose focal length is two spaces. *)
Definition blank_focal : Models.Selection :=
  {| Models.setup :=
       Some {| Models.camera := Some camera;
               Models.lens := Some {| Models.lens_maker := JS.Str "Canon";
                                      Models.lens_model := JS.Null;
                                      Models.focalLength := JS.Str "  ";
                                      Models.aperture := JS.Null;
                                      Models.mount := JS.Str "FD" |} |};
     Models.film := Some film;
     Models.shotISO := JS.Undefined;
     Models.photographer := JS.Str "Jane Doe" |}.

(** An EXIF object as read from a file stamped earlier with a shot ISO and
    an artist. *)
Definition stamped : Tags.exif :=
  Tags.assign (Tags.assign Tags.createCleanExifObject "Exif" Tags.ExifIFD_ISOSpeed
                 (JS.Num (JS.Int 800)))
    "0th" Tags.ImageIFD_Artist (JS.Str "Jane Doe").

(** A toy [Math.round(parseFloat(a) * 10)] on decimal strings with at most
    one digit after the point. *)
Definition tenths (a : JS.value) : JS.value :=
  match FileTypes.split_on "." (JS.toString a) with
  | [whole] => match JS.parseInt_string whole with
               | JS.Int n => JS.Num (JS.Int (10 * n))
               | JS.NaN => JS.Num JS.NaN
               end
  | whole :: frac :: _ =>
      match JS.parseInt_string whole, JS.parseInt_string (String.substring 0 1 frac) with
      | JS.Int n, JS.Int d => JS.Num (JS.Int (10 * n + d))
      | JS.Int n, JS.NaN => JS.Num (JS.Int (10 * n))
      | JS.NaN, _ => JS.Num JS.NaN
      end
  | [] => JS.Num JS.NaN
  end.

(** A toy library.  No file carries EXIF that loads; a dump succeeds when
    the object has a camera maker; [remove] is the one of the container
    model; a TIFF is the text [II*] followed by
    anything and decodes to one empty IFD, the byte order [II] with nothing
    behind it decodes without an exception to no IFD at all; an IFD encodes
    when its width tag is set. *)
Definition lib : Libraries :=
  {| piexif_load := fun _ => None;
     piexif_dump := fun e =>
       match Tags.tag_of e "0th" Tags.ImageIFD_Make with
       | Some _ => Some "Exif"
       | None => None
       end;
     piexif_insert := fun exifBytes jpeg =>
       if JS.starts_with (Piexif.bytes [255; 216]) jpeg
       then Some (Piexif.bytes [255; 216] +:+ exifBytes +:+ Piexif.drop 2 jpeg)
       else None;
     piexif_remove := Piexif.remove;
     UTIF_decode := fun data =>
       if JS.starts_with "II*" data then Some [∅]
       else if String.eqb data "II" then Some []
       else None;
     UTIF_encode := fun tiffs =>
       match tiffs with
       | tiff :: _ => if JS.truthy (TiffProcessor.prop tiff "t256") then Some "II*" else None
       | [] => None
       end;
     round_tenths := tenths |}.

(** A JPEG with an EXIF segment, and the same image without it. *)
Definition jpeg_with_exif : string :=
  Piexif.bytes [255; 216; 255; 225; 0; 10; 69; 120; 105; 102; 0; 0; 1; 2;
                255; 218; 0; 2; 7; 7; 7; 255; 217].

Definition jpeg_plain : string :=
  Piexif.bytes [255; 216; 255; 218; 0; 2; 7; 7; 7; 255; 217].

Definition disk : Fs.fsys :=
  {| Fs.files := <["/photos/a.jpg" := jpeg_with_exif]>
                 (<["/photos/b.jpg" := jpeg_plain]>
                 (<["/photos/c.tif" := "not a tiff"]>
                 (<["/photos/d.dng" := "II* empty"]>
                 (<["/photos/e.cr2" := "raw"]>
                 (<["/photos/f.tif" := "II"]> ∅)))));
     Fs.locked := ∅ |}.

Definition folder : Fs.entry :=
  Fs.Directory (Some [("a.jpg", Fs.File); ("b.jpg", Fs.File); ("notes.txt", Fs.File);
                      ("c.tif", Fs.File);
                      ("sub", Fs.Directory (Some [("missing.jpg", Fs.File)]))]).

Definition empty_folder : Fs.entry :=
  Fs.Directory (Some [("notes.txt", Fs.File)]).

End Sample.

(** ** Vocabulary of the further properties *)

(** [c] does not occur in [s]. *)
Definition lacks (c : ascii) (s : string) : bool :=
  negb (JS.includes s (String c EmptyString)).

(** [fs'] differs from [fs] at most in the content of the files [paths]. *)
Definition same_outside (paths : list string) (fs fs' : Fs.fsys) : Prop :=
  Fs.locked fs' = Fs.locked fs ∧
  ∀ q, q ∉ paths → Fs.files fs' !! q = Fs.files fs !! q.

(** The outcome [r] of an operation started on [fs]: it touched at most
    [paths], and left everything as it was when it returned [false]. *)
Definition confined (paths : list string) (fs : Fs.fsys) (r : Fs.fsys * bool) : Prop :=
  same_outside paths fs r.1 ∧ (r.2 = false → r.1 = fs).

(** The paths an operation on a file of the given type may write or
    remove. *)
Definition targets (action : string) (filePath : string) : list string :=
  match FileTypes.getFileType filePath with
  | FileTypes.jpeg => [filePath]
  | FileTypes.tiff | FileTypes.dng =>
      if String.eqb action "erase" then [filePath] else [filePath; filePath +:+ ".xmp"]
  | FileTypes.raw => [filePath +:+ ".xmp"]
  | FileTypes.unknown => []
  end.

(** The paths a batch over [supportedFiles] may touch. *)
Definition batch_paths (supportedFiles : list FileCollector.collected) : list string :=
  supportedFiles ≫= fun file => [FileCollector.path file; FileCollector.path file +:+ ".xmp"].

(** The result recorded for a file that no processor was run on. *)
Definition skipped (file : FileCollector.collected) : FileCollector.ProcessingResult :=
  {| FileCollector.pr_name := FileCollector.name file;
     FileCollector.pr_type := FileTypes.getFileType (FileCollector.name file);
     FileCollector.pr_directory := FileCollector.directory file;
     FileCollector.success := None |}.

(** The bytes of the first object of [tiers] that [piexif.dump] takes. *)
Fixpoint first_dump (lib : Libraries) (tiers : list Tags.exif) : option string :=
  match tiers with
  | [] => None
  | exifObj :: rest =>
      match piexif_dump lib exifObj with
      | Some bytes => Some bytes
      | None => first_dump lib rest
      end
  end.

(** The nine keys of the tag table. *)
Definition configKeys : list Tags.configKey :=
  [Tags.cameraMaker; Tags.cameraModel; Tags.lensMaker; Tags.lensModel; Tags.focalLength;
   Tags.fNumber; Tags.filmISO; Tags.shotISO; Tags.photographer].

(** The keys [setTiffExifValues] assigns. *)
Definition tiffKeys : list string :=
  ["t256"; "t257"; "t271"; "t272"; "t42035"; "t42036"; "t34855"; "t34864"; "t315"].

(** The IFD that TIFF erase hands to the encoder: the [cleanTiff] of
    [TiffProcessor.eraseExifFromFile]. *)
Definition cleanTiff (tiff : gmap string JS.value) : gmap string JS.value :=
  let cleanTiff := fold_left (TiffProcessor.keep_defined tiff) TiffProcessor.essentialTags ∅ in
  let cleanTiff := TiffProcessor.keep_truthy tiff cleanTiff "width" in
  let cleanTiff := TiffProcessor.keep_truthy tiff cleanTiff "height" in
  TiffProcessor.keep_truthy tiff cleanTiff "data".

(** The entries of a listing up to the first one [fs.statSync] throws on. *)
Fixpoint before_dangling (entries : list (string * Fs.entry)) : list (string * Fs.entry) :=
  match entries with
  | [] => []
  | (_, Fs.Dangling) :: _ => []
  | entry :: rest => entry :: before_dangling rest
  end.

(** A plain file with a supported extension. *)
Definition is_supported_file (entry : string * Fs.entry) : bool :=
  match entry.2 with
  | Fs.File => FileTypes.isSupportedFile entry.1
  | _ => false
  end.

(** A name a directory can hold: not empty, no slash. *)
Definition valid_name (name : string) : bool :=
  negb (String.eqb name "") && lacks "/" name.

(** Every name below this entry is one a directory can hold. *)
Fixpoint well_named (stat : Fs.entry) : bool :=
  match stat with
  | Fs.Directory (Some entries) =>
      (fix all (entries : list (string * Fs.entry)) : bool :=
         match entries with
         | [] => true
         | (e, st) :: rest => valid_name e && well_named st && all rest
         end) entries
  | _ => true
  end.

(** What the processors need of a collected file: a full path with a
    supported extension, and a relative name of the same type. *)
Definition consistent (file : FileCollector.collected) : Prop :=
  FileTypes.isSupportedFile (FileCollector.path file) = true ∧
  FileTypes.getFileType (FileCollector.path file) ≠ FileTypes.unknown ∧
  FileTypes.getFileType (FileCollector.name file)
  = FileTypes.getFileType (FileCollector.path file).

(** Every setup has a string for an identifier and names a camera and a
    lens that the store finds. *)
Definition linked (dm : DataManager.t) : Prop :=
  ∀ s, s ∈ DataManager.setups (DataManager.data dm) →
    JS.typeof (DataManager.s_id s) = "string" ∧
    is_Some (DataManager.getCameraById dm (DataManager.s_cameraId s)) ∧
    is_Some (DataManager.getLensById dm (DataManager.s_lensId s)).

(** The calls a client can make on a [DataManager]. *)
Inductive request :=
| CreateCamera (uuid now : string) (maker model : JS.value)
| UpdateCamera (id maker model : JS.value)
| DeleteCamera (id : JS.value)
| CreateLens (uuid now : string) (maker model focalLength aperture mount : JS.value)
| UpdateLens (id maker model focalLength aperture mount : JS.value)
| DeleteLens (id : JS.value)
| CreateFilm (uuid now : string) (maker name iso : JS.value)
| UpdateFilm (id maker name iso : JS.value)
| DeleteFilm (id : JS.value)
| CreatePhotographer (uuid now : string) (name email : JS.value)
| UpdatePhotographer (id name email : JS.value)
| DeletePhotographer (id : JS.value)
| CreateSetup (uuid now : string) (name cameraId lensId : JS.value)
| UpdateSetup (id name cameraId lensId : JS.value)
| DeleteSetup (id : JS.value).

(** The store and the file system after a call. *)
Definition serve (JSON_stringify : DataManager.Data → string) (r : request)
    (state : DataManager.t * Fs.fsys) : DataManager.t * Fs.fsys :=
  let '(dm, fs) := state in
  match r with
  | CreateCamera uuid now maker model =>
      (DataManager.createCamera JSON_stringify dm fs uuid now maker model).1
  | UpdateCamera id maker model =>
      (DataManager.updateCamera JSON_stringify dm fs id maker model).1
  | DeleteCamera id => (DataManager.deleteCamera JSON_stringify dm fs id).1
  | CreateLens uuid now maker model focalLength aperture mount =>
      (DataManager.createLens JSON_stringify dm fs uuid now maker model focalLength
         aperture mount).1
  | UpdateLens id maker model focalLength aperture mount =>
      (DataManager.updateLens JSON_stringify dm fs id maker model focalLength aperture mount).1
  | DeleteLens id => (DataManager.deleteLens JSON_stringify dm fs id).1
  | CreateFilm uuid now maker name iso =>
      (DataManager.createFilm JSON_stringify dm fs uuid now maker name iso).1
  | UpdateFilm id maker name iso =>
      (DataManager.updateFilm JSON_stringify dm fs id maker name iso).1
  | DeleteFilm id => (DataManager.deleteFilm JSON_stringify dm fs id).1
  | CreatePhotographer uuid now name email =>
      (DataManager.createPhotographer JSON_stringify dm fs uuid now name email).1
  | UpdatePhotographer id name email =>
      (DataManager.updatePhotographer JSON_stringify dm fs id name email).1
  | DeletePhotographer id => (DataManager.deletePhotographer JSON_stringify dm fs id).1
  | CreateSetup uuid now name cameraId lensId =>
      (DataManager.createSetup JSON_stringify dm fs uuid now name cameraId lensId).1
  | UpdateSetup id name cameraId lensId =>
      (DataManager.updateSetup JSON_stringify dm fs id name cameraId lensId).1
  | DeleteSetup id => (DataManager.deleteSetup JSON_stringify dm fs id).1
  end.

(** What a shell does to a path: a backslash before every space. *)
Fixpoint escape_spaces (s : string) : string :=
  match s with
  | EmptyString => EmptyString
  | String c rest =>
      if Ascii.eqb c " " then String "\" (String " " (escape_spaces rest))
      else String c (escape_spaces rest)
  end.

(** Nothing but white space. *)
Fixpoint blank (s : string) : bool :=
  match s with
  | EmptyString => true
  | String c r => JS.is_space c && blank r
  end.

(** ** Sample data: a store of equipment and a library that decodes *)

Module Studio.

(** A toy library whose serialiser refuses an object that carries a focal
    length, and whose TIFF decoder returns two IFDs, the first with a
    width. *)
Definition lib : Libraries :=
  {| piexif_load := fun _ => None;
     piexif_dump := fun e =>
       match Tags.tag_of e "Exif" Tags.ExifIFD_FocalLength with
       | Some _ => None
       | None => Some "Exif"
       end;
     piexif_insert := piexif_insert Sample.lib;
     piexif_remove := piexif_remove Sample.lib;
     UTIF_decode := fun data =>
       if JS.starts_with "II*" data
       then Some [{["width" := JS.Num (JS.Int 100)]}; ∅]
       else None;
     UTIF_encode := UTIF_encode Sample.lib;
     round_tenths := round_tenths Sample.lib |}.

(** A toy [JSON.stringify]: the number of objects in the store. *)
Definition stringify (d : DataManager.Data) : string :=
  pretty (Z.of_nat (List.length (DataManager.cameras d) + List.length (DataManager.lenses d)
                    + List.length (DataManager.films d)
                    + List.length (DataManager.photographers d)
                    + List.length (DataManager.setups d))).

Definition camera : DataManager.CameraObj :=
  {| DataManager.c_id := JS.Str "c1"; DataManager.c_maker := JS.Str "Canon";
     DataManager.c_model := JS.Str "AE-1"; DataManager.c_createdAt := JS.Str "2025-07-01" |}.

Definition lens : DataManager.LensObj :=
  {| DataManager.l_id := JS.Str "l1"; DataManager.l_maker := JS.Str "Canon";
     DataManager.l_model := JS.Str "FD"; DataManager.l_focalLength := JS.Str "50";
     DataManager.l_aperture := JS.Str "1.2"; DataManager.l_mount := JS.Str "FD";
     DataManager.l_createdAt := JS.Str "2025-07-01" |}.

Definition film : DataManager.FilmObj :=
  {| DataManager.f_id := JS.Str "f1"; DataManager.f_maker := JS.Str "Kodak";
     DataManager.f_name := JS.Str "Portra"; DataManager.f_iso := JS.Num (JS.Int 400);
     DataManager.f_createdAt := JS.Str "2025-07-01" |}.

Definition photographer : DataManager.PhotographerObj :=
  {| DataManager.p_id := JS.Str "p1"; DataManager.p_name := JS.Str "Jane Doe";
     DataManager.p_email := JS.Null; DataManager.p_createdAt := JS.Str "2025-07-01" |}.

Definition setup : DataManager.SetupObj :=
  {| DataManager.s_id := JS.Str "s1"; DataManager.s_name := JS.Str "Portrait";
     DataManager.s_cameraId := JS.Str "c1"; DataManager.s_lensId := JS.Str "l1";
     DataManager.s_createdAt := JS.Str "2025-07-01" |}.

Definition store : DataManager.t :=
  {| DataManager.DATA_FILE := "/home/jane/.config/ifex.json";
     DataManager.data :=
       {| DataManager.cameras := [camera]; DataManager.lenses := [lens];
          DataManager.films := [film]; DataManager.photographers := [photographer];
          DataManager.setups := [setup] |} |}.

(** The user picks the setup, the film and the photographer, and leaves the
    shot ISO empty. *)
Definition prompt (questions : CLI.Questions) : CLI.Reply :=
  CLI.Answers (JS.Str "s1") (JS.Str "f1") "" (JS.Str "p1").

End Studio.

(** * Properties *)

(** ** Sanity checks of the embedding on the repository's own test data *)

Example getFileType_examples :
  FileTypes.getFileType "/path/to/image.jpg" = FileTypes.jpeg ∧
  FileTypes.getFileType "/path/to/image.TIFF" = FileTypes.tiff ∧
  FileTypes.getFileType "/path/to/image.dng" = FileTypes.dng ∧
  FileTypes.getFileType "/path/to/image.cr2" = FileTypes.raw ∧
  FileTypes.getFileType "/path/to/image.png" = FileTypes.unknown ∧
  FileTypes.getFileExtension "/path/to/file" = "".
Proof. repeat split; reflexivity. Qed.

Example getLensModelWithAperture_examples :
  Models.getLensModelWithAperture Sample.lens = "FD 50mm f/1.2" ∧
  Models.getLensModelWithAperture
    {| Models.lens_maker := JS.Str "Nikon"; Models.lens_model := JS.Null;
       Models.focalLength := JS.Str "35"; Models.aperture := JS.Str "1.4";
       Models.mount := JS.Str "F" |} = "35mm f/1.4".
Proof. split; reflexivity. Qed.

Example parseInt_examples :
  JS.parseInt (JS.Str "24-70") = JS.Num (JS.Int 24) ∧
  JS.parseInt (JS.Str "  ") = JS.Num JS.NaN ∧
  JS.parseInt (JS.Str "0x1f") = JS.Num (JS.Int 31).
Proof. repeat split; reflexivity. Qed.

(** ** Validation *)

Lemma jpeg_validate_iff (selection : option Models.Selection) :
  JpegProcessor.validateSelection selection = Ok () ↔ complete selection.
Proof.
  unfold JpegProcessor.validateSelection, complete. split.
  - destruct selection as [sel|]; [|done].
    destruct (Models.setup sel) as [s|] eqn:Hs; [|done].
    destruct (Models.camera s) as [cam|] eqn:Hc;
      destruct (Models.lens s) as [l|] eqn:Hl; try done.
    destruct (Models.film sel) as [f|] eqn:Hf; [|done].
    intros _. by exists sel, s, cam, l, f.
  - intros (sel & s & cam & l & f & -> & Hs & Hc & Hl & Hf).
    by rewrite Hs, Hc, Hl, Hf.
Qed.

Lemma tiff_validate_eq (selection : option Models.Selection) :
  TiffProcessor.validateSelection selection = JpegProcessor.validateSelection selection.
Proof. reflexivity. Qed.

Lemma raw_validate_eq (selection : option Models.Selection) :
  RawProcessor.validateSelection selection = JpegProcessor.validateSelection selection.
Proof. reflexivity. Qed.

Lemma validate_rejects (selection : option Models.Selection) :
  ¬ complete selection → ∃ m, JpegProcessor.validateSelection selection = Throw m.
Proof.
  intros Hn. destruct (JpegProcessor.validateSelection selection) as [[]|m] eqn:Hv.
  - by apply jpeg_validate_iff in Hv.
  - by exists m.
Qed.

(** C1, as amended.  Both apply paths accept a selection exactly when the
    selection, its setup, a camera, a lens and a film are present; nothing
    of the lens beyond its presence is examined.  A selection that is not
    accepted makes apply return [false] with the file system as it was. *)
Theorem validateSelection_requires_camera_lens_film
    (lib : Libraries) (fs : Fs.fsys) (filePath : string)
    (selection : option Models.Selection) :
  (JpegProcessor.validateSelection selection = Ok () ↔ complete selection) ∧
  (TiffProcessor.validateSelection selection = Ok () ↔ complete selection) ∧
  (¬ complete selection →
     JpegProcessor.applyExifToFile lib fs filePath selection = (fs, false) ∧
     TiffProcessor.applyExifToFile lib fs filePath selection = (fs, false)).
Proof.
  split; [apply jpeg_validate_iff|].
  split; [exact (jpeg_validate_iff selection)|].
  intros Hn. destruct (validate_rejects selection Hn) as [m Hm].
  unfold JpegProcessor.applyExifToFile, TiffProcessor.applyExifToFile.
  change (TiffProcessor.validateSelection selection)
    with (JpegProcessor.validateSelection selection).
  by rewrite Hm.
Qed.

(** C1, the claim as stated fails: a selection with a camera and a film
    and no lens is rejected by both apply paths. *)
Lemma camera_only_is_rejected :
  (Models.setup Sample.camera_only ≫= Models.camera) = Some Sample.camera ∧
  (Models.setup Sample.camera_only ≫= Models.lens) = None ∧
  Models.film Sample.camera_only = Some Sample.film ∧
  JpegProcessor.validateSelection (Some Sample.camera_only)
    = Throw "Selection must include setup with camera and lens" ∧
  TiffProcessor.validateSelection (Some Sample.camera_only)
    = Throw "Selection must include setup with camera and lens" ∧
  JpegProcessor.applyExifToFile Sample.lib Sample.disk "/photos/a.jpg"
    (Some Sample.camera_only) = (Sample.disk, false) ∧
  TiffProcessor.applyExifToFile Sample.lib Sample.disk "/photos/c.tif"
    (Some Sample.camera_only) = (Sample.disk, false).
Proof. repeat split; reflexivity. Qed.

(** ** The tag store *)

(** C9.  [setExifValue] returns the store it was given for every falsy
    value, whatever the field: [null], [undefined], the empty string, the
    number 0, [NaN] and [false], and also for a string of white space. *)
Theorem setExifValue_ignores_falsy (exifObj : Tags.exif) (k : Tags.configKey) :
  (∀ v, JS.truthy v = false → Tags.setExifValue exifObj k v = exifObj) ∧
  (∀ s, JS.trim s = "" → Tags.setExifValue exifObj k (JS.Str s) = exifObj) ∧
  Tags.setExifValue exifObj k JS.Null = exifObj ∧
  Tags.setExifValue exifObj k JS.Undefined = exifObj ∧
  Tags.setExifValue exifObj k (JS.Str "") = exifObj ∧
  Tags.setExifValue exifObj k (JS.Num (JS.Int 0)) = exifObj ∧
  Tags.setExifValue exifObj k (JS.Num JS.NaN) = exifObj ∧
  Tags.setExifValue exifObj k (JS.Bool false) = exifObj.
Proof.
  assert (Hfalsy : ∀ v, JS.truthy v = false → Tags.setExifValue exifObj k v = exifObj).
  { intros v Hv. unfold Tags.setExifValue. by rewrite Hv. }
  split; [exact Hfalsy|]. split.
  - intros s Hs. unfold Tags.setExifValue. cbn [JS.blank_string]. rewrite Hs.
    by rewrite orb_true_r.
  - repeat split; by apply Hfalsy.
Qed.

(** ** RAW erase *)

Lemma raw_is_not_dng (filePath : string) :
  FileTypes.getFileType filePath = FileTypes.raw → FileTypes.isDngFile filePath = false.
Proof.
  unfold FileTypes.getFileType.
  destruct (FileTypes.isJpegFile filePath); [done|].
  destruct (FileTypes.isTiffFile filePath); [done|].
  by destruct (FileTypes.isDngFile filePath).
Qed.



(** ** TIFF tags *)

Lemma setTiffExifValues_keeps_ISOSpeed
    (tiff tiff' : gmap string JS.value) (selection : Models.Selection) :
  TiffProcessor.setTiffExifValues tiff selection = Ok tiff' →
  tiff' !! "t34867" = tiff !! "t34867".
Proof.
  unfold TiffProcessor.setTiffExifValues.
  destruct (Models.setup selection) as [s|]; [|done]. cbn.
  destruct (Models.camera s) as [cam|]; [|done]. cbn.
  destruct (Models.lens s) as [l|]; [|done]. cbn.
  destruct (Models.film selection) as [f|]; [|done]. cbn.
  intros [= <-].
  destruct (JS.truthy (Models.shotISO selection)); by simplify_map_eq.
Qed.

(** C5, the code at the failing input.  On the TIFF path a shot ISO of 800
    on ISO 400 film lands in tag 34864 and tag 34867 stays empty, and a shot
    ISO equal to the film ISO is written all the same; the tag table maps
    the shot ISO to 34867. *)
Lemma tiff_shot_iso_lands_in_34864 :
  ∃ pushed box,
    TiffProcessor.setTiffExifValues ∅ Sample.selection = Ok pushed ∧
    pushed !! "t34864" = Some (JS.Num (JS.Int 800)) ∧
    pushed !! "t34867" = None ∧
    TiffProcessor.setTiffExifValues ∅ Sample.box_speed = Ok box ∧
    box !! "t34864" = Some (JS.Num (JS.Int 400)) ∧
    box !! "t34867" = None ∧
    Tags.EXIF_TAGS Tags.shotISO = ("Exif", 34867).
Proof.
  eexists _, _. split; [reflexivity|]. split; [reflexivity|]. split; [reflexivity|].
  split; [reflexivity|]. repeat split; reflexivity.
Qed.

(** ** The batch runner *)








Example processFolder_counts :
  (FileCollector.processFolder Sample.lib Sample.folder Sample.disk "/photos"
     (Some Sample.selection) "apply" true).2
  = FileCollector.Success
      {| FileCollector.total := 4; FileCollector.processed := 3; FileCollector.failed := 1;
         FileCollector.files :=
           [ {| FileCollector.pr_name := "a.jpg"; FileCollector.pr_type := FileTypes.jpeg;
                FileCollector.pr_directory := "."; FileCollector.success := Some true |};
             {| FileCollector.pr_name := "b.jpg"; FileCollector.pr_type := FileTypes.jpeg;
                FileCollector.pr_directory := "."; FileCollector.success := Some true |};
             {| FileCollector.pr_name := "c.tif"; FileCollector.pr_type := FileTypes.tiff;
                FileCollector.pr_directory := "."; FileCollector.success := Some true |};
             {| FileCollector.pr_name := "sub/missing.jpg";
                FileCollector.pr_type := FileTypes.jpeg;
                FileCollector.pr_directory := "sub"; FileCollector.success := Some false |} ] |} ∧
  (FileCollector.processFolder Sample.lib Sample.empty_folder Sample.disk "/photos"
     (Some Sample.selection) "erase" false).2
  = FileCollector.Failure
      "No supported image files (JPEG, TIFF, DNG, RAW) found in the specified folder.".
Proof. split; vm_compute; reflexivity. Qed.

(** ** TIFF and DNG apply: the sidecar fallback *)

Lemma tiff_or_dng_goes_to_tiff (lib : Libraries) (fs : Fs.fsys) (filePath : string)
    (selection : option Models.Selection) :
  FileTypes.getFileType filePath = FileTypes.tiff
  ∨ FileTypes.getFileType filePath = FileTypes.dng →
  complete selection →
  ExifManager.applyExifToFile lib fs filePath selection
  = TiffProcessor.applyExifToFile lib fs filePath selection.
Proof.
  intros Htype Hsel. unfold ExifManager.applyExifToFile.
  destruct Htype as [-> | Hdng]; [done|]. rewrite Hdng.
  assert (Hext : FileTypes.isDngFile filePath = true).
  { revert Hdng. unfold FileTypes.getFileType.
    destruct (FileTypes.isJpegFile filePath); [done|].
    destruct (FileTypes.isTiffFile filePath); [done|].
    destruct (FileTypes.isDngFile filePath); [done|].
    by destruct (FileTypes.isRawFile filePath). }
  unfold RawProcessor.applyExifToFile.
  change (RawProcessor.validateSelection selection)
    with (JpegProcessor.validateSelection selection).
  apply jpeg_validate_iff in Hsel. by rewrite Hsel, Hext.
Qed.

Lemma createSidecarFile_writes (fs : Fs.fsys) (filePath : string) (sel : Models.Selection) :
  complete (Some sel) →
  filePath +:+ ".xmp" ∉ Fs.locked fs →
  ∃ xmp,
    Sidecar.generateXmpSidecar sel = Ok xmp ∧
    Sidecar.createSidecarFile fs filePath (Some sel)
    = ({| Fs.files := <[filePath +:+ ".xmp" := xmp]> (Fs.files fs);
          Fs.locked := Fs.locked fs |}, true).
Proof.
  intros (? & s & cam & l & f & [= <-] & Hs & Hc & Hl & Hf) Hfree.
  assert (∃ xmp, Sidecar.generateXmpSidecar sel = Ok xmp) as [xmp Hxmp].
  { unfold Sidecar.generateXmpSidecar. rewrite Hs. cbn. rewrite Hc, Hl. cbn. rewrite Hf.
    eexists. reflexivity. }
  exists xmp. split; [exact Hxmp|].
  unfold Sidecar.createSidecarFile. cbn -[Sidecar.generateXmpSidecar Fs.writeFileSync].
  rewrite Hxmp. cbn -[Fs.writeFileSync].
  unfold Fs.writeFileSync. by rewrite decide_False.
Qed.

(** C3.  A TIFF or DNG file that can be read, with a selection that passes
    validation.  When [UTIF.decode] throws on its bytes, and when the first
    IFD with the tags set fails to encode, apply writes the sidecar at
    [path + ".xmp"] with the rendered document and returns [true], the
    sidecar path being writable.  When [UTIF.decode] returns without an
    exception and finds no IFD, apply fails the file: it returns [false] and
    writes neither the file nor a sidecar. *)
Theorem tiff_apply_falls_back_to_sidecar (lib : Libraries) (fs : Fs.fsys)
    (filePath data : string) (sel : Models.Selection) :
  FileTypes.getFileType filePath = FileTypes.tiff
  ∨ FileTypes.getFileType filePath = FileTypes.dng →
  complete (Some sel) →
  Fs.files fs !! filePath = Some data →
  (UTIF_decode lib data = None
   ∨ (∃ tiff rest tiff',
        UTIF_decode lib data = Some (tiff :: rest) ∧
        TiffProcessor.setTiffExifValues tiff sel = Ok tiff' ∧
        UTIF_encode lib [tiff'] = None) →
   filePath +:+ ".xmp" ∉ Fs.locked fs →
   ∃ xmp,
     Sidecar.generateXmpSidecar sel = Ok xmp ∧
     ExifManager.applyExifToFile lib fs filePath (Some sel)
     = ({| Fs.files := <[filePath +:+ ".xmp" := xmp]> (Fs.files fs);
           Fs.locked := Fs.locked fs |}, true)) ∧
  (UTIF_decode lib data = Some [] →
   ExifManager.applyExifToFile lib fs filePath (Some sel) = (fs, false)).
Proof.
  intros Htype Hsel Hread.
  rewrite (tiff_or_dng_goes_to_tiff lib fs filePath (Some sel) Htype Hsel).
  unfold TiffProcessor.applyExifToFile.
  change (TiffProcessor.validateSelection (Some sel))
    with (JpegProcessor.validateSelection (Some sel)).
  pose proof Hsel as Hvalid. apply jpeg_validate_iff in Hvalid. rewrite Hvalid. cbn.
  unfold Fs.readFileSync. rewrite Hread. cbn. split.
  - intros Hfail Hfree.
    destruct (createSidecarFile_writes fs filePath sel Hsel Hfree) as (xmp & Hxmp & Hside).
    exists xmp. split; [exact Hxmp|].
    destruct Hfail as [-> | (tiff & rest & tiff' & -> & -> & Henc)].
    + exact Hside.
    + cbn. rewrite Henc. cbn. exact Hside.
  - by intros ->.
Qed.

(** C3 on the sample disk: [c.tif] does not decode, the IFD decoded from
    [d.dng] has no width and does not encode, and no IFD is found in
    [f.tif]. *)
Lemma tiff_apply_fallback_example :
  (∃ xmp,
     Sidecar.generateXmpSidecar Sample.selection = Ok xmp ∧
     ExifManager.applyExifToFile Sample.lib Sample.disk "/photos/c.tif" (Some Sample.selection)
     = ({| Fs.files := <["/photos/c.tif" +:+ ".xmp" := xmp]> (Fs.files Sample.disk);
           Fs.locked := Fs.locked Sample.disk |}, true)) ∧
  (∃ xmp,
     Sidecar.generateXmpSidecar Sample.selection = Ok xmp ∧
     ExifManager.applyExifToFile Sample.lib Sample.disk "/photos/d.dng" (Some Sample.selection)
     = ({| Fs.files := <["/photos/d.dng" +:+ ".xmp" := xmp]> (Fs.files Sample.disk);
           Fs.locked := Fs.locked Sample.disk |}, true)) ∧
  ExifManager.applyExifToFile Sample.lib Sample.disk "/photos/f.tif" (Some Sample.selection)
  = (Sample.disk, false).
Proof.
  assert (Hsel : complete (Some Sample.selection)).
  { exists Sample.selection, {| Models.camera := Some Sample.camera;
                                Models.lens := Some Sample.lens |},
      Sample.camera, Sample.lens, Sample.film. repeat split. }
  split; [|split].
  - apply (tiff_apply_falls_back_to_sidecar Sample.lib Sample.disk "/photos/c.tif"
             "not a tiff" Sample.selection).
    + left. reflexivity.
    + exact Hsel.
    + vm_compute. reflexivity.
    + left. reflexivity.
    + vm_compute. discriminate.
  - apply (tiff_apply_falls_back_to_sidecar Sample.lib Sample.disk "/photos/d.dng"
             "II* empty" Sample.selection).
    + right. reflexivity.
    + exact Hsel.
    + vm_compute. reflexivity.
    + right. eexists _, _, _. split; [reflexivity|]. split; reflexivity.
    + vm_compute. discriminate.
  - apply (tiff_apply_falls_back_to_sidecar Sample.lib Sample.disk "/photos/f.tif"
             "II" Sample.selection).
    + left. reflexivity.
    + exact Hsel.
    + vm_compute. reflexivity.
    + reflexivity.
Defined.

(** C3 as it was stated fails on [f.tif]: its two bytes do not decode to any
    IFD, the selection is valid and the sidecar path is free, yet apply
    returns [false] and there is no sidecar afterwards. *)
Lemma tiff_without_ifd_gets_no_sidecar :
  let applied :=
    ExifManager.applyExifToFile Sample.lib Sample.disk "/photos/f.tif"
      (Some Sample.selection) in
  FileTypes.getFileType "/photos/f.tif" = FileTypes.tiff ∧
  TiffProcessor.validateSelection (Some Sample.selection) = Ok () ∧
  Fs.files Sample.disk !! "/photos/f.tif" = Some "II" ∧
  UTIF_decode Sample.lib "II" = Some [] ∧
  ("/photos/f.tif.xmp" ∉ Fs.locked Sample.disk) ∧
  applied.2 = false ∧
  Fs.files applied.1 !! "/photos/f.tif.xmp" = None.
Proof. cbv zeta. repeat split; try (vm_compute; reflexivity). vm_compute. discriminate. Qed.

(** ** Strings *)

Lemma append_nil_l (s : string) : "" +:+ s = s.
Proof. reflexivity. Qed.

Lemma append_cons (c : ascii) (a s : string) : String c a +:+ s = String c (a +:+ s).
Proof. reflexivity. Qed.

Lemma append_assoc (a b c : string) : (a +:+ b) +:+ c = a +:+ (b +:+ c).
Proof.
  induction a as [|x a IH]; [by rewrite !append_nil_l|].
  by rewrite !append_cons, IH.
Qed.

Lemma length_append (a b : string) :
  String.length (a +:+ b) = (String.length a + String.length b)%nat.
Proof. induction a as [|x a IH]; [done|]. rewrite append_cons. cbn. by rewrite IH. Qed.

Lemma substring_all (s : string) : String.substring 0 (String.length s) s = s.
Proof. induction s as [|x s IH]; [done|]. cbn. by rewrite IH. Qed.

Lemma substring_prefix (a b : string) : String.substring 0 (String.length a) (a +:+ b) = a.
Proof.
  induction a as [|c a IH]; [by destruct b|]. rewrite append_cons. cbn. by rewrite IH.
Qed.

Lemma substring_suffix (a b : string) :
  String.substring (String.length a) (String.length b) (a +:+ b) = b.
Proof.
  induction a as [|c a IH]; [rewrite append_nil_l; apply substring_all|].
  rewrite append_cons. cbn. apply IH.
Qed.

(** ** JPEG erase *)

Lemma fsys_write_same (fs : Fs.fsys) (path data : string) :
  Fs.files fs !! path = Some data →
  {| Fs.files := <[path := data]> (Fs.files fs); Fs.locked := Fs.locked fs |} = fs.
Proof. intros H. destruct fs as [files locked]. cbn in *. by rewrite insert_id. Qed.

Lemma jpeg_erase_once (lib : Libraries) (fs : Fs.fsys) (filePath jpeg jpeg' : string) :
  Fs.files fs !! filePath = Some jpeg →
  filePath ∉ Fs.locked fs →
  piexif_remove lib jpeg = Some jpeg' →
  JpegProcessor.eraseExifFromFile lib fs filePath
  = ({| Fs.files := <[filePath := jpeg']> (Fs.files fs); Fs.locked := Fs.locked fs |}, true).
Proof.
  intros Hread Hfree Hrm. unfold JpegProcessor.eraseExifFromFile, Fs.readFileSync.
  rewrite Hread. cbn. rewrite Hrm. cbn. unfold Fs.writeFileSync. by rewrite decide_False.
Qed.

(** *** Strings cut in two *)

Lemma drop_0 (s : string) : Piexif.drop 0 s = s.
Proof. unfold Piexif.drop. rewrite Nat.sub_0_r. apply substring_all. Qed.

Lemma drop_cons (n : nat) (c : ascii) (s : string) :
  Piexif.drop (S n) (String c s) = Piexif.drop n s.
Proof. reflexivity. Qed.

Lemma drop_append (a b : string) : Piexif.drop (String.length a) (a +:+ b) = b.
Proof.
  unfold Piexif.drop. rewrite length_append.
  replace (String.length a + String.length b - String.length a)%nat
    with (String.length b) by lia.
  apply substring_suffix.
Qed.

(** A string is its first [n] characters followed by the rest. *)
Lemma take_drop (n : nat) (s : string) :
  String.substring 0 n s +:+ Piexif.drop n s = s.
Proof.
  revert n. induction s as [|c s IH]; intros [|n]; try done.
  - by rewrite drop_0.
  - rewrite drop_cons. cbn [String.substring]. by rewrite append_cons, IH.
Qed.

Lemma drop_not_empty (n : nat) (s : string) :
  Piexif.drop n s ≠ "" → (n < String.length s)%nat.
Proof.
  revert n. induction s as [|c s IH]; intros [|n]; try done.
  - cbn. lia.
  - rewrite drop_cons. intros H%IH. cbn. lia.
Qed.

Lemma length_take (n : nat) (s : string) :
  (n ≤ String.length s)%nat → String.length (String.substring 0 n s) = n.
Proof.
  revert n. induction s as [|c s IH]; intros [|n]; cbn; try done; try lia.
  intros H. rewrite IH; lia.
Qed.

Lemma starts_with_append (p s : string) : JS.starts_with p (p +:+ s) = true.
Proof.
  induction p as [|c p IH]; [by destruct s|]. rewrite append_cons. cbn.
  by rewrite Ascii.eqb_refl, IH.
Qed.

(** A test on the start of a string sees the same in what the string is
    the start of. *)
Lemma starts_with_app_l (p s rest : string) :
  (String.length p ≤ String.length s)%nat →
  JS.starts_with p (s +:+ rest) = JS.starts_with p s.
Proof.
  revert s. induction p as [|c p IH]; intros [|x s]; cbn [String.length]; try done; try lia.
  intros H. rewrite append_cons. cbn [JS.starts_with]. rewrite IH; [done|lia].
Qed.

Lemma starts_with_prefix (p s : string) :
  JS.starts_with p s = true → s = p +:+ Piexif.drop (String.length p) s.
Proof.
  revert s. induction p as [|c p IH]; intros s; [by rewrite drop_0|].
  destruct s as [|x s]; [done|]. cbn [JS.starts_with String.length].
  intros [->%Ascii.eqb_eq H]%andb_prop. rewrite drop_cons, append_cons.
  by rewrite <- (IH s H).
Qed.

Lemma concat_cons (seg : string) (segs : list string) :
  segs ≠ [] → String.concat "" (seg :: segs) = seg +:+ String.concat "" segs.
Proof. by destruct segs. Qed.

(** *** The container model *)

(** The segments of a container, put end to end, are the data they were cut
    from. *)
Lemma segments_concat (fuel : nat) (data : string) (segs : list string) :
  Piexif.segments fuel data = Some segs → segs ≠ [] ∧ String.concat "" segs = data.
Proof.
  revert data segs. induction fuel as [|fuel IH]; intros data segs; [done|].
  cbn [Piexif.segments]. destruct (JS.starts_with Piexif.SOS data); [by intros [= <-]|].
  destruct (Piexif.drop 2 data) as [|hi [|lo tail]]; try done.
  set (endPoint := (256 * nat_of_ascii hi + nat_of_ascii lo + 2)%nat).
  destruct (Piexif.drop endPoint data) as [|c rest] eqn:Hrest; [done|].
  destruct (Piexif.segments fuel (String c rest)) as [found|] eqn:Hfound; [|done].
  intros [= <-]. destruct (IH _ _ Hfound) as [Hsome Hcat]. split; [done|].
  rewrite (concat_cons _ _ Hsome), Hcat, <- Hrest. apply take_drop.
Qed.

Lemma framed_cons (seg next : string) (rest : list string) :
  framed (seg :: next :: rest) = true ↔ delimited seg = true ∧ framed (next :: rest) = true.
Proof.
  change (framed (seg :: next :: rest)) with (delimited seg && framed (next :: rest)).
  apply andb_true_iff.
Qed.

(** When every segment has its marker and its length field, every segment
    before the scan carries its own length. *)
Lemma segments_framed (fuel : nat) (data : string) (segs : list string) :
  Piexif.segments fuel data = Some segs →
  Forall (fun seg => (4 ≤ String.length seg)%nat) segs →
  framed segs = true.
Proof.
  revert data segs. induction fuel as [|fuel IH]; intros data segs; [done|].
  cbn [Piexif.segments]. destruct (JS.starts_with Piexif.SOS data) eqn:Hscan.
  { intros [= <-] _. exact Hscan. }
  destruct (Piexif.drop 2 data) as [|hi [|lo tail]] eqn:Hlength; try done.
  set (endPoint := (256 * nat_of_ascii hi + nat_of_ascii lo + 2)%nat).
  destruct (Piexif.drop endPoint data) as [|c rest] eqn:Hrest; [done|].
  destruct (Piexif.segments fuel (String c rest)) as [found|] eqn:Hfound; [|done].
  intros [= <-] [Hfour Hall]%Forall_cons.
  destruct (segments_concat _ _ _ Hfound) as [Hsome _].
  assert (Hin : (endPoint < String.length data)%nat)
    by (apply drop_not_empty; by rewrite Hrest).
  pose proof (length_take endPoint data ltac:(lia)) as Hlen.
  pose proof (take_drop endPoint data) as Hdata. rewrite Hrest in Hdata.
  destruct (String.substring 0 endPoint data) as [|m1 [|m2 [|x [|y body]]]] eqn:Hseg;
    cbn [String.length] in Hfour; try lia.
  assert (Hdelimited : delimited (String m1 (String m2 (String x (String y body)))) = true).
  { unfold delimited. rewrite <- Hdata in Hscan, Hlength.
    rewrite starts_with_app_l in Hscan by (cbn; lia). rewrite Hscan.
    rewrite !append_cons, !drop_cons, drop_0 in Hlength. injection Hlength as -> -> _.
    rewrite !drop_cons, drop_0. cbn [negb andb]. by apply Nat.eqb_eq. }
  destruct found as [|next found]; [done|].
  apply framed_cons. split; [exact Hdelimited|]. exact (IH _ _ Hfound Hall).
Qed.

Lemma delimited_length (seg : string) : delimited seg = true → (4 ≤ String.length seg)%nat.
Proof.
  unfold delimited. destruct seg as [|m1 [|m2 [|x [|y body]]]]; cbn [String.length]; try lia.
  all: by rewrite ?andb_false_r.
Qed.

Lemma scan_length (seg : string) :
  JS.starts_with Piexif.SOS seg = true → (2 ≤ String.length seg)%nat.
Proof.
  destruct seg as [|m1 [|m2 seg]]; cbn [String.length]; try lia.
  all: intros H; cbn in H; by rewrite ?andb_false_r in H.
Qed.

(** A framed row holds no empty segment. *)
Lemma framed_length (segs : list string) :
  framed segs = true →
  (1 ≤ String.length (String.concat "" segs)
   ∧ List.length segs ≤ String.length (String.concat "" segs))%nat.
Proof.
  induction segs as [|seg [|next rest] IH]; [done| |].
  - intros H%scan_length. cbn. lia.
  - intros [H%delimited_length Hrest]%framed_cons. specialize (IH Hrest).
    rewrite concat_cons by done. rewrite length_append. cbn [List.length] in *. lia.
Qed.

(** What the parse reads at the front of a segment that carries its own
    length, whatever follows it. *)
Lemma delimited_front (seg rest : string) :
  delimited seg = true →
  JS.starts_with Piexif.SOS (seg +:+ rest) = false ∧
  ∃ hi lo tail,
    Piexif.drop 2 (seg +:+ rest) = String hi (String lo tail) ∧
    (256 * nat_of_ascii hi + nat_of_ascii lo + 2)%nat = String.length seg.
Proof.
  intros H. pose proof (delimited_length _ H) as Hfour. unfold delimited in H.
  apply andb_prop in H as [Hscan%negb_true_iff Hlen].
  split; [rewrite starts_with_app_l; [done|cbn; lia]|].
  destruct seg as [|m1 [|m2 [|x [|y body]]]]; cbn [String.length] in Hfour; try lia.
  rewrite !drop_cons, drop_0 in Hlen. apply Nat.eqb_eq in Hlen.
  exists x, y, (body +:+ rest). by rewrite !append_cons, !drop_cons, drop_0.
Qed.

(** A framed row, put end to end, is cut into the same segments again. *)
Lemma framed_parse (segs : list string) :
  framed segs = true →
  ∀ fuel, (List.length segs ≤ fuel)%nat →
    Piexif.segments fuel (String.concat "" segs) = Some segs.
Proof.
  induction segs as [|seg [|next rest] IH]; [done| |].
  - intros Hscan [|fuel] Hfuel; [cbn in Hfuel; lia|]. cbn [Piexif.segments String.concat].
    change (JS.starts_with Piexif.SOS seg = true) in Hscan. by rewrite Hscan.
  - intros [Hdelimited Hrest]%framed_cons [|fuel] Hfuel; [cbn in Hfuel; lia|].
    rewrite concat_cons by done. cbn [Piexif.segments].
    destruct (framed_length _ Hrest) as [Hmore _].
    destruct (delimited_front seg (String.concat "" (next :: rest)) Hdelimited)
      as (-> & hi & lo & tail & -> & ->).
    rewrite drop_append, substring_prefix.
    destruct (String.concat "" (next :: rest)) as [|c tail'] eqn:Hcat; [cbn in Hmore; lia|].
    cbv iota. rewrite IH; [done|done|cbn [List.length] in *; lia].
Qed.

(** The start-of-scan segment is no EXIF segment. *)
Lemma scan_not_exif (seg : string) :
  JS.starts_with Piexif.SOS seg = true → Piexif.is_exif_segment seg = false.
Proof.
  unfold Piexif.is_exif_segment.
  destruct seg as [|m1 [|m2 seg]]; intros H; cbn in H; rewrite ?andb_false_r in H; try done.
  apply andb_prop in H as [_ [<-%Ascii.eqb_eq _]%andb_prop].
  cbn. by rewrite andb_false_r.
Qed.

(** Taking the EXIF segments out of a framed row leaves a framed row with
    the same scan. *)
Lemma framed_without_exif (segs : list string) :
  framed segs = true →
  framed (without_exif segs) = true ∧ List.last (without_exif segs) "" = List.last segs "".
Proof.
  induction segs as [|seg [|next rest] IH]; [done| |].
  - intros Hscan. unfold without_exif. cbn [List.filter].
    change (JS.starts_with Piexif.SOS seg = true) in Hscan.
    by rewrite (scan_not_exif _ Hscan).
  - intros [Hdelimited Hrest]%framed_cons. destruct (IH Hrest) as [Hframed Hlast].
    unfold without_exif in *. cbn [List.filter] in *.
    change (List.last (seg :: next :: rest) "") with (List.last (next :: rest) "").
    destruct (Piexif.is_exif_segment seg); cbn [negb]; [done|].
    destruct (if negb (Piexif.is_exif_segment next)
              then next :: List.filter (fun seg => negb (Piexif.is_exif_segment seg)) rest
              else List.filter (fun seg => negb (Piexif.is_exif_segment seg)) rest)
      as [|kept others] eqn:Hkept; [done|].
    split; [by apply framed_cons|exact Hlast].
Qed.

Lemma without_exif_none (segs : list string) :
  Forall (fun seg => Piexif.is_exif_segment seg = false) segs → without_exif segs = segs.
Proof.
  induction 1 as [|seg segs Hseg _ IH]; [done|].
  unfold without_exif in *. cbn. by rewrite Hseg, IH.
Qed.

Lemma without_exif_twice (segs : list string) :
  without_exif (without_exif segs) = without_exif segs.
Proof.
  apply without_exif_none, Forall_forall. intros seg Hin.
  apply list_elem_of_In, List.filter_In in Hin as [_ Hin]. by apply negb_true_iff.
Qed.

(** A JPEG is the start-of-image marker and its segments. *)
Lemma splitIntoSegments_concat (jpeg : string) (segs : list string) :
  Piexif.splitIntoSegments jpeg = Some segs →
  jpeg = Piexif.SOI +:+ String.concat "" segs.
Proof.
  unfold Piexif.splitIntoSegments. destruct (JS.starts_with Piexif.SOI jpeg) eqn:Hsoi; [|done].
  intros [_ ->]%segments_concat. exact (starts_with_prefix _ _ Hsoi).
Qed.

Lemma splitIntoSegments_framed (segs : list string) :
  framed segs = true →
  Piexif.splitIntoSegments (Piexif.SOI +:+ String.concat "" segs) = Some segs.
Proof.
  intros Hframed. unfold Piexif.splitIntoSegments. rewrite starts_with_append.
  change 2%nat with (String.length Piexif.SOI). rewrite drop_append.
  apply framed_parse; [done|]. rewrite length_append.
  destruct (framed_length _ Hframed). lia.
Qed.

Lemma remove_segments (jpeg : string) (segs : list string) :
  Piexif.splitIntoSegments jpeg = Some segs →
  Piexif.remove jpeg = Some (Piexif.SOI +:+ String.concat "" (without_exif segs)).
Proof. unfold Piexif.remove. by intros ->. Qed.

(** C8.  The library's [remove] being the one of the container model, and
    the file being readable and writable and holding a JPEG that parses:
    erase returns [true]; when the JPEG holds no EXIF segment the file system
    is then as it was.  When every segment of the JPEG has its marker and its
    length field, a second erase returns [true] as well and leaves the file
    system as the first left it, and the file then parses into the segments
    of the original that are not EXIF segments, each byte for byte and in
    order, with the same start-of-scan segment: the compressed image. *)
Theorem jpeg_erase_twice (lib : Libraries) (fs : Fs.fsys) (filePath jpeg : string)
    (segs : list string) :
  (∀ data, piexif_remove lib data = Piexif.remove data) →
  Fs.files fs !! filePath = Some jpeg →
  filePath ∉ Fs.locked fs →
  Piexif.splitIntoSegments jpeg = Some segs →
  let first := JpegProcessor.eraseExifFromFile lib fs filePath in
  let second := JpegProcessor.eraseExifFromFile lib first.1 filePath in
  first.2 = true ∧
  (Forall (fun seg => Piexif.is_exif_segment seg = false) segs → first.1 = fs) ∧
  (Forall (fun seg => (4 ≤ String.length seg)%nat) segs →
     second.2 = true ∧
     second.1 = first.1 ∧
     ∃ erased,
       Fs.files second.1 !! filePath = Some erased ∧
       Piexif.splitIntoSegments erased = Some (without_exif segs) ∧
       Piexif.scan erased = Piexif.scan jpeg).
Proof.
  intros Hlib Hread Hfree Hsegs first second. subst second first.
  set (jpeg' := Piexif.SOI +:+ String.concat "" (without_exif segs)).
  assert (Hrm : piexif_remove lib jpeg = Some jpeg')
    by (rewrite Hlib; by apply remove_segments).
  rewrite (jpeg_erase_once lib fs filePath jpeg jpeg' Hread Hfree Hrm). cbn [fst snd].
  split; [done|]. split.
  - intros Hnone. apply fsys_write_same. rewrite Hread. f_equal.
    unfold jpeg'. rewrite (without_exif_none _ Hnone).
    by apply splitIntoSegments_concat.
  - intros Hfour.
    assert (Hframed : framed segs = true).
    { revert Hsegs. unfold Piexif.splitIntoSegments.
      destruct (JS.starts_with Piexif.SOI jpeg); [|done].
      intros H. exact (segments_framed _ _ _ H Hfour). }
    destruct (framed_without_exif _ Hframed) as [Hkept Hlast].
    pose proof (splitIntoSegments_framed _ Hkept) as Hsegs'. fold jpeg' in Hsegs'.
    set (fs1 := {| Fs.files := <[filePath := jpeg']> (Fs.files fs);
                   Fs.locked := Fs.locked fs |}).
    assert (Hread1 : Fs.files fs1 !! filePath = Some jpeg') by apply lookup_insert_eq.
    assert (Hrm' : piexif_remove lib jpeg' = Some jpeg').
    { rewrite Hlib, (remove_segments _ _ Hsegs'). by rewrite without_exif_twice. }
    rewrite (jpeg_erase_once lib fs1 filePath jpeg' jpeg' Hread1 Hfree Hrm'). cbn [fst snd].
    rewrite (fsys_write_same fs1 filePath jpeg' Hread1).
    split; [done|]. split; [done|]. exists jpeg'. split; [exact Hread1|]. split; [exact Hsegs'|].
    unfold Piexif.scan. by rewrite Hsegs', Hsegs.
Qed.

(** C8 on the sample disk.  [a.jpg] holds an EXIF segment and a scan;
    [b.jpg] holds the scan alone. *)
Lemma jpeg_erase_twice_example :
  let first := JpegProcessor.eraseExifFromFile Sample.lib Sample.disk "/photos/a.jpg" in
  let second := JpegProcessor.eraseExifFromFile Sample.lib first.1 "/photos/a.jpg" in
  let plain := JpegProcessor.eraseExifFromFile Sample.lib Sample.disk "/photos/b.jpg" in
  Piexif.splitIntoSegments Sample.jpeg_with_exif
  = Some [Piexif.bytes [255; 225; 0; 10; 69; 120; 105; 102; 0; 0; 1; 2];
          Piexif.bytes [255; 218; 0; 2; 7; 7; 7; 255; 217]] ∧
  first.2 = true ∧ second.2 = true ∧ second.1 = first.1 ∧
  Fs.files second.1 !! "/photos/a.jpg" = Some Sample.jpeg_plain ∧
  Piexif.scan Sample.jpeg_plain = Piexif.scan Sample.jpeg_with_exif ∧
  plain = (Sample.disk, true).
Proof.
  intros first second plain.
  destruct (jpeg_erase_twice Sample.lib Sample.disk "/photos/a.jpg" Sample.jpeg_with_exif
              [Piexif.bytes [255; 225; 0; 10; 69; 120; 105; 102; 0; 0; 1; 2];
               Piexif.bytes [255; 218; 0; 2; 7; 7; 7; 255; 217]])
    as (Hfirst & _ & Htwice).
  { reflexivity. }
  { vm_compute. reflexivity. }
  { vm_compute. discriminate. }
  { vm_compute. reflexivity. }
  destruct Htwice as (Hsecond & Hsame & erased & Herased & Hparse & Hscan).
  { repeat constructor; cbn; lia. }
  destruct (jpeg_erase_twice Sample.lib Sample.disk "/photos/b.jpg" Sample.jpeg_plain
              [Piexif.bytes [255; 218; 0; 2; 7; 7; 7; 255; 217]])
    as (Hplain & Hkept & _).
  { reflexivity. }
  { vm_compute. reflexivity. }
  { vm_compute. discriminate. }
  { vm_compute. reflexivity. }
  split; [vm_compute; reflexivity|].
  split; [exact Hfirst|]. split; [exact Hsecond|]. split; [exact Hsame|].
  split; [vm_compute; reflexivity|]. split; [vm_compute; reflexivity|].
  specialize (Hkept ltac:(repeat constructor)).
  subst plain. destruct (JpegProcessor.eraseExifFromFile Sample.lib Sample.disk "/photos/b.jpg").
  cbn in *. by subst.
Defined.

Example jpeg_erase_without_exif :
  JpegProcessor.eraseExifFromFile Sample.lib Sample.disk "/photos/b.jpg" = (Sample.disk, true).
Proof. vm_compute. reflexivity. Qed.

(** ** Reading the tag store after a write *)

Lemma tag_of_assign (exifObj : Tags.exif) (ifd : string) (tag : Z) (v : JS.value)
    (i : string) (t : Z) :
  Tags.tag_of (Tags.assign exifObj ifd tag v) i t
  = if decide (ifd = i ∧ tag = t) then Some v else Tags.tag_of exifObj i t.
Proof.
  unfold Tags.tag_of, Tags.assign. cbn.
  destruct (decide (ifd = i)) as [->|Hi].
  - rewrite lookup_insert_eq. cbn. destruct (decide (tag = t)) as [->|Ht].
    + rewrite lookup_insert_eq. by rewrite decide_True.
    + rewrite lookup_insert_ne by done. rewrite decide_False by (by intros [_ ?]).
      by destruct (Tags.ifds exifObj !! i).
  - rewrite lookup_insert_ne by done. by rewrite decide_False by (by intros [? _]).
Qed.

Lemma tag_of_setExifValue (exifObj : Tags.exif) (k : Tags.configKey) (v : JS.value)
    (i : string) (t : Z) :
  Tags.tag_of (Tags.setExifValue exifObj k v) i t
  = if stored v && bool_decide (Tags.EXIF_TAGS k = (i, t)) then Some v
    else Tags.tag_of exifObj i t.
Proof.
  unfold Tags.setExifValue, stored.
  destruct (JS.truthy v); cbn; [|done].
  destruct (JS.blank_string v); cbn; [done|].
  destruct (Tags.EXIF_TAGS k) as [ifd tag].
  rewrite tag_of_assign.
  assert (Hsame : Tags.tag_of
            match Tags.ifds exifObj !! ifd with
            | Some _ => exifObj
            | None => {| Tags.ifds := <[ifd := ∅]> (Tags.ifds exifObj);
                         Tags.thumbnail := Tags.thumbnail exifObj |}
            end i t = Tags.tag_of exifObj i t).
  { destruct (Tags.ifds exifObj !! ifd) eqn:Hb; [done|].
    unfold Tags.tag_of. cbn. destruct (decide (ifd = i)) as [->|Hi].
    - by rewrite lookup_insert_eq, Hb.
    - by rewrite lookup_insert_ne. }
  rewrite Hsame.
  destruct (decide (ifd = i ∧ tag = t)) as [[-> ->]|Hne].
  - by rewrite bool_decide_eq_true_2.
  - rewrite bool_decide_eq_false_2; [done|]. intros [= -> ->]. by apply Hne.
Qed.

Lemma tag_of_clean (i : string) (t : Z) :
  Tags.tag_of Tags.createCleanExifObject i t = None.
Proof.
  unfold Tags.tag_of, Tags.createCleanExifObject. cbn.
  rewrite !lookup_insert. repeat case_decide; by rewrite ?lookup_empty.
Qed.

Lemma elem_of_fields (exifObj : Tags.exif) (i : string) (t : Z) :
  (i, t) ∈ Tags.fields exifObj ↔ is_Some (Tags.tag_of exifObj i t).
Proof.
  unfold Tags.fields, Tags.tag_of. rewrite elem_of_list_to_set, list_elem_of_bind. split.
  - intros ([i' b] & Hin & Hb). apply elem_of_map_to_list in Hb.
    apply list_elem_of_fmap in Hin as (t' & [= -> ->] & Ht).
    apply elem_of_elements, elem_of_dom in Ht. cbn in *. by rewrite Hb.
  - intros [v Hv]. destruct (Tags.ifds exifObj !! i) as [b|] eqn:Hb; [|done].
    exists (i, b). split.
    + apply list_elem_of_fmap. exists t. split; [done|].
      apply elem_of_elements, elem_of_dom. cbn. by exists v.
    + by apply elem_of_map_to_list.
Qed.

Lemma stored_absent (v : JS.value) : absent v → stored v = false.
Proof.
  intros [-> | [-> | (s & -> & Hs)]]; [done|done|].
  unfold stored. cbn. rewrite Hs. cbn. by rewrite andb_false_r.
Qed.

Lemma stored_string (s : string) : stored (JS.Str s) = true → JS.trim s ≠ "".
Proof.
  unfold stored. cbn. intros [_ Hb]%andb_true_iff Hs. by rewrite Hs in Hb.
Qed.



(** ** Field sets of the JPEG serialisation tiers *)

Lemma tag_of_if (c : bool) (a b : Tags.exif) (i : string) (t : Z) :
  Tags.tag_of (if c then a else b) i t
  = if c then Tags.tag_of a i t else Tags.tag_of b i t.
Proof. by destruct c. Qed.

Lemma is_Some_if {A : Type} (c : bool) (v : A) (o : option A) :
  is_Some (if c then Some v else o) ↔ c = true ∨ is_Some o.
Proof.
  destruct c; split; intros H; eauto.
  destruct H as [H|H]; [discriminate|exact H].
Qed.

Lemma is_Some_if_decide {A : Type} (P : Prop) `{Decision P} (v : A) (o : option A) :
  is_Some (if decide P then Some v else o) ↔ P ∨ is_Some o.
Proof.
  destruct (decide P); split; intros H'; eauto.
  destruct H' as [H'|H']; [contradiction|exact H'].
Qed.

Lemma is_Some_None_False {A : Type} : is_Some (@None A) ↔ False.
Proof. split; [intros [? [=]]|contradiction]. Qed.

Ltac tag_numbers :=
  cbv [Tags.EXIF_TAGS Tags.ImageIFD_Make Tags.ImageIFD_Model Tags.ImageIFD_Artist
       Tags.ExifIFD_FNumber Tags.ExifIFD_ISOSpeedRatings Tags.ExifIFD_ISOSpeed
       Tags.ExifIFD_FocalLength Tags.ExifIFD_LensMake Tags.ExifIFD_LensModel] in *.

(** The populate step, unfolded on a selection with all its parts. *)
Lemma setAllExifValues_selection_of (lib : Libraries) (exifObj : Tags.exif)
    (cam : Models.Camera) (l : Models.Lens) (f : Models.Film) (shot ph : JS.value) :
  JpegProcessor.setAllExifValues lib exifObj (selection_of cam l f shot ph)
  = Ok (let e := Tags.setExifValue exifObj Tags.cameraMaker (Models.cam_maker cam) in
        let e := Tags.setExifValue e Tags.cameraModel (Models.cam_model cam) in
        let e := Tags.setExifValue e Tags.photographer ph in
        let e := Tags.setExifValue e Tags.filmISO (JS.Arr [Models.iso f]) in
        let e := if JpegProcessor.shot_differs (selection_of cam l f shot ph) f
                 then Tags.setExifValue e Tags.shotISO shot else e in
        let e := Tags.setExifValue e Tags.lensMaker (Models.lens_maker l) in
        let e := Tags.setExifValue e Tags.lensModel
                   (JS.Str (Models.getLensModelWithAperture l)) in
        let e := if JS.truthy (Models.focalLength l)
                 then Tags.setExifValue e Tags.focalLength
                        (JS.Arr [JS.parseInt (Models.focalLength l); JS.Num (JS.Int 1)])
                 else e in
        if JS.truthy (Models.aperture l)
        then Tags.setExifValue e Tags.fNumber
               (JS.Arr [round_tenths lib (Models.aperture l); JS.Num (JS.Int 10)])
        else e).
Proof. reflexivity. Qed.

Lemma is_Some_setExifValue (e : Tags.exif) (k : Tags.configKey) (v : JS.value)
    (i : string) (t : Z) :
  is_Some (Tags.tag_of (Tags.setExifValue e k v) i t)
  ↔ (stored v = true ∧ Tags.EXIF_TAGS k = (i, t)) ∨ is_Some (Tags.tag_of e i t).
Proof. by rewrite tag_of_setExifValue, is_Some_if, andb_true_iff, bool_decide_eq_true. Qed.

Lemma is_Some_when_setExifValue (c : bool) (e : Tags.exif) (k : Tags.configKey)
    (v : JS.value) (i : string) (t : Z) :
  is_Some (Tags.tag_of (if c then Tags.setExifValue e k v else e) i t)
  ↔ (c = true ∧ stored v = true ∧ Tags.EXIF_TAGS k = (i, t)) ∨ is_Some (Tags.tag_of e i t).
Proof. destruct c; [rewrite is_Some_setExifValue|]; intuition congruence. Qed.

Lemma is_Some_assign (e : Tags.exif) (ifd : string) (tag : Z) (v : JS.value)
    (i : string) (t : Z) :
  is_Some (Tags.tag_of (Tags.assign e ifd tag v) i t)
  ↔ (ifd, tag) = (i, t) ∨ is_Some (Tags.tag_of e i t).
Proof.
  rewrite tag_of_assign, is_Some_if_decide. split; (intros [H|H]; [left|by right]).
  - by destruct H as [-> ->].
  - by injection H.
Qed.

Lemma is_Some_when_assign (c : bool) (e : Tags.exif) (ifd : string) (tag : Z)
    (v : JS.value) (i : string) (t : Z) :
  is_Some (Tags.tag_of (if c then Tags.assign e ifd tag v else e) i t)
  ↔ (c = true ∧ (ifd, tag) = (i, t)) ∨ is_Some (Tags.tag_of e i t).
Proof. destruct c; [rewrite is_Some_assign|]; intuition congruence. Qed.

Lemma is_Some_clean (i : string) (t : Z) :
  is_Some (Tags.tag_of Tags.createCleanExifObject i t) ↔ False.
Proof. rewrite tag_of_clean. apply is_Some_None_False. Qed.

(** Turn "the slot is set" into the disjunction of the writes that set it. *)
Ltac membership :=
  cbv beta iota zeta;
  repeat first [ rewrite is_Some_when_setExifValue | rewrite is_Some_setExifValue
               | rewrite is_Some_when_assign | rewrite is_Some_assign
               | rewrite is_Some_clean ];
  tag_numbers.

Lemma full_fields (lib : Libraries) (cam : Models.Camera) (l : Models.Lens)
    (f : Models.Film) (shot ph : JS.value) (full : Tags.exif) (i : string) (t : Z) :
  JpegProcessor.setAllExifValues lib Tags.createCleanExifObject
    (selection_of cam l f shot ph) = Ok full →
  is_Some (Tags.tag_of full i t) ↔
    (("0th", Tags.ImageIFD_Make) = (i, t) ∧ stored (Models.cam_maker cam) = true) ∨
    (("0th", Tags.ImageIFD_Model) = (i, t) ∧ stored (Models.cam_model cam) = true) ∨
    (("0th", Tags.ImageIFD_Artist) = (i, t) ∧ stored ph = true) ∨
    ("Exif", Tags.ExifIFD_ISOSpeedRatings) = (i, t) ∨
    (("Exif", Tags.ExifIFD_ISOSpeed) = (i, t) ∧
       JpegProcessor.shot_differs (selection_of cam l f shot ph) f = true ∧
       stored shot = true) ∨
    (("Exif", Tags.ExifIFD_LensMake) = (i, t) ∧ stored (Models.lens_maker l) = true) ∨
    (("Exif", Tags.ExifIFD_LensModel) = (i, t) ∧
       stored (JS.Str (Models.getLensModelWithAperture l)) = true) ∨
    (("Exif", Tags.ExifIFD_FocalLength) = (i, t) ∧ JS.truthy (Models.focalLength l) = true) ∨
    (("Exif", Tags.ExifIFD_FNumber) = (i, t) ∧ JS.truthy (Models.aperture l) = true).
Proof.
  rewrite setAllExifValues_selection_of. intros [= <-].
  membership. change (stored (JS.Arr ?x)) with true. tauto.
Qed.

Lemma basic_fields (cam : Models.Camera) (l : Models.Lens) (f : Models.Film)
    (shot ph : JS.value) (basic : Tags.exif) (i : string) (t : Z) :
  JpegProcessor.basicExifObj (selection_of cam l f shot ph) = Ok basic →
  is_Some (Tags.tag_of basic i t) ↔
    (("0th", Tags.ImageIFD_Make) = (i, t) ∧ JS.truthy (Models.cam_maker cam) = true) ∨
    (("0th", Tags.ImageIFD_Model) = (i, t) ∧ JS.truthy (Models.cam_model cam) = true) ∨
    (("0th", Tags.ImageIFD_Artist) = (i, t) ∧ JS.truthy ph = true) ∨
    (("Exif", Tags.ExifIFD_ISOSpeedRatings) = (i, t) ∧ JS.truthy (Models.iso f) = true) ∨
    (("Exif", Tags.ExifIFD_ISOSpeed) = (i, t) ∧
       JpegProcessor.shot_differs (selection_of cam l f shot ph) f = true).
Proof.
  intros [= <-]. cbn [Models.photographer Models.shotISO selection_of].
  membership. tauto.
Qed.

Lemma minimal_fields (cam : Models.Camera) (l : Models.Lens) (f : Models.Film)
    (shot ph : JS.value) (minimal : Tags.exif) (i : string) (t : Z) :
  JpegProcessor.minimalExifObj (selection_of cam l f shot ph) = Ok minimal →
  is_Some (Tags.tag_of minimal i t) ↔
    ("0th", Tags.ImageIFD_Make) = (i, t) ∨
    ("0th", Tags.ImageIFD_Model) = (i, t) ∨
    ("0th", Tags.ImageIFD_Artist) = (i, t) ∨
    ("Exif", Tags.ExifIFD_ISOSpeedRatings) = (i, t) ∨
    (("Exif", Tags.ExifIFD_ISOSpeed) = (i, t) ∧
       JpegProcessor.shot_differs (selection_of cam l f shot ph) f = true ∧
       JS.typeof shot = "number").
Proof.
  intros [= <-]. cbn [Models.photographer Models.shotISO selection_of].
  set (base := {| Tags.ifds := _; Tags.thumbnail := JS.Null |}).
  assert (Hbase : base =
    Tags.assign (Tags.assign (Tags.assign (Tags.assign Tags.createCleanExifObject
      "Exif" Tags.ExifIFD_ISOSpeedRatings (JS.Arr [Models.iso f]))
      "0th" Tags.ImageIFD_Artist (JS.or_else ph (JS.Str "Unknown")))
      "0th" Tags.ImageIFD_Model (JS.or_else (Models.cam_model cam) (JS.Str "Unknown")))
      "0th" Tags.ImageIFD_Make (JS.or_else (Models.cam_maker cam) (JS.Str "Unknown"))).
  { subst base. reflexivity. }
  rewrite Hbase. clear Hbase base.
  membership. rewrite andb_true_iff, String.eqb_eq. tauto.
Qed.

Lemma complete_selection_of (sel : Models.Selection) :
  complete (Some sel) ↔
  ∃ cam l f, sel = selection_of cam l f (Models.shotISO sel) (Models.photographer sel).
Proof.
  split.
  - intros (? & s & cam & l & f & [= <-] & Hs & Hc & Hl & Hf).
    exists cam, l, f. destruct sel as [? ? ? ?], s as [? ?]. cbn in *. by subst.
  - intros (cam & l & f & ->). by eexists _, _, cam, l, f.
Qed.

(** C4, as amended.  For a selection with a camera, a lens and a film, the
    three tiers build their objects; [full] is the populate step on a clean
    object.  Basic's fields lie within full's when none of camera maker,
    camera model, photographer and shot ISO is a string of white space, and
    strictly so when the lens maker is stored.  Minimal always carries
    Make, Model, Artist and ISOSpeedRatings: its fields lie within basic's
    exactly when maker, model, photographer and film ISO are all truthy, and
    they contain basic's whenever the shot ISO is falsy or a number, so that
    minimal is then never a strict subset of basic. *)
Theorem fallback_tiers_field_sets (lib : Libraries) (cam : Models.Camera)
    (l : Models.Lens) (f : Models.Film) (shot ph : JS.value) :
  ∃ full basic minimal,
    JpegProcessor.setAllExifValues lib Tags.createCleanExifObject
      (selection_of cam l f shot ph) = Ok full ∧
    JpegProcessor.basicExifObj (selection_of cam l f shot ph) = Ok basic ∧
    JpegProcessor.minimalExifObj (selection_of cam l f shot ph) = Ok minimal ∧
    (JS.blank_string (Models.cam_maker cam) = false ∧
     JS.blank_string (Models.cam_model cam) = false ∧
     JS.blank_string ph = false ∧ JS.blank_string shot = false →
       Tags.fields basic ⊆ Tags.fields full ∧
       (stored (Models.lens_maker l) = true → Tags.fields basic ⊂ Tags.fields full)) ∧
    (Tags.fields minimal ⊆ Tags.fields basic ↔
       JS.truthy (Models.cam_maker cam) = true ∧ JS.truthy (Models.cam_model cam) = true ∧
       JS.truthy ph = true ∧ JS.truthy (Models.iso f) = true) ∧
    (JS.truthy shot = false ∨ JS.typeof shot = "number" →
       Tags.fields basic ⊆ Tags.fields minimal ∧ ¬ (Tags.fields minimal ⊂ Tags.fields basic)).
Proof.
  assert (∃ full, JpegProcessor.setAllExifValues lib Tags.createCleanExifObject
            (selection_of cam l f shot ph) = Ok full) as [full Hfull0]
    by (eexists; reflexivity).
  assert (∃ basic, JpegProcessor.basicExifObj (selection_of cam l f shot ph) = Ok basic)
    as [basic Hbasic0] by (eexists; reflexivity).
  assert (∃ minimal, JpegProcessor.minimalExifObj (selection_of cam l f shot ph)
            = Ok minimal) as [minimal Hminimal0] by (eexists; reflexivity).
  exists full, basic, minimal.
  split; [exact Hfull0|]. split; [exact Hbasic0|]. split; [exact Hminimal0|].
  assert (Hfull := fun i t => full_fields lib cam l f shot ph full i t Hfull0).
  assert (Hbasic := fun i t => basic_fields cam l f shot ph basic i t Hbasic0).
  assert (Hminimal := fun i t => minimal_fields cam l f shot ph minimal i t Hminimal0).
  clear Hfull0 Hbasic0 Hminimal0.
  assert (Hin : ∀ (e : Tags.exif) (x : string * Z),
            x ∈ Tags.fields e ↔ is_Some (Tags.tag_of e x.1 x.2)).
  { intros e [i t]. apply elem_of_fields. }
  tag_numbers.
  split; [|split].
  - intros (Hmaker & Hmodel & Hph & Hshot).
    assert (Hsub : Tags.fields basic ⊆ Tags.fields full).
    { intros [i t]. rewrite !Hin, Hbasic, Hfull. cbn [fst snd]. unfold stored.
      rewrite Hmaker, Hmodel, Hph, Hshot, !andb_true_r.
      unfold JpegProcessor.shot_differs. cbn [Models.shotISO selection_of].
      rewrite andb_true_iff. clear. tauto. }
    split; [exact Hsub|]. intros Hlens. split; [exact Hsub|].
    intros Hback. specialize (Hback ("Exif", 42035)).
    rewrite !Hin, Hbasic, Hfull in Hback. cbn [fst snd] in Hback.
    clear -Hback Hlens.
    assert (Hthere : ("Exif", 42035) = ("Exif", 42035) ∧ stored (Models.lens_maker l) = true)
      by done.
    assert (Hin : ("0th", 271) = ("Exif", 42035) ∧ JS.truthy (Models.cam_maker cam) = true
      ∨ ("0th", 272) = ("Exif", 42035) ∧ JS.truthy (Models.cam_model cam) = true
      ∨ ("0th", 315) = ("Exif", 42035) ∧ JS.truthy ph = true
      ∨ ("Exif", 34855) = ("Exif", 42035) ∧ JS.truthy (Models.iso f) = true
      ∨ ("Exif", 34867) = ("Exif", 42035)
        ∧ JpegProcessor.shot_differs (selection_of cam l f shot ph) f = true)
      by (apply Hback; tauto).
    decompose [or and] Hin; simplify_eq.
  - split.
    + intros Hsub.
      pose proof (Hsub ("0th", 271)) as H1. pose proof (Hsub ("0th", 272)) as H2.
      pose proof (Hsub ("0th", 315)) as H3. pose proof (Hsub ("Exif", 34855)) as H4.
      rewrite !Hin, Hminimal, Hbasic in H1, H2, H3, H4. cbn [fst snd] in *.
      clear -H1 H2 H3 H4.
      repeat split.
      * destruct H1 as [H|H]; [by left| |]; decompose [or and] H; simplify_eq; done.
      * destruct H2 as [H|H]; [by right; left| |]; decompose [or and] H; simplify_eq; done.
      * destruct H3 as [H|H]; [by do 2 right; left| |];
          decompose [or and] H; simplify_eq; done.
      * destruct H4 as [H|H]; [by do 3 right; left| |];
          decompose [or and] H; simplify_eq; done.
    + intros (Hmaker & Hmodel & Hph & Hiso) [i t].
      rewrite !Hin, Hminimal, Hbasic. cbn [fst snd]. clear -Hmaker Hmodel Hph Hiso. tauto.
  - intros Hshot.
    assert (Hsub : Tags.fields basic ⊆ Tags.fields minimal).
    { intros [i t]. rewrite !Hin, Hminimal, Hbasic. cbn [fst snd].
      assert (Hnum : JpegProcessor.shot_differs (selection_of cam l f shot ph) f = true →
              JS.typeof shot = "number").
      { unfold JpegProcessor.shot_differs. cbn [Models.shotISO selection_of].
        destruct Hshot as [-> | Hn]; [done|]. by intros _. }
      clear -Hnum. tauto. }
    split; [exact Hsub|]. intros [_ Hstrict]. by apply Hstrict.
Qed.

(** C4, the claim as stated fails: without a photographer the minimal tier
    writes the Artist placeholder and the basic tier writes no Artist; and
    with every value present the minimal tier writes the very fields of the
    basic tier, not fewer. *)
Lemma minimal_tier_writes_artist_placeholder :
  ∃ basic minimal basic' minimal',
    JpegProcessor.basicExifObj Sample.anonymous = Ok basic ∧
    JpegProcessor.minimalExifObj Sample.anonymous = Ok minimal ∧
    Tags.tag_of minimal "0th" Tags.ImageIFD_Artist = Some (JS.Str "Unknown") ∧
    Tags.tag_of basic "0th" Tags.ImageIFD_Artist = None ∧
    ("0th", Tags.ImageIFD_Artist) ∈ Tags.fields minimal ∧
    (("0th", Tags.ImageIFD_Artist) ∉ Tags.fields basic) ∧
    JpegProcessor.basicExifObj Sample.selection = Ok basic' ∧
    JpegProcessor.minimalExifObj Sample.selection = Ok minimal' ∧
    elements (Tags.fields minimal') = elements (Tags.fields basic').
Proof.
  eexists _, _, _, _.
  split; [reflexivity|]. split; [reflexivity|].
  split; [vm_compute; reflexivity|]. split; [vm_compute; reflexivity|].
  split; [apply elem_of_fields; vm_compute; eauto|].
  split; [rewrite elem_of_fields; vm_compute; by intros [? ?]|].
  split; [reflexivity|]. split; [reflexivity|].
  vm_compute. reflexivity.
Qed.

(** ** What the populate step leaves alone *)

Lemma shot_differs_false (cam : Models.Camera) (l : Models.Lens) (f : Models.Film)
    (shot ph : JS.value) :
  JS.truthy shot = false ∨ JS.strict_eq shot (Models.iso f) = true →
  JpegProcessor.shot_differs (selection_of cam l f shot ph) f = false.
Proof.
  unfold JpegProcessor.shot_differs. cbn. intros [-> | ->]; [done|].
  by rewrite andb_false_r.
Qed.

Lemma no_blank_setExifValue (e0 e : Tags.exif) (k : Tags.configKey) (v : JS.value) :
  no_blank_since e0 e → no_blank_since e0 (Tags.setExifValue e k v).
Proof.
  intros He i t s. rewrite tag_of_setExifValue.
  destruct (stored v && bool_decide (Tags.EXIF_TAGS k = (i, t))) eqn:Hw; [|apply He].
  intros [= ->]. left. apply stored_string. by apply andb_true_iff in Hw as [? _].
Qed.

Lemma no_blank_if (e0 : Tags.exif) (c : bool) (a b : Tags.exif) :
  no_blank_since e0 a → no_blank_since e0 b → no_blank_since e0 (if c then a else b).
Proof. by destruct c. Qed.

Lemma same_slot_setExifValue (e0 e : Tags.exif) (k : Tags.configKey) (v : JS.value)
    (i : string) (t : Z) :
  stored v = false ∨ Tags.EXIF_TAGS k ≠ (i, t) →
  Tags.tag_of e i t = Tags.tag_of e0 i t →
  Tags.tag_of (Tags.setExifValue e k v) i t = Tags.tag_of e0 i t.
Proof.
  intros Hside He. rewrite tag_of_setExifValue.
  destruct Hside as [-> | Hne]; [done|]. rewrite bool_decide_eq_false_2 by done.
  by rewrite andb_false_r.
Qed.

Lemma same_slot_if (e0 : Tags.exif) (c : bool) (a b : Tags.exif) (i : string) (t : Z) :
  Tags.tag_of a i t = Tags.tag_of e0 i t →
  Tags.tag_of b i t = Tags.tag_of e0 i t →
  Tags.tag_of (if c then a else b) i t = Tags.tag_of e0 i t.
Proof. by destruct c. Qed.

(** Walk down a chain of writes, one obligation per write. *)
Ltac unchanged_slot :=
  cbv beta iota zeta;
  repeat lazymatch goal with
  | |- Tags.tag_of (Tags.setExifValue _ _ _) _ _ = _ =>
      apply same_slot_setExifValue; [first [left; assumption | right; done]|]
  | |- Tags.tag_of (if _ then _ else _) _ _ = _ => apply same_slot_if
  end; reflexivity.

(** C6, as amended.  For a selection with a camera, a lens and a film the
    populate step returns, and in the object it returns: the ISOSpeed slot
    is what it was in the object loaded from the file when the shot ISO is
    falsy or equal to the film ISO; the Make, Model, Artist, LensMake and
    LensModel slots are what they were when the value to write is [null],
    [undefined] or a string of white space; and every string that was not
    already in the loaded object has a character that is not white space. *)
Theorem setAllExifValues_suppresses (lib : Libraries) (exifObj : Tags.exif)
    (cam : Models.Camera) (l : Models.Lens) (f : Models.Film) (shot ph : JS.value) :
  ∃ out,
    JpegProcessor.setAllExifValues lib exifObj (selection_of cam l f shot ph) = Ok out ∧
    (JS.truthy shot = false ∨ JS.strict_eq shot (Models.iso f) = true →
       Tags.tag_of out "Exif" Tags.ExifIFD_ISOSpeed
       = Tags.tag_of exifObj "Exif" Tags.ExifIFD_ISOSpeed) ∧
    (absent (Models.cam_maker cam) →
       Tags.tag_of out "0th" Tags.ImageIFD_Make
       = Tags.tag_of exifObj "0th" Tags.ImageIFD_Make) ∧
    (absent (Models.cam_model cam) →
       Tags.tag_of out "0th" Tags.ImageIFD_Model
       = Tags.tag_of exifObj "0th" Tags.ImageIFD_Model) ∧
    (absent ph →
       Tags.tag_of out "0th" Tags.ImageIFD_Artist
       = Tags.tag_of exifObj "0th" Tags.ImageIFD_Artist) ∧
    (absent (Models.lens_maker l) →
       Tags.tag_of out "Exif" Tags.ExifIFD_LensMake
       = Tags.tag_of exifObj "Exif" Tags.ExifIFD_LensMake) ∧
    (absent (JS.Str (Models.getLensModelWithAperture l)) →
       Tags.tag_of out "Exif" Tags.ExifIFD_LensModel
       = Tags.tag_of exifObj "Exif" Tags.ExifIFD_LensModel) ∧
    (∀ i t s, Tags.tag_of out i t = Some (JS.Str s) →
       JS.trim s ≠ "" ∨ Tags.tag_of exifObj i t = Some (JS.Str s)).
Proof.
  rewrite setAllExifValues_selection_of. eexists. split; [reflexivity|].
  repeat split.
  - intros H%(shot_differs_false cam l f shot ph). rewrite H. unchanged_slot.
  - intros H%stored_absent. unchanged_slot.
  - intros H%stored_absent. unchanged_slot.
  - intros H%stored_absent. unchanged_slot.
  - intros H%stored_absent. unchanged_slot.
  - intros H%stored_absent. unchanged_slot.
  - lazymatch goal with
    | |- ∀ i t s, Tags.tag_of ?o i t = _ → _ => change (no_blank_since exifObj o)
    end.
    cbv zeta.
    repeat lazymatch goal with
    | |- no_blank_since _ (Tags.setExifValue _ _ _) => apply no_blank_setExifValue
    | |- no_blank_since _ (if _ then _ else _) => apply no_blank_if
    end.
    all: intros i t s; auto.
Qed.

(** C6, the claim as stated fails.  A file stamped earlier with a shot ISO
    of 800 keeps that tag when the selection is applied again at box speed;
    and a focal length of two spaces yields a FocalLength entry. *)
Lemma stale_shot_iso_survives_populate :
  ∃ out out',
    JS.strict_eq (Models.shotISO Sample.box_speed) (Models.iso Sample.film) = true ∧
    JpegProcessor.setAllExifValues Sample.lib Sample.stamped Sample.box_speed = Ok out ∧
    Tags.tag_of out "Exif" Tags.ExifIFD_ISOSpeed = Some (JS.Num (JS.Int 800)) ∧
    JpegProcessor.setAllExifValues Sample.lib Tags.createCleanExifObject Sample.blank_focal
      = Ok out' ∧
    Tags.tag_of out' "Exif" Tags.ExifIFD_FocalLength
      = Some (JS.Arr [JS.Num JS.NaN; JS.Num (JS.Int 1)]).
Proof.
  eexists _, _. split; [reflexivity|]. split; [reflexivity|].
  split; [vm_compute; reflexivity|]. split; [reflexivity|].
  vm_compute. reflexivity.
Qed.

(** ** The sidecar document *)

Lemma includes_refl (p : string) : JS.includes p p = true.
Proof.
  destruct p as [|x p]; [done|]. cbn [JS.includes].
  assert (H : ∀ q, JS.starts_with q q = true).
  { induction q as [|y q IH]; [done|]. cbn [JS.starts_with]. by rewrite IH, Ascii.eqb_refl. }
  by rewrite H.
Qed.

Lemma includes_skip (c : ascii) (s p : string) :
  JS.includes s p = true → JS.includes (String c s) p = true.
Proof. intros H. cbn [JS.includes]. rewrite H. apply orb_true_r. Qed.

Lemma includes_after (a s p : string) :
  JS.includes s p = true → JS.includes (a +:+ s) p = true.
Proof.
  intros H. induction a as [|x a IH]; [by rewrite append_nil_l|].
  rewrite append_cons. by apply includes_skip.
Qed.

Lemma starts_with_before (q s rest : string) :
  JS.starts_with q s = true → JS.starts_with q (s +:+ rest) = true.
Proof.
  revert s. induction q as [|x q IH]; intros [|y s']; cbn [JS.starts_with]; try done.
  rewrite append_cons. cbn [JS.starts_with].
  intros [-> ?]%andb_true_iff. cbn [andb]. by apply IH.
Qed.

Lemma includes_before (s rest p : string) :
  JS.includes s p = true → JS.includes (s +:+ rest) p = true.
Proof.
  induction s as [|x s IH].
  - rewrite append_nil_l. cbn [JS.includes]. rewrite orb_false_r.
    destruct p; [by destruct rest|done].
  - rewrite append_cons. cbn [JS.includes]. intros [H|H]%orb_true_iff.
    + apply (starts_with_before p (String x s) rest) in H. rewrite append_cons in H.
      by rewrite H.
    + rewrite (IH H). apply orb_true_r.
Qed.

(** A text that occurs in one line occurs in the joined document. *)
Lemma includes_join (sep : string) (lines : list string) (line p : string) :
  line ∈ lines → JS.includes line p = true → JS.includes (JS.join sep lines) p = true.
Proof.
  intros Hin Hp. induction lines as [|x rest IH]; [by apply elem_of_nil in Hin|].
  apply elem_of_cons in Hin as [<- | Hin].
  - destruct rest; cbn [JS.join]; [done|]. by apply includes_before.
  - specialize (IH Hin). destruct rest as [|y rest]; [by apply elem_of_nil in Hin|].
    cbn [JS.join] in *. by do 2 apply includes_after.
Qed.

Lemma includes_join_at (sep : string) (lines : list string) (n : nat) (line p : string) :
  lines !! n = Some line → JS.includes line p = true →
  JS.includes (JS.join sep lines) p = true.
Proof. intros Hn. apply includes_join. by eapply list_elem_of_lookup_2. Qed.

(** A line that ends in a hole: the document splits around the hole. *)
Lemma join_around (sep a : string) (before after : list string) :
  before ≠ [] → after ≠ [] →
  ∃ head tail, ∀ x,
    JS.join sep (before ++ (a +:+ x) :: after) = head +:+ x +:+ tail.
Proof.
  intros Hb Ha. exists (JS.join sep before +:+ sep +:+ a), (sep +:+ JS.join sep after).
  intros x. induction before as [|l1 before IH]; [done|].
  destruct before as [|l2 before].
  - destruct after; [done|]. cbn [app JS.join]. by rewrite !append_assoc.
  - specialize (IH ltac:(done)). cbn [app JS.join] in *. rewrite IH.
    by rewrite !append_assoc.
Qed.

Lemma sidecar_rejects_missing_lens (fs : Fs.fsys) (filePath : string)
    (sel : Models.Selection) :
  (Models.setup sel ≫= Models.lens) = None →
  Sidecar.createSidecarFile fs filePath (Some sel) = (fs, false).
Proof.
  intros Hl. unfold Sidecar.createSidecarFile, Sidecar.generateXmpSidecar. cbn.
  destruct (Models.setup sel) as [s|]; [|done]. cbn in *.
  destruct (Models.camera s); [|done]. cbn. by rewrite Hl.
Qed.

(** C7, as amended.  For a selection with a camera, a lens and a film the
    document always holds the elements of camera maker and model, lens
    maker and model, film ISO and photographer, each around the text of its
    value, whatever the value; the shot ISO enters the document at one place
    only, as the [exif:PhotographicSensitivity] element when it is truthy and
    as nothing otherwise; create writes that document at [path + ".xmp"] and
    returns [true] when the path can be written.  For a selection without a
    lens create returns [false] and the file system stays as it was. *)
Theorem sidecar_create_renders (fs : Fs.fsys) (filePath : string) (cam : Models.Camera)
    (l : Models.Lens) (f : Models.Film) (ph : JS.value) :
  (∃ head tail, ∀ shot,
     Sidecar.generateXmpSidecar (selection_of cam l f shot ph)
     = Ok (head +:+ Sidecar.sensitivity_element shot +:+ tail)) ∧
  (∀ shot, ∃ xmp,
     Sidecar.generateXmpSidecar (selection_of cam l f shot ph) = Ok xmp ∧
     JS.includes xmp
       ("<tiff:Make>" +:+ JS.toString (Models.cam_maker cam) +:+ "</tiff:Make>") = true ∧
     JS.includes xmp
       ("<tiff:Model>" +:+ JS.toString (Models.cam_model cam) +:+ "</tiff:Model>") = true ∧
     JS.includes xmp
       ("<exif:LensMake>" +:+ JS.toString (Models.lens_maker l) +:+ "</exif:LensMake>")
       = true ∧
     JS.includes xmp
       ("<exif:LensModel>" +:+ Models.getLensModelWithAperture l +:+ "</exif:LensModel>")
       = true ∧
     JS.includes xmp ("<rdf:li>" +:+ JS.toString (Models.iso f) +:+ "</rdf:li>") = true ∧
     JS.includes xmp ("<rdf:li>" +:+ JS.toString ph +:+ "</rdf:li>") = true ∧
     (filePath +:+ ".xmp" ∉ Fs.locked fs →
        Sidecar.createSidecarFile fs filePath (Some (selection_of cam l f shot ph))
        = ({| Fs.files := <[filePath +:+ ".xmp" := xmp]> (Fs.files fs);
              Fs.locked := Fs.locked fs |}, true))) ∧
  (∀ sel, (Models.setup sel ≫= Models.lens) = None →
     Sidecar.createSidecarFile fs filePath (Some sel) = (fs, false)).
Proof.
  split; [|split].
  - unfold Sidecar.generateXmpSidecar, Sidecar.xmp_lines. cbn [selection_of Models.setup
      Models.camera Models.lens Models.film Models.shotISO Models.photographer member
      mbind result_bind].
    match goal with
    | |- ∃ head tail, ∀ shot, Ok (JS.join ?sep ?lines) = _ => idtac
    end.
    edestruct (join_around Sidecar.newline "      "
      (firstn 16 (Sidecar.xmp_lines cam l f ph ""))
      (skipn 17 (Sidecar.xmp_lines cam l f ph ""))) as (head & tail & Hsplit);
      [done|done|].
    exists head, tail. intros shot. f_equal. exact (Hsplit _).
  - intros shot.
    assert (Hdoc : Sidecar.generateXmpSidecar (selection_of cam l f shot ph)
      = Ok (JS.join Sidecar.newline
              (Sidecar.xmp_lines cam l f ph (Sidecar.sensitivity_element shot))))
      by reflexivity.
    eexists. split; [exact Hdoc|].
    repeat split.
    1: eapply (includes_join_at _ _ 7%nat); [reflexivity|].
    2: eapply (includes_join_at _ _ 8%nat); [reflexivity|].
    3: eapply (includes_join_at _ _ 9%nat); [reflexivity|].
    4: eapply (includes_join_at _ _ 10%nat); [reflexivity|].
    5: eapply (includes_join_at _ _ 13%nat); [reflexivity|].
    6: eapply (includes_join_at _ _ 19%nat); [reflexivity|].
    1-6: rewrite !append_cons, ?append_nil_l;
      repeat first [ apply includes_refl | apply includes_skip ].
    intros Hfree. unfold Sidecar.createSidecarFile.
    cbn -[Sidecar.generateXmpSidecar Fs.writeFileSync]. rewrite Hdoc.
    cbn -[Fs.writeFileSync]. unfold Fs.writeFileSync. by rewrite decide_False.
  - intros sel. apply sidecar_rejects_missing_lens.
Qed.

(** C7, the claim as stated fails: for a selection without a lens create
    writes nothing and returns [false]; and an absent photographer is
    rendered as the text null inside its element, not left out. *)
Lemma sidecar_needs_lens_and_renders_null :
  Sidecar.createSidecarFile Sample.disk "/photos/e.cr2" (Some Sample.camera_only)
    = (Sample.disk, false) ∧
  ∃ xmp,
    Sidecar.generateXmpSidecar Sample.anonymous = Ok xmp ∧
    JS.includes xmp "<rdf:li>null</rdf:li>" = true.
Proof.
  split; [reflexivity|]. eexists. split; [reflexivity|]. vm_compute. reflexivity.
Qed.

(** * Further properties of the code *)

(** ** File names and extensions *)

Lemma lacks_cons (c x : ascii) (s : string) :
  lacks c (String x s) = negb (Ascii.eqb c x) && lacks c s.
Proof.
  unfold lacks. cbn [JS.includes JS.starts_with]. rewrite andb_true_r.
  by rewrite negb_orb.
Qed.

Lemma split_on_not_nil (sep : ascii) (s : string) : FileTypes.split_on sep s ≠ [].
Proof.
  induction s as [|c s IH]; [done|]. cbn [FileTypes.split_on].
  destruct (Ascii.eqb c sep); [done|]. by destruct (FileTypes.split_on sep s).
Qed.

Lemma split_on_app (sep : ascii) (a b : string) :
  FileTypes.split_on sep (a +:+ String sep b)
  = FileTypes.split_on sep a ++ FileTypes.split_on sep b.
Proof.
  induction a as [|c a IH].
  - rewrite append_nil_l. cbn [FileTypes.split_on]. by rewrite Ascii.eqb_refl.
  - rewrite append_cons. cbn [FileTypes.split_on]. rewrite IH.
    destruct (Ascii.eqb c sep); [done|].
    pose proof (split_on_not_nil sep a) as Hne.
    by destruct (FileTypes.split_on sep a).
Qed.

Lemma split_on_lacks (sep : ascii) (s : string) :
  lacks sep s = true → FileTypes.split_on sep s = [s].
Proof.
  induction s as [|c s IH]; [done|]. rewrite lacks_cons.
  intros [Hc Hs]%andb_true_iff. cbn [FileTypes.split_on].
  rewrite Ascii.eqb_sym. apply negb_true_iff in Hc. rewrite Hc. by rewrite (IH Hs).
Qed.

(** The base name of a path that ends in a slash-free, non-empty name. *)
Lemma basename_join (dir name : string) :
  lacks "/" name = true → name ≠ "" →
  FileTypes.basename (dir +:+ "/" +:+ name) = name.
Proof.
  intros Hname Hne. unfold FileTypes.basename.
  change (dir +:+ "/" +:+ name) with (dir +:+ String "/" name).
  rewrite split_on_app, (split_on_lacks _ _ Hname), List.filter_app. cbn [List.filter].
  destruct (String.eqb_spec name ""); [done|]. cbn [negb].
  apply List.last_last.
Qed.

Lemma basename_plain (name : string) :
  lacks "/" name = true → name ≠ "" → FileTypes.basename name = name.
Proof.
  intros Hname Hne. unfold FileTypes.basename.
  rewrite (split_on_lacks _ _ Hname). cbn [List.filter].
  by destruct (String.eqb_spec name "").
Qed.

Lemma lastIndexOf_from_lacks (c : ascii) (s : string) (i found : Z) :
  lacks c s = true → JS.lastIndexOf_from c s i found = found.
Proof.
  revert i. induction s as [|x s IH]; intros i; [done|]. rewrite lacks_cons.
  intros [Hx Hs]%andb_true_iff. cbn [JS.lastIndexOf_from].
  rewrite Ascii.eqb_sym. apply negb_true_iff in Hx. rewrite Hx. by apply IH.
Qed.

Lemma lastIndexOf_from_last (c : ascii) (a e : string) (i found : Z) :
  lacks c e = true →
  JS.lastIndexOf_from c (a +:+ String c e) i found = i + Z.of_nat (String.length a).
Proof.
  intros He. revert i found. induction a as [|x a IH]; intros i found.
  - rewrite append_nil_l. cbn [JS.lastIndexOf_from String.length].
    rewrite Ascii.eqb_refl, lastIndexOf_from_lacks by done. lia.
  - rewrite append_cons. cbn [JS.lastIndexOf_from String.length]. rewrite IH. lia.
Qed.

Lemma slice_from_after (a : string) (c : ascii) (e : string) :
  JS.slice_from (a +:+ String c e) (Z.of_nat (String.length a) + 1) = e.
Proof.
  unfold JS.slice_from.
  replace (Z.to_nat (Z.of_nat (String.length a) + 1)) with (S (String.length a)) by lia.
  rewrite length_append. cbn [String.length].
  replace (String.length a + S (String.length e) - S (String.length a))%nat
    with (String.length e) by lia.
  induction a as [|x a IH].
  - rewrite append_nil_l. cbn [String.length String.substring]. apply substring_all.
  - rewrite append_cons. cbn [String.length String.substring]. apply IH.
Qed.

(** The extension of [stem.ext]. *)
Lemma extension_of_name (stem ext : string) :
  lacks "." ext = true → ext ≠ "" →
  let fileName := stem +:+ "." +:+ ext in
  (let lastDotIndex := JS.lastIndexOf fileName "." in
   if (lastDotIndex =? -1) || (lastDotIndex =? Z.of_nat (String.length fileName) - 1)
   then ""
   else JS.toLowerCase (JS.slice_from fileName (lastDotIndex + 1)))
  = JS.toLowerCase ext.
Proof.
  intros Hext Hne. cbn zeta. unfold JS.lastIndexOf.
  change (stem +:+ "." +:+ ext) with (stem +:+ String "." ext).
  rewrite lastIndexOf_from_last by done. rewrite Z.add_0_l.
  rewrite slice_from_after, length_append. cbn [String.length].
  destruct ext as [|x ext]; [done|]. cbn [String.length].
  replace (Z.of_nat (String.length stem) =? -1) with false by (symmetry; apply Z.eqb_neq; lia).
  replace (Z.of_nat (String.length stem)
           =? Z.of_nat (String.length stem + S (S (String.length ext))) - 1)
    with false by (symmetry; apply Z.eqb_neq; lia).
  done.
Qed.

Lemma lacks_app (c : ascii) (a b : string) :
  lacks c (a +:+ b) = lacks c a && lacks c b.
Proof.
  induction a as [|x a IH]; [by rewrite append_nil_l|].
  rewrite append_cons, !lacks_cons, IH. by rewrite andb_assoc.
Qed.

(** X1.  The extension is the text after the last dot of the last path
    segment, in lower case. *)
Theorem getFileExtension_of_path (dir stem ext : string) :
  lacks "/" stem = true → lacks "/" ext = true → lacks "." ext = true → ext ≠ "" →
  FileTypes.getFileExtension (dir +:+ "/" +:+ stem +:+ "." +:+ ext) = JS.toLowerCase ext ∧
  FileTypes.getFileExtension (stem +:+ "." +:+ ext) = JS.toLowerCase ext.
Proof.
  intros Hstem Hext Hdot Hne.
  assert (Hname : lacks "/" (stem +:+ "." +:+ ext) = true).
  { rewrite !lacks_app, Hstem, Hext. done. }
  assert (Hne' : stem +:+ "." +:+ ext ≠ "").
  { destruct stem; [rewrite append_nil_l|rewrite append_cons]; done. }
  unfold FileTypes.getFileExtension. split.
  - rewrite (basename_join dir _ Hname Hne'). by apply extension_of_name.
  - rewrite (basename_plain _ Hname Hne'). by apply extension_of_name.
Qed.

Lemma getFileExtension_of_path_example :
  FileTypes.getFileExtension ("/rolls/2024.06" +:+ "/" +:+ "scan.final" +:+ "." +:+ "JPeG")
    = JS.toLowerCase "JPeG" ∧
  FileTypes.getFileExtension ("scan.final" +:+ "." +:+ "JPeG") = JS.toLowerCase "JPeG".
Proof.
  apply (getFileExtension_of_path "/rolls/2024.06" "scan.final" "JPeG"); done.
Defined.

Lemma no_extension_unknown (filePath : string) :
  FileTypes.getFileExtension filePath = "" →
  FileTypes.getFileType filePath = FileTypes.unknown ∧
  FileTypes.isSupportedFile filePath = false.
Proof.
  unfold FileTypes.getFileType, FileTypes.isSupportedFile, FileTypes.isJpegFile,
    FileTypes.isTiffFile, FileTypes.isDngFile, FileTypes.isRawFile.
  by intros ->.
Qed.

(** X2.  A file name without a dot, or with nothing after its last dot, has
    the extension [''], whatever dots the directories above it carry; such a
    file is of type unknown and is not supported. *)
Theorem extensionless_file_is_unsupported (dir name : string) :
  lacks "/" name = true → name ≠ "" →
  (lacks "." name = true →
     FileTypes.getFileExtension (dir +:+ "/" +:+ name) = "" ∧
     FileTypes.getFileType (dir +:+ "/" +:+ name) = FileTypes.unknown ∧
     FileTypes.isSupportedFile (dir +:+ "/" +:+ name) = false) ∧
  (FileTypes.getFileExtension (dir +:+ "/" +:+ name +:+ ".") = "" ∧
   FileTypes.getFileType (dir +:+ "/" +:+ name +:+ ".") = FileTypes.unknown ∧
   FileTypes.isSupportedFile (dir +:+ "/" +:+ name +:+ ".") = false).
Proof.
  intros Hname Hne. split.
  - intros Hdot.
    assert (He : FileTypes.getFileExtension (dir +:+ "/" +:+ name) = "").
    { unfold FileTypes.getFileExtension. rewrite basename_join by done.
      unfold JS.lastIndexOf. by rewrite lastIndexOf_from_lacks. }
    split; [done|]. by apply no_extension_unknown.
  - assert (He : FileTypes.getFileExtension (dir +:+ "/" +:+ name +:+ ".") = "").
    { unfold FileTypes.getFileExtension.
      rewrite basename_join; cycle 1.
      { rewrite lacks_app, Hname. done. }
      { destruct name; [done|]. by rewrite append_cons. }
      unfold JS.lastIndexOf. change (name +:+ ".") with (name +:+ String "." "").
      rewrite lastIndexOf_from_last by done. rewrite length_append. cbn [String.length].
      replace (0 + Z.of_nat (String.length name)
               =? Z.of_nat (String.length name + 1) - 1) with true
        by (symmetry; apply Z.eqb_eq; lia).
      by rewrite orb_true_r. }
    split; [done|]. by apply no_extension_unknown.
Qed.

Lemma extensionless_file_example :
  (lacks "." "README" = true →
     FileTypes.getFileExtension ("/rolls/2024.06" +:+ "/" +:+ "README") = "" ∧
     FileTypes.getFileType ("/rolls/2024.06" +:+ "/" +:+ "README") = FileTypes.unknown ∧
     FileTypes.isSupportedFile ("/rolls/2024.06" +:+ "/" +:+ "README") = false) ∧
  (FileTypes.getFileExtension ("/rolls/2024.06" +:+ "/" +:+ "README" +:+ ".") = "" ∧
   FileTypes.getFileType ("/rolls/2024.06" +:+ "/" +:+ "README" +:+ ".") = FileTypes.unknown ∧
   FileTypes.isSupportedFile ("/rolls/2024.06" +:+ "/" +:+ "README" +:+ ".") = false).
Proof.
  apply (extensionless_file_is_unsupported "/rolls/2024.06" "README"); done.
Defined.
Ltac by_extension ext :=
  repeat match goal with
         | |- context [String.eqb ext ?s] =>
             destruct (String.eqb_spec ext s) as [->|?]; [vm_compute; reflexivity|]
         end.

(** The extension lists of JPEG, TIFF and RAW are disjoint, and DNG is one
    of the RAW extensions. *)
Lemma extension_lists (filePath : string) :
  let j := FileTypes.isJpegFile filePath in
  let t := FileTypes.isTiffFile filePath in
  let d := FileTypes.isDngFile filePath in
  let r := FileTypes.isRawFile filePath in
  negb (j && t) && negb (j && r) && negb (t && r) && implb d r = true.
Proof.
  unfold FileTypes.isJpegFile, FileTypes.isTiffFile, FileTypes.isDngFile, FileTypes.isRawFile.
  generalize (FileTypes.getFileExtension filePath). intros ext.
  unfold FileTypes.array_includes. cbn [existsb].
  by_extension ext. reflexivity.
Qed.

(** X3.  The type agrees with the five predicates, whatever the order of the
    tests in [getFileType]. *)
Theorem getFileType_agrees_with_predicates (filePath : string) :
  (FileTypes.getFileType filePath = FileTypes.jpeg ↔ FileTypes.isJpegFile filePath = true) ∧
  (FileTypes.getFileType filePath = FileTypes.tiff ↔ FileTypes.isTiffFile filePath = true) ∧
  (FileTypes.getFileType filePath = FileTypes.dng ↔ FileTypes.isDngFile filePath = true) ∧
  (FileTypes.getFileType filePath = FileTypes.raw ↔
     FileTypes.isRawFile filePath = true ∧ FileTypes.isDngFile filePath = false) ∧
  (FileTypes.getFileType filePath = FileTypes.unknown ↔
     FileTypes.isSupportedFile filePath = false) ∧
  (FileTypes.isDngFile filePath = true → FileTypes.isRawFile filePath = true).
Proof.
  pose proof (extension_lists filePath) as H. cbn zeta in H.
  unfold FileTypes.getFileType, FileTypes.isSupportedFile.
  destruct (FileTypes.isJpegFile filePath), (FileTypes.isTiffFile filePath),
    (FileTypes.isDngFile filePath), (FileTypes.isRawFile filePath);
    cbn in H; try discriminate H; cbn; intuition congruence.
Qed.

(** ** The tag store as a data structure *)

Lemma setExifValue_not_stored (e : Tags.exif) (k : Tags.configKey) (v : JS.value) :
  stored v = false → Tags.setExifValue e k v = e.
Proof.
  unfold stored, Tags.setExifValue.
  destruct (JS.truthy v), (JS.blank_string v); cbn; done.
Qed.

Lemma setExifValue_stored (e : Tags.exif) (k : Tags.configKey) (v : JS.value) :
  stored v = true →
  Tags.setExifValue e k v = Tags.assign e (Tags.EXIF_TAGS k).1 (Tags.EXIF_TAGS k).2 v.
Proof.
  unfold stored, Tags.setExifValue.
  destruct (JS.truthy v), (JS.blank_string v); cbn; try done. intros _.
  destruct (Tags.EXIF_TAGS k) as [ifd tag]. cbn.
  destruct (Tags.ifds e !! ifd) as [b|] eqn:Hb; [done|].
  unfold Tags.assign. cbn. rewrite lookup_insert_eq, insert_insert_eq, Hb. done.
Qed.

Lemma assign_assign (e : Tags.exif) (i : string) (t : Z) (v w : JS.value) :
  Tags.assign (Tags.assign e i t v) i t w = Tags.assign e i t w.
Proof.
  unfold Tags.assign. cbn. f_equal.
  by rewrite lookup_insert_eq, insert_insert_eq; cbn; rewrite insert_insert_eq.
Qed.

Lemma assign_commute (e : Tags.exif) (i i' : string) (t t' : Z) (v w : JS.value) :
  (i, t) ≠ (i', t') →
  Tags.assign (Tags.assign e i t v) i' t' w = Tags.assign (Tags.assign e i' t' w) i t v.
Proof.
  intros Hne. unfold Tags.assign. cbn. f_equal.
  destruct (decide (i = i')) as [<-|Hi].
  - rewrite !lookup_insert_eq, !insert_insert_eq. cbn. f_equal.
    apply insert_insert_ne. congruence.
  - rewrite !lookup_insert_ne by done. by apply insert_insert_ne.
Qed.

Lemma EXIF_TAGS_inj (k k' : Tags.configKey) :
  Tags.EXIF_TAGS k = Tags.EXIF_TAGS k' → k = k'.
Proof. by destruct k, k'. Qed.

(** X4.  A stored value can be read back under its key's IFD and tag, the
    bucket is created when the object lacks it, and nothing else moves. *)
Theorem setExifValue_writes_one_slot (exifObj : Tags.exif) (k : Tags.configKey)
    (value : JS.value) :
  stored value = true →
  let exifObj' := Tags.setExifValue exifObj k value in
  Tags.tag_of exifObj' (Tags.EXIF_TAGS k).1 (Tags.EXIF_TAGS k).2 = Some value ∧
  is_Some (Tags.ifds exifObj' !! (Tags.EXIF_TAGS k).1) ∧
  (∀ i t, (i, t) ≠ Tags.EXIF_TAGS k → Tags.tag_of exifObj' i t = Tags.tag_of exifObj i t) ∧
  (∀ i, is_Some (Tags.ifds exifObj !! i) → is_Some (Tags.ifds exifObj' !! i)) ∧
  Tags.thumbnail exifObj' = Tags.thumbnail exifObj.
Proof.
  intros Hv. cbn zeta. rewrite (setExifValue_stored _ _ _ Hv).
  destruct (Tags.EXIF_TAGS k) as [ifd tag]. cbn [fst snd].
  split; [|split; [|split; [|split]]].
  - rewrite tag_of_assign. by rewrite decide_True.
  - unfold Tags.assign. cbn. by rewrite lookup_insert_eq.
  - intros i t Hne. rewrite tag_of_assign. rewrite decide_False; [done|].
    intros [-> ->]. by apply Hne.
  - intros i Hi. unfold Tags.assign. cbn. destruct (decide (ifd = i)) as [->|Hne].
    + by rewrite lookup_insert_eq.
    + by rewrite lookup_insert_ne.
  - done.
Qed.

Lemma setExifValue_writes_example :
  let exifObj' := Tags.setExifValue {| Tags.ifds := ∅; Tags.thumbnail := JS.Null |}
                    Tags.lensMaker (JS.Str "Zeiss") in
  Tags.tag_of exifObj' (Tags.EXIF_TAGS Tags.lensMaker).1 (Tags.EXIF_TAGS Tags.lensMaker).2
    = Some (JS.Str "Zeiss") ∧
  is_Some (Tags.ifds exifObj' !! (Tags.EXIF_TAGS Tags.lensMaker).1) ∧
  (∀ i t, (i, t) ≠ Tags.EXIF_TAGS Tags.lensMaker →
     Tags.tag_of exifObj' i t
     = Tags.tag_of {| Tags.ifds := ∅; Tags.thumbnail := JS.Null |} i t) ∧
  (∀ i, is_Some (Tags.ifds {| Tags.ifds := ∅; Tags.thumbnail := JS.Null |} !! i) →
     is_Some (Tags.ifds exifObj' !! i)) ∧
  Tags.thumbnail exifObj' = JS.Null.
Proof.
  apply (setExifValue_writes_one_slot {| Tags.ifds := ∅; Tags.thumbnail := JS.Null |}
           Tags.lensMaker (JS.Str "Zeiss")).
  reflexivity.
Defined.

(** X5.  The last write to a key wins, and writes to different keys
    commute. *)
Theorem setExifValue_last_write_wins (exifObj : Tags.exif) (k k' : Tags.configKey)
    (v w : JS.value) :
  (stored w = true →
     Tags.setExifValue (Tags.setExifValue exifObj k v) k w = Tags.setExifValue exifObj k w) ∧
  (Tags.setExifValue (Tags.setExifValue exifObj k v) k v = Tags.setExifValue exifObj k v) ∧
  (k ≠ k' →
     Tags.setExifValue (Tags.setExifValue exifObj k v) k' w
     = Tags.setExifValue (Tags.setExifValue exifObj k' w) k v).
Proof.
  assert (Hover : ∀ u, stored u = true →
    Tags.setExifValue (Tags.setExifValue exifObj k v) k u = Tags.setExifValue exifObj k u).
  { intros u Hu. destruct (stored v) eqn:Hv.
    - rewrite (setExifValue_stored _ _ v Hv), !(setExifValue_stored _ _ u Hu).
      apply assign_assign.
    - by rewrite (setExifValue_not_stored _ _ v Hv). }
  split; [apply Hover|]. split.
  - destruct (stored v) eqn:Hv; [by apply Hover|].
    by rewrite !(setExifValue_not_stored _ _ v Hv).
  - intros Hk. destruct (stored v) eqn:Hv, (stored w) eqn:Hw.
    + rewrite !(setExifValue_stored _ _ v Hv), !(setExifValue_stored _ _ w Hw).
      apply assign_commute. intros Heq. apply Hk, EXIF_TAGS_inj.
      by destruct (Tags.EXIF_TAGS k), (Tags.EXIF_TAGS k').
    + by rewrite !(setExifValue_not_stored _ _ w Hw).
    + by rewrite !(setExifValue_not_stored _ _ v Hv).
    + by rewrite !(setExifValue_not_stored _ _ w Hw), !(setExifValue_not_stored _ _ v Hv).
Qed.

Lemma same_outside_refl (paths : list string) (fs : Fs.fsys) : same_outside paths fs fs.
Proof. by split. Qed.

Lemma same_outside_mono (paths paths' : list string) (fs fs' : Fs.fsys) :
  paths ⊆ paths' → same_outside paths fs fs' → same_outside paths' fs fs'.
Proof. intros Hsub [Hl Hf]. split; [done|]. intros q Hq. apply Hf.
  intros Hin. by apply Hq, Hsub. Qed.

Lemma same_outside_trans (paths : list string) (fs1 fs2 fs3 : Fs.fsys) :
  same_outside paths fs1 fs2 → same_outside paths fs2 fs3 → same_outside paths fs1 fs3.
Proof.
  intros [Hl Hf] [Hl' Hf']. split; [congruence|]. intros q Hq.
  by rewrite Hf', Hf.
Qed.

Lemma confined_failed (paths : list string) (fs : Fs.fsys) : confined paths fs (fs, false).
Proof. split; [apply same_outside_refl|done]. Qed.

Lemma confined_mono (paths paths' : list string) (fs : Fs.fsys) (r : Fs.fsys * bool) :
  paths ⊆ paths' → confined paths fs r → confined paths' fs r.
Proof. intros Hsub [H1 H2]. split; [by eapply same_outside_mono|done]. Qed.

Lemma writeFileSync_confined (fs : Fs.fsys) (path data : string) :
  confined [path] fs
    match Fs.writeFileSync fs path data with
    | Ok fs' => (fs', true)
    | Throw _ => (fs, false)
    end.
Proof.
  unfold Fs.writeFileSync. destruct (decide (path ∈ Fs.locked fs)).
  - apply confined_failed.
  - split; [|done]. split; [done|]. intros q Hq. cbn.
    apply lookup_insert_ne. intros <-. apply Hq. by left.
Qed.

Lemma createSidecarFile_confined (fs : Fs.fsys) (filePath : string)
    (selection : option Models.Selection) :
  confined [filePath +:+ ".xmp"] fs (Sidecar.createSidecarFile fs filePath selection).
Proof.
  unfold Sidecar.createSidecarFile.
  destruct selection as [sel|]; cbn -[Sidecar.generateXmpSidecar]; [|apply confined_failed].
  destruct (Sidecar.generateXmpSidecar sel) as [xmp|]; cbn -[Fs.writeFileSync];
    [|apply confined_failed].
  apply writeFileSync_confined.
Qed.

Lemma removeSidecarFile_confined (fs : Fs.fsys) (filePath : string) :
  confined [filePath +:+ ".xmp"] fs
    match Sidecar.removeSidecarFile fs filePath with
    | Ok (fs', _) => (fs', true)
    | Throw _ => (fs, false)
    end.
Proof.
  unfold Sidecar.removeSidecarFile.
  destruct (Fs.existsSync fs (filePath +:+ ".xmp")); [|split; [apply same_outside_refl|done]].
  unfold Fs.unlinkSync. destruct (Fs.files fs !! (filePath +:+ ".xmp")); [|apply confined_failed].
  destruct (decide (filePath +:+ ".xmp" ∈ Fs.locked fs)); [apply confined_failed|].
  cbn. split; [|done]. split; [done|]. intros q Hq. cbn.
  apply lookup_delete_ne. intros <-. apply Hq. by left.
Qed.

Lemma jpeg_apply_confined (lib : Libraries) (fs : Fs.fsys) (filePath : string)
    (selection : option Models.Selection) :
  confined [filePath] fs (JpegProcessor.applyExifToFile lib fs filePath selection).
Proof.
  unfold JpegProcessor.applyExifToFile.
  destruct (JpegProcessor.validateSelection selection) as [[]|]; [|apply confined_failed].
  cbn -[Fs.writeFileSync JpegProcessor.setAllExifValues JpegProcessor.createBasicExif].
  destruct selection as [sel|]; [|apply confined_failed].
  cbn -[Fs.writeFileSync JpegProcessor.setAllExifValues JpegProcessor.createBasicExif].
  destruct (Fs.readFileSync fs filePath) as [jpegData|]; [|apply confined_failed].
  cbn -[Fs.writeFileSync JpegProcessor.setAllExifValues JpegProcessor.createBasicExif].
  destruct (JpegProcessor.setAllExifValues lib _ sel) as [exifObj|]; [|apply confined_failed].
  cbn -[Fs.writeFileSync JpegProcessor.setAllExifValues JpegProcessor.createBasicExif].
  destruct (match piexif_dump lib exifObj with
            | Some bytes => Ok bytes
            | None => JpegProcessor.createBasicExif lib sel
            end) as [exifBytes|]; [|apply confined_failed].
  cbn -[Fs.writeFileSync].
  destruct (piexif_insert lib exifBytes jpegData) as [newJpegData|]; [|apply confined_failed].
  cbn -[Fs.writeFileSync]. apply writeFileSync_confined.
Qed.

Lemma jpeg_erase_confined (lib : Libraries) (fs : Fs.fsys) (filePath : string) :
  confined [filePath] fs (JpegProcessor.eraseExifFromFile lib fs filePath).
Proof.
  unfold JpegProcessor.eraseExifFromFile.
  destruct (Fs.readFileSync fs filePath) as [jpegData|]; [|apply confined_failed].
  cbn -[Fs.writeFileSync].
  destruct (piexif_remove lib jpegData) as [newJpegData|]; [|apply confined_failed].
  cbn -[Fs.writeFileSync]. apply writeFileSync_confined.
Qed.

Lemma tiff_apply_confined (lib : Libraries) (fs : Fs.fsys) (filePath : string)
    (selection : option Models.Selection) :
  confined [filePath; filePath +:+ ".xmp"] fs
    (TiffProcessor.applyExifToFile lib fs filePath selection).
Proof.
  assert (Hside : confined [filePath; filePath +:+ ".xmp"] fs
                    (Sidecar.createSidecarFile fs filePath selection)).
  { eapply confined_mono; [|apply createSidecarFile_confined].
    intros q ->%list_elem_of_singleton. right. by left. }
  unfold TiffProcessor.applyExifToFile.
  destruct (TiffProcessor.validateSelection selection) as [[]|]; [|apply confined_failed].
  cbn -[Fs.writeFileSync TiffProcessor.setTiffExifValues Sidecar.createSidecarFile].
  destruct (Fs.readFileSync fs filePath) as [data|]; [|apply confined_failed].
  cbn -[Fs.writeFileSync TiffProcessor.setTiffExifValues Sidecar.createSidecarFile].
  destruct (UTIF_decode lib data) as [[|tiff rest]|]; [apply confined_failed| |done].
  destruct selection as [sel|]; [|done].
  cbn -[Fs.writeFileSync TiffProcessor.setTiffExifValues Sidecar.createSidecarFile].
  destruct (TiffProcessor.setTiffExifValues tiff sel) as [tiff'|]; [|done].
  cbn -[Fs.writeFileSync Sidecar.createSidecarFile].
  destruct (UTIF_encode lib [tiff']) as [newData|]; [|done].
  cbn -[Fs.writeFileSync Sidecar.createSidecarFile].
  pose proof (writeFileSync_confined fs filePath newData) as Hw.
  destruct (Fs.writeFileSync fs filePath newData) as [fs'|]; [|done].
  eapply confined_mono; [|exact Hw]. intros q ->%list_elem_of_singleton. by left.
Qed.

Lemma tiff_erase_confined (lib : Libraries) (fs : Fs.fsys) (filePath : string) :
  confined [filePath] fs (TiffProcessor.eraseExifFromFile lib fs filePath).
Proof.
  unfold TiffProcessor.eraseExifFromFile.
  destruct (Fs.readFileSync fs filePath) as [data|]; [|apply confined_failed].
  cbn -[Fs.writeFileSync fold_left].
  destruct (UTIF_decode lib data) as [[|tiff rest]|]; try apply confined_failed.
  cbn -[Fs.writeFileSync fold_left].
  destruct (UTIF_encode lib _) as [newData|]; [|apply confined_failed].
  cbn -[Fs.writeFileSync]. apply writeFileSync_confined.
Qed.

Lemma raw_apply_confined (lib : Libraries) (fs : Fs.fsys) (filePath : string)
    (selection : option Models.Selection) :
  confined (if FileTypes.isDngFile filePath then [filePath; filePath +:+ ".xmp"]
            else [filePath +:+ ".xmp"]) fs
    (RawProcessor.applyExifToFile lib fs filePath selection).
Proof.
  unfold RawProcessor.applyExifToFile.
  destruct (RawProcessor.validateSelection selection) as [[]|]; [|apply confined_failed].
  cbn -[TiffProcessor.applyExifToFile Sidecar.createSidecarFile FileTypes.isDngFile].
  destruct (FileTypes.isDngFile filePath).
  - apply tiff_apply_confined.
  - apply createSidecarFile_confined.
Qed.

Lemma raw_erase_confined (lib : Libraries) (fs : Fs.fsys) (filePath : string) :
  confined (if FileTypes.isDngFile filePath then [filePath] else [filePath +:+ ".xmp"]) fs
    (RawProcessor.eraseExifFromFile lib fs filePath).
Proof.
  unfold RawProcessor.eraseExifFromFile.
  destruct (FileTypes.isDngFile filePath); [apply tiff_erase_confined|].
  pose proof (removeSidecarFile_confined fs filePath) as H.
  destruct (Sidecar.removeSidecarFile fs filePath) as [[fs' []]|]; done.
Qed.

Lemma getFileType_dng (filePath : string) :
  FileTypes.getFileType filePath = FileTypes.dng → FileTypes.isDngFile filePath = true.
Proof.
  unfold FileTypes.getFileType.
  destruct (FileTypes.isJpegFile filePath); [done|].
  destruct (FileTypes.isTiffFile filePath); [done|].
  destruct (FileTypes.isDngFile filePath); [done|].
  by destruct (FileTypes.isRawFile filePath).
Qed.

Lemma manager_apply_confined (lib : Libraries) (fs : Fs.fsys) (filePath : string)
    (selection : option Models.Selection) :
  confined (targets "apply" filePath) fs
    (ExifManager.applyExifToFile lib fs filePath selection).
Proof.
  unfold ExifManager.applyExifToFile, targets.
  destruct (FileTypes.getFileType filePath) eqn:Htype; cbn [String.eqb].
  - apply jpeg_apply_confined.
  - apply tiff_apply_confined.
  - pose proof (raw_apply_confined lib fs filePath selection) as H.
    by rewrite (getFileType_dng _ Htype) in H.
  - pose proof (raw_apply_confined lib fs filePath selection) as H.
    by rewrite (raw_is_not_dng _ Htype) in H.
  - apply confined_failed.
Qed.

Lemma manager_erase_confined (lib : Libraries) (fs : Fs.fsys) (filePath : string) :
  confined (targets "erase" filePath) fs (ExifManager.eraseExifFromFile lib fs filePath).
Proof.
  unfold ExifManager.eraseExifFromFile, targets.
  destruct (FileTypes.getFileType filePath) eqn:Htype.
  - apply jpeg_erase_confined.
  - apply tiff_erase_confined.
  - pose proof (raw_erase_confined lib fs filePath) as H.
    by rewrite (getFileType_dng _ Htype) in H.
  - pose proof (raw_erase_confined lib fs filePath) as H.
    by rewrite (raw_is_not_dng _ Htype) in H.
  - apply confined_failed.
Qed.

Lemma targets_sub (action filePath : string) :
  targets action filePath ⊆ [filePath; filePath +:+ ".xmp"].
Proof.
  unfold targets. intros q.
  destruct (FileTypes.getFileType filePath); try destruct (String.eqb action "erase");
    rewrite !elem_of_cons, !elem_of_nil; tauto.
Qed.

Lemma path_not_sidecar (filePath : string) : filePath ≠ filePath +:+ ".xmp".
Proof.
  intros H. apply (f_equal String.length) in H. rewrite length_append in H.
  cbn in H. lia.
Qed.

(** X6.  Apply and erase change at most the file and the sidecar beside it,
    never the set of protected paths, and nothing at all when they return
    [false]: no processor writes before its last step. *)
Theorem operations_touch_only_file_and_sidecar (lib : Libraries) (fs : Fs.fsys)
    (filePath : string) (selection : option Models.Selection) :
  let applied := ExifManager.applyExifToFile lib fs filePath selection in
  let erased := ExifManager.eraseExifFromFile lib fs filePath in
  (applied.2 = false → applied.1 = fs) ∧
  (erased.2 = false → erased.1 = fs) ∧
  Fs.locked applied.1 = Fs.locked fs ∧
  Fs.locked erased.1 = Fs.locked fs ∧
  ∀ q, q ≠ filePath → q ≠ filePath +:+ ".xmp" →
    Fs.files applied.1 !! q = Fs.files fs !! q ∧
    Fs.files erased.1 !! q = Fs.files fs !! q.
Proof.
  cbn zeta.
  destruct (manager_apply_confined lib fs filePath selection) as [[Hl Hf] Hfail].
  destruct (manager_erase_confined lib fs filePath) as [[Hl' Hf'] Hfail'].
  do 4 (split; [done|]). intros q Hq Hq'.
  assert (Hout : ∀ action, q ∉ targets action filePath).
  { intros action Hin. apply targets_sub in Hin.
    rewrite !elem_of_cons, elem_of_nil in Hin. tauto. }
  split; [apply Hf|apply Hf']; apply Hout.
Qed.

(** X7.  Which of the two is touched depends on the type.  A JPEG never gets
    or loses a sidecar; a proprietary RAW file is never written, only its
    sidecar is; erasing a TIFF or DNG leaves a sidecar beside it alone; a
    file of unknown type changes nothing. *)
Theorem file_type_decides_what_is_written (lib : Libraries) (fs : Fs.fsys)
    (filePath : string) (selection : option Models.Selection) :
  let applied := ExifManager.applyExifToFile lib fs filePath selection in
  let erased := ExifManager.eraseExifFromFile lib fs filePath in
  let image fs := Fs.files fs !! filePath in
  let sidecar fs := Fs.files fs !! (filePath +:+ ".xmp") in
  match FileTypes.getFileType filePath with
  | FileTypes.jpeg => sidecar applied.1 = sidecar fs ∧ sidecar erased.1 = sidecar fs
  | FileTypes.raw => image applied.1 = image fs ∧ image erased.1 = image fs
  | FileTypes.tiff | FileTypes.dng => sidecar erased.1 = sidecar fs
  | FileTypes.unknown => applied = (fs, false) ∧ erased = (fs, false)
  end.
Proof.
  cbn zeta.
  destruct (manager_apply_confined lib fs filePath selection) as [[_ Hf] _].
  destruct (manager_erase_confined lib fs filePath) as [[_ Hf'] _].
  pose proof (path_not_sidecar filePath) as Hne.
  unfold targets in Hf, Hf'. cbn [String.eqb Ascii.eqb Bool.eqb] in Hf, Hf'.
  destruct (FileTypes.getFileType filePath) eqn:Htype.
  - split; [apply Hf|apply Hf']; rewrite list_elem_of_singleton; congruence.
  - apply Hf'. rewrite list_elem_of_singleton. congruence.
  - apply Hf'. rewrite list_elem_of_singleton. congruence.
  - split; [apply Hf|apply Hf']; rewrite list_elem_of_singleton; congruence.
  - unfold ExifManager.applyExifToFile, ExifManager.eraseExifFromFile. by rewrite Htype.
Qed.

(** ** The batch *)

Lemma processFile_fs (lib : Libraries) (selection : option Models.Selection)
    (action : string) (fs : Fs.fsys) (results : FileCollector.BatchResult)
    (file : FileCollector.collected) :
  (FileCollector.processFile lib selection action fs results file).1
  = if String.eqb action "apply"
    then (ExifManager.applyExifToFile lib fs (FileCollector.path file) selection).1
    else if String.eqb action "erase"
         then (ExifManager.eraseExifFromFile lib fs (FileCollector.path file)).1
         else fs.
Proof.
  unfold FileCollector.processFile.
  destruct (String.eqb action "apply").
  - by destruct (ExifManager.applyExifToFile lib fs _ selection) as [fs' [|]].
  - destruct (String.eqb action "erase"); [|done].
    by destruct (ExifManager.eraseExifFromFile lib fs _) as [fs' [|]].
Qed.

Lemma processFiles_same_outside (lib : Libraries) (selection : option Models.Selection)
    (action : string) (supportedFiles : list FileCollector.collected) :
  ∀ fs results,
    same_outside (batch_paths supportedFiles) fs
      (FileCollector.processFiles lib selection action supportedFiles fs results).1.
Proof.
  induction supportedFiles as [|file rest IH]; intros fs results.
  - apply same_outside_refl.
  - cbn [FileCollector.processFiles].
    pose proof (processFile_fs lib selection action fs results file) as Hone.
    destruct (FileCollector.processFile lib selection action fs results file)
      as [fs1 results1].
    cbn [fst] in Hone.
    apply (same_outside_trans _ fs fs1).
    + apply (same_outside_mono [FileCollector.path file; FileCollector.path file +:+ ".xmp"]).
      { intros q Hq. unfold batch_paths. rewrite bind_cons. apply elem_of_app. by left. }
      rewrite Hone.
      destruct (String.eqb action "apply").
      { eapply same_outside_mono; [apply targets_sub|].
        apply manager_apply_confined. }
      destruct (String.eqb action "erase"); [|apply same_outside_refl].
      eapply same_outside_mono; [apply targets_sub|]. apply manager_erase_confined.
    + eapply same_outside_mono; [|apply IH].
      intros q Hq. unfold batch_paths. rewrite bind_cons. apply elem_of_app. by right.
Qed.

(** X8.  A batch changes at most the collected files and the sidecars beside
    them; every other file, and the set of protected paths, is as it was. *)
Theorem processFolder_touches_only_collected (lib : Libraries) (root : Fs.entry)
    (fs : Fs.fsys) (folderPath : string) (selection : option Models.Selection)
    (action : string) (recursive : bool) :
  let supportedFiles := FileCollector.collectFilesRecursively root folderPath recursive in
  let fs' := (FileCollector.processFolder lib root fs folderPath selection action recursive).1 in
  Fs.locked fs' = Fs.locked fs ∧
  ∀ q, (∀ file, file ∈ supportedFiles →
          q ≠ FileCollector.path file ∧ q ≠ FileCollector.path file +:+ ".xmp") →
       Fs.files fs' !! q = Fs.files fs !! q.
Proof.
  cbn zeta. unfold FileCollector.processFolder.
  set (supportedFiles := FileCollector.collectFilesRecursively root folderPath recursive).
  destruct (List.length supportedFiles =? 0)%nat; [done|].
  pose proof (processFiles_same_outside lib selection action supportedFiles fs
                {| FileCollector.total := List.length supportedFiles;
                   FileCollector.processed := 0; FileCollector.failed := 0;
                   FileCollector.files := [] |}) as [Hl Hf].
  destruct (FileCollector.processFiles lib selection action supportedFiles fs _)
    as [fs1 results1].
  split; [done|]. intros q Hq. apply Hf.
  unfold batch_paths. rewrite list_elem_of_bind. intros (file & Hin & Hfile).
  destruct (Hq file Hfile) as [H1 H2].
  rewrite !elem_of_cons, elem_of_nil in Hin. tauto.
Qed.

Lemma processFiles_unknown_action (lib : Libraries) (selection : option Models.Selection)
    (action : string) (supportedFiles : list FileCollector.collected) :
  String.eqb action "apply" = false → String.eqb action "erase" = false →
  ∀ fs results,
    FileCollector.processFiles lib selection action supportedFiles fs results
    = (fs, {| FileCollector.total := FileCollector.total results;
              FileCollector.processed := FileCollector.processed results;
              FileCollector.failed :=
                (FileCollector.failed results + List.length supportedFiles)%nat;
              FileCollector.files := FileCollector.files results ++ (skipped <$> supportedFiles) |}).
Proof.
  intros Ha He. induction supportedFiles as [|file rest IH]; intros fs results.
  - cbn. rewrite Nat.add_0_r, app_nil_r. by destruct results.
  - cbn [FileCollector.processFiles]. unfold FileCollector.processFile.
    rewrite Ha, He. rewrite IH. cbn. f_equal. f_equal; [lia|].
    by rewrite <- app_assoc.
Qed.

(** X9.  An action other than ['apply'] and ['erase'] runs no processor: the
    file system stays as it was, every collected file is recorded with an
    undefined outcome and counted as failed, none as processed. *)
Theorem processFolder_unknown_action (lib : Libraries) (root : Fs.entry) (fs : Fs.fsys)
    (folderPath : string) (selection : option Models.Selection) (action : string)
    (recursive : bool) :
  action ≠ "apply" → action ≠ "erase" →
  let supportedFiles := FileCollector.collectFilesRecursively root folderPath recursive in
  supportedFiles ≠ [] →
  FileCollector.processFolder lib root fs folderPath selection action recursive
  = (fs, FileCollector.Success
           {| FileCollector.total := List.length supportedFiles;
              FileCollector.processed := 0;
              FileCollector.failed := List.length supportedFiles;
              FileCollector.files := skipped <$> supportedFiles |}).
Proof.
  intros Ha He supportedFiles Hne. unfold FileCollector.processFolder.
  fold supportedFiles.
  destruct supportedFiles as [|file rest] eqn:Hfiles; [done|].
  cbn [List.length Nat.eqb].
  rewrite processFiles_unknown_action; [done| |]; by apply String.eqb_neq.
Qed.

Lemma processFolder_unknown_action_example :
  FileCollector.processFolder Sample.lib Sample.folder Sample.disk "/photos"
    (Some Sample.selection) "check" true
  = (Sample.disk,
     FileCollector.Success
       {| FileCollector.total := 4; FileCollector.processed := 0; FileCollector.failed := 4;
          FileCollector.files :=
            skipped <$> FileCollector.collectFilesRecursively Sample.folder "/photos" true |}).
Proof.
  apply (processFolder_unknown_action Sample.lib Sample.folder Sample.disk "/photos"
           (Some Sample.selection) "check" true); done.
Defined.

Lemma sample_selection_complete : complete (Some Sample.selection).
Proof.
  exists Sample.selection, {| Models.camera := Some Sample.camera;
                              Models.lens := Some Sample.lens |},
    Sample.camera, Sample.lens, Sample.film. repeat split.
Defined.

(** X10.  JPEG apply inserts the bytes of the first tier that serialises: the
    loaded tags with the selection written over them, then the basic object,
    then the minimal one; it returns [true] exactly when one of them
    serialises, the insertion returns and the file can be written, and
    otherwise leaves the file system as it was. *)
Theorem jpeg_apply_tries_three_tiers (lib : Libraries) (fs : Fs.fsys)
    (filePath jpegData : string) (sel : Models.Selection) :
  complete (Some sel) →
  Fs.files fs !! filePath = Some jpegData →
  ∃ full basic minimal,
    JpegProcessor.setAllExifValues lib
      (default Tags.createCleanExifObject (piexif_load lib jpegData)) sel = Ok full ∧
    JpegProcessor.basicExifObj sel = Ok basic ∧
    JpegProcessor.minimalExifObj sel = Ok minimal ∧
    JpegProcessor.applyExifToFile lib fs filePath (Some sel)
    = match first_dump lib [full; basic; minimal]
            ≫= fun exifBytes => piexif_insert lib exifBytes jpegData with
      | Some newJpegData =>
          if decide (filePath ∈ Fs.locked fs) then (fs, false)
          else ({| Fs.files := <[filePath := newJpegData]> (Fs.files fs);
                   Fs.locked := Fs.locked fs |}, true)
      | None => (fs, false)
      end.
Proof.
  intros (cam & l & f & Hsel)%complete_selection_of Hread.
  rewrite Hsel. generalize (Models.shotISO sel) (Models.photographer sel). intros shot ph.
  assert (∃ full, JpegProcessor.setAllExifValues lib
            (default Tags.createCleanExifObject (piexif_load lib jpegData))
            (selection_of cam l f shot ph) = Ok full) as [full Hfull]
    by (eexists; reflexivity).
  assert (∃ basic, JpegProcessor.basicExifObj (selection_of cam l f shot ph) = Ok basic)
    as [basic Hbasic] by (eexists; reflexivity).
  assert (∃ minimal, JpegProcessor.minimalExifObj (selection_of cam l f shot ph) = Ok minimal)
    as [minimal Hminimal] by (eexists; reflexivity).
  exists full, basic, minimal. do 3 (split; [done|]).
  unfold JpegProcessor.applyExifToFile, Fs.readFileSync. rewrite Hread.
  cbn -[JpegProcessor.setAllExifValues JpegProcessor.basicExifObj
        JpegProcessor.minimalExifObj Fs.writeFileSync].
  change (match piexif_load lib jpegData with
          | Some exifObj => exifObj
          | None => Tags.createCleanExifObject
          end) with (default Tags.createCleanExifObject (piexif_load lib jpegData)).
  rewrite Hfull.
  cbn -[JpegProcessor.basicExifObj JpegProcessor.minimalExifObj Fs.writeFileSync].
  unfold JpegProcessor.createBasicExif, JpegProcessor.createMinimalExif.
  rewrite Hbasic.
  cbn -[JpegProcessor.minimalExifObj Fs.writeFileSync].
  rewrite Hminimal.
  cbn -[Fs.writeFileSync].
  destruct (piexif_dump lib full) as [b|]; cbn -[Fs.writeFileSync].
  2: destruct (piexif_dump lib basic) as [b|]; cbn -[Fs.writeFileSync].
  3: destruct (piexif_dump lib minimal) as [b|]; cbn -[Fs.writeFileSync]; [|done].
  all: destruct (piexif_insert lib b jpegData) as [new|]; cbn -[Fs.writeFileSync]; [|done].
  all: unfold Fs.writeFileSync; by destruct (decide (filePath ∈ Fs.locked fs)).
Qed.

(** The full tier does not serialise in this library, the basic tier
    does. *)
Lemma jpeg_apply_tries_three_tiers_example :
  ∃ full basic minimal,
    JpegProcessor.setAllExifValues Studio.lib
      (default Tags.createCleanExifObject (piexif_load Studio.lib Sample.jpeg_with_exif))
      Sample.selection = Ok full ∧
    JpegProcessor.basicExifObj Sample.selection = Ok basic ∧
    JpegProcessor.minimalExifObj Sample.selection = Ok minimal ∧
    JpegProcessor.applyExifToFile Studio.lib Sample.disk "/photos/a.jpg" (Some Sample.selection)
    = match first_dump Studio.lib [full; basic; minimal]
            ≫= fun exifBytes => piexif_insert Studio.lib exifBytes Sample.jpeg_with_exif with
      | Some newJpegData =>
          if decide ("/photos/a.jpg" ∈ Fs.locked Sample.disk) then (Sample.disk, false)
          else ({| Fs.files := <["/photos/a.jpg" := newJpegData]> (Fs.files Sample.disk);
                   Fs.locked := Fs.locked Sample.disk |}, true)
      | None => (Sample.disk, false)
      end.
Proof.
  apply (jpeg_apply_tries_three_tiers Studio.lib Sample.disk "/photos/a.jpg"
           Sample.jpeg_with_exif Sample.selection).
  - exact sample_selection_complete.
  - vm_compute. reflexivity.
Defined.

Example jpeg_apply_falls_to_the_basic_tier :
  ∃ full basic,
    JpegProcessor.setAllExifValues Studio.lib Tags.createCleanExifObject Sample.selection
      = Ok full ∧
    JpegProcessor.basicExifObj Sample.selection = Ok basic ∧
    piexif_dump Studio.lib full = None ∧
    first_dump Studio.lib [full; basic] = piexif_dump Studio.lib basic ∧
    (JpegProcessor.applyExifToFile Studio.lib Sample.disk "/photos/a.jpg"
       (Some Sample.selection)).2 = true.
Proof. eexists _, _. repeat split; vm_compute; reflexivity. Qed.

Lemma stored_array (items : list JS.value) : stored (JS.Arr items) = true.
Proof. reflexivity. Qed.

Ltac read_tag :=
  cbv zeta;
  repeat first [rewrite tag_of_if | rewrite tag_of_setExifValue];
  tag_numbers;
  repeat first [ rewrite bool_decide_eq_false_2 by done
               | rewrite bool_decide_eq_true_2 by done ];
  rewrite ?stored_array, ?andb_false_r, ?andb_true_r;
  cbv iota.

Lemma thumbnail_setExifValue (e : Tags.exif) (k : Tags.configKey) (v : JS.value) :
  Tags.thumbnail (Tags.setExifValue e k v) = Tags.thumbnail e.
Proof.
  unfold Tags.setExifValue. destruct (negb (JS.truthy v) || JS.blank_string v); [done|].
  destruct (Tags.EXIF_TAGS k) as [ifd tag]. by destruct (Tags.ifds e !! ifd).
Qed.

Lemma thumbnail_if (c : bool) (a b : Tags.exif) :
  Tags.thumbnail (if c then a else b) = if c then Tags.thumbnail a else Tags.thumbnail b.
Proof. by destruct c. Qed.

Ltac split_ifs :=
  repeat match goal with |- context [if ?c then _ else _] => destruct c end.

(** X11.  What the populate step writes.  Each value that is stored lands under
    its own tag, the film ISO always does (an array is never suppressed), the
    focal length and the f-number go in as rationals over 1 and over 10, and
    every tag of the loaded object outside the table is kept. *)
Theorem setAllExifValues_writes (lib : Libraries) (exifObj : Tags.exif)
    (cam : Models.Camera) (l : Models.Lens) (f : Models.Film) (shot ph : JS.value) :
  ∃ exifObj',
    JpegProcessor.setAllExifValues lib exifObj (selection_of cam l f shot ph) = Ok exifObj' ∧
    (stored (Models.cam_maker cam) = true →
       Tags.tag_of exifObj' "0th" Tags.ImageIFD_Make = Some (Models.cam_maker cam)) ∧
    (stored (Models.cam_model cam) = true →
       Tags.tag_of exifObj' "0th" Tags.ImageIFD_Model = Some (Models.cam_model cam)) ∧
    (stored ph = true → Tags.tag_of exifObj' "0th" Tags.ImageIFD_Artist = Some ph) ∧
    Tags.tag_of exifObj' "Exif" Tags.ExifIFD_ISOSpeedRatings = Some (JS.Arr [Models.iso f]) ∧
    (JpegProcessor.shot_differs (selection_of cam l f shot ph) f = true →
       stored shot = true →
       Tags.tag_of exifObj' "Exif" Tags.ExifIFD_ISOSpeed = Some shot) ∧
    (stored (Models.lens_maker l) = true →
       Tags.tag_of exifObj' "Exif" Tags.ExifIFD_LensMake = Some (Models.lens_maker l)) ∧
    (stored (JS.Str (Models.getLensModelWithAperture l)) = true →
       Tags.tag_of exifObj' "Exif" Tags.ExifIFD_LensModel
       = Some (JS.Str (Models.getLensModelWithAperture l))) ∧
    (JS.truthy (Models.focalLength l) = true →
       Tags.tag_of exifObj' "Exif" Tags.ExifIFD_FocalLength
       = Some (JS.Arr [JS.parseInt (Models.focalLength l); JS.Num (JS.Int 1)])) ∧
    (JS.truthy (Models.aperture l) = true →
       Tags.tag_of exifObj' "Exif" Tags.ExifIFD_FNumber
       = Some (JS.Arr [round_tenths lib (Models.aperture l); JS.Num (JS.Int 10)])) ∧
    (∀ i t, (i, t) ∉ Tags.EXIF_TAGS <$> configKeys →
       Tags.tag_of exifObj' i t = Tags.tag_of exifObj i t) ∧
    Tags.thumbnail exifObj' = Tags.thumbnail exifObj.
Proof.
  eexists. split; [apply setAllExifValues_selection_of|].
  repeat split.
  - intros H. read_tag. rewrite H. by split_ifs.
  - intros H. read_tag. rewrite H. by split_ifs.
  - intros H. read_tag. rewrite H. by split_ifs.
  - read_tag. by split_ifs.
  - intros H1 H2. read_tag. rewrite H1, H2. by split_ifs.
  - intros H. read_tag. rewrite H. by split_ifs.
  - intros H. read_tag. rewrite H. by split_ifs.
  - intros H. read_tag. rewrite H. by split_ifs.
  - intros H. read_tag. rewrite H. by split_ifs.
  - intros i t Hout.
    assert (Hk : ∀ k, Tags.EXIF_TAGS k ≠ (i, t)).
    { intros k Heq. apply Hout. rewrite <- Heq. apply list_elem_of_fmap. exists k.
      split; [done|]. unfold configKeys. destruct k; rewrite !elem_of_cons; tauto. }
    cbv zeta. repeat first [rewrite tag_of_if | rewrite tag_of_setExifValue].
    rewrite !bool_decide_eq_false_2 by apply Hk. rewrite !andb_false_r.
    by split_ifs.
  - cbv zeta. repeat first [rewrite thumbnail_if | rewrite thumbnail_setExifValue].
    by split_ifs.
Qed.

(** ** TIFF *)

(** X12.  What the TIFF path assigns.  Maker, model, lens maker, composed lens
    model, film ISO and photographer go to their tags whatever their value,
    [null] and blank strings included; width and height fill tags 256 and 257
    when those are missing or falsy; every other key of the decoded IFD stays
    as it was. *)
Theorem setTiffExifValues_writes (tiff : gmap string JS.value) (cam : Models.Camera)
    (l : Models.Lens) (f : Models.Film) (shot ph : JS.value) :
  ∃ tiff',
    TiffProcessor.setTiffExifValues tiff (selection_of cam l f shot ph) = Ok tiff' ∧
    tiff' !! "t256"
      = Some (JS.or_else (TiffProcessor.prop tiff "t256") (TiffProcessor.prop tiff "width")) ∧
    tiff' !! "t257"
      = Some (JS.or_else (TiffProcessor.prop tiff "t257") (TiffProcessor.prop tiff "height")) ∧
    tiff' !! "t271" = Some (Models.cam_maker cam) ∧
    tiff' !! "t272" = Some (Models.cam_model cam) ∧
    tiff' !! "t42035" = Some (Models.lens_maker l) ∧
    tiff' !! "t42036" = Some (JS.Str (Models.getLensModelWithAperture l)) ∧
    tiff' !! "t34855" = Some (JS.Arr [Models.iso f]) ∧
    tiff' !! "t34864" = (if JS.truthy shot then Some shot else tiff !! "t34864") ∧
    tiff' !! "t315" = Some ph ∧
    ∀ k, k ∉ tiffKeys → tiff' !! k = tiff !! k.
Proof.
  eexists. split; [reflexivity|].
  cbn [Models.shotISO Models.photographer selection_of].
  unfold TiffProcessor.prop.
  repeat split.
  1-7, 9: by destruct (JS.truthy shot); simplify_map_eq.
  - destruct (JS.truthy shot); by simplify_map_eq.
  - intros k Hk. unfold tiffKeys in Hk. rewrite !not_elem_of_cons in Hk.
    destruct Hk as (? & ? & ? & ? & ? & ? & ? & ? & ? & _).
    destruct (JS.truthy shot); by simplify_map_eq.
Qed.

Lemma validate_complete (selection : option Models.Selection) :
  complete selection → JpegProcessor.validateSelection selection = Ok ().
Proof. apply jpeg_validate_iff. Qed.

(** X13.  A TIFF that decodes is rewritten from its first IFD alone: the IFDs
    after the first are not encoded again.  When encoding fails, and also
    when the file cannot be written, apply falls back to the sidecar. *)
Theorem tiff_apply_rewrites_first_ifd (lib : Libraries) (fs : Fs.fsys)
    (filePath data : string) (sel : Models.Selection)
    (tiff : gmap string JS.value) (rest : list (gmap string JS.value)) :
  complete (Some sel) →
  Fs.files fs !! filePath = Some data →
  UTIF_decode lib data = Some (tiff :: rest) →
  ∃ tiff',
    TiffProcessor.setTiffExifValues tiff sel = Ok tiff' ∧
    TiffProcessor.applyExifToFile lib fs filePath (Some sel)
    = match UTIF_encode lib [tiff'] with
      | Some newData =>
          if decide (filePath ∈ Fs.locked fs)
          then Sidecar.createSidecarFile fs filePath (Some sel)
          else ({| Fs.files := <[filePath := newData]> (Fs.files fs);
                   Fs.locked := Fs.locked fs |}, true)
      | None => Sidecar.createSidecarFile fs filePath (Some sel)
      end.
Proof.
  intros Hsel Hread Hdec.
  assert (∃ tiff', TiffProcessor.setTiffExifValues tiff sel = Ok tiff') as [tiff' Hset].
  { apply complete_selection_of in Hsel as (cam & l & f & ->). eexists. reflexivity. }
  exists tiff'. split; [done|].
  unfold TiffProcessor.applyExifToFile.
  change (TiffProcessor.validateSelection (Some sel))
    with (JpegProcessor.validateSelection (Some sel)).
  rewrite (validate_complete _ Hsel). unfold Fs.readFileSync. rewrite Hread.
  cbn -[TiffProcessor.setTiffExifValues Sidecar.createSidecarFile Fs.writeFileSync].
  rewrite Hdec.
  cbn -[TiffProcessor.setTiffExifValues Sidecar.createSidecarFile Fs.writeFileSync].
  rewrite Hset.
  cbn -[Sidecar.createSidecarFile Fs.writeFileSync].
  destruct (UTIF_encode lib [tiff']) as [newData|];
    cbn -[Sidecar.createSidecarFile Fs.writeFileSync]; [|done].
  unfold Fs.writeFileSync. by destruct (decide (filePath ∈ Fs.locked fs)).
Qed.

(** [d.dng] decodes to two IFDs in this library; the file is rewritten from
    the first. *)
Lemma tiff_apply_rewrites_first_ifd_example :
  ∃ tiff',
    TiffProcessor.setTiffExifValues {["width" := JS.Num (JS.Int 100)]} Sample.selection
      = Ok tiff' ∧
    TiffProcessor.applyExifToFile Studio.lib Sample.disk "/photos/d.dng" (Some Sample.selection)
    = match UTIF_encode Studio.lib [tiff'] with
      | Some newData =>
          if decide ("/photos/d.dng" ∈ Fs.locked Sample.disk)
          then Sidecar.createSidecarFile Sample.disk "/photos/d.dng" (Some Sample.selection)
          else ({| Fs.files := <["/photos/d.dng" := newData]> (Fs.files Sample.disk);
                   Fs.locked := Fs.locked Sample.disk |}, true)
      | None => Sidecar.createSidecarFile Sample.disk "/photos/d.dng" (Some Sample.selection)
      end.
Proof.
  apply (tiff_apply_rewrites_first_ifd Studio.lib Sample.disk "/photos/d.dng" "II* empty"
           Sample.selection {["width" := JS.Num (JS.Int 100)]} [∅]).
  - exact sample_selection_complete.
  - vm_compute. reflexivity.
  - reflexivity.
Defined.

Lemma keep_defined_lookup (tiff acc : gmap string JS.value) (tag k : string) :
  TiffProcessor.keep_defined tiff acc tag !! k
  = if decide (tag = k)
    then match tiff !! k with
         | None | Some JS.Undefined => acc !! k
         | Some v => Some v
         end
    else acc !! k.
Proof.
  unfold TiffProcessor.keep_defined. destruct (decide (tag = k)) as [->|Hne].
  - destruct (tiff !! k) as [[]|]; by simplify_map_eq.
  - destruct (tiff !! tag) as [[]|]; by simplify_map_eq.
Qed.

Lemma keep_truthy_lookup (tiff acc : gmap string JS.value) (p k : string) :
  TiffProcessor.keep_truthy tiff acc p !! k
  = if decide (p = k)
    then match tiff !! k with
         | Some v => if JS.truthy v then Some v else acc !! k
         | None => acc !! k
         end
    else acc !! k.
Proof.
  unfold TiffProcessor.keep_truthy, TiffProcessor.prop.
  destruct (decide (p = k)) as [->|Hne].
  - destruct (tiff !! k) as [v|]; cbn; [|done].
    destruct (JS.truthy v); by simplify_map_eq.
  - destruct (JS.truthy (default JS.Undefined (tiff !! p))); by simplify_map_eq.
Qed.

Lemma fold_keep_defined_lookup (tiff : gmap string JS.value) (tags : list string)
    (acc : gmap string JS.value) (k : string) :
  fold_left (TiffProcessor.keep_defined tiff) tags acc !! k
  = if bool_decide (k ∈ tags)
    then match tiff !! k with
         | None | Some JS.Undefined => acc !! k
         | Some v => Some v
         end
    else acc !! k.
Proof.
  revert acc. induction tags as [|tag tags IH]; intros acc; [done|].
  cbn [fold_left]. rewrite IH, keep_defined_lookup.
  destruct (decide (tag = k)) as [->|Hne].
  - rewrite (bool_decide_eq_true_2 (k ∈ k :: tags)) by (by left).
    destruct (bool_decide (k ∈ tags)); by destruct (tiff !! k) as [[]|].
  - destruct (bool_decide (k ∈ tags)) eqn:Hin.
    + apply bool_decide_eq_true_1 in Hin.
      by rewrite (bool_decide_eq_true_2 (k ∈ tag :: tags)) by (by right).
    + apply bool_decide_eq_false_1 in Hin.
      rewrite (bool_decide_eq_false_2 (k ∈ tag :: tags)); [done|].
      rewrite elem_of_cons. intros [->|?]; [by apply Hne|done].
Qed.

Lemma cleanTiff_lookup (tiff : gmap string JS.value) (k : string) :
  cleanTiff tiff !! k
  = if bool_decide (k ∈ TiffProcessor.essentialTags)
    then match tiff !! k with
         | None | Some JS.Undefined => None
         | Some v => Some v
         end
    else if bool_decide (k ∈ ["width"; "height"; "data"])
         then match tiff !! k with
              | Some v => if JS.truthy v then Some v else None
              | None => None
              end
         else None.
Proof.
  unfold cleanTiff. rewrite !keep_truthy_lookup, !fold_keep_defined_lookup, lookup_empty.
  destruct (decide ("data" = k)) as [<-|Hd]; [reflexivity|].
  destruct (decide ("height" = k)) as [<-|Hh]; [reflexivity|].
  destruct (decide ("width" = k)) as [<-|Hw]; [reflexivity|].
  rewrite (bool_decide_eq_false_2 (k ∈ ["width"; "height"; "data"])).
  - by destruct (bool_decide (k ∈ TiffProcessor.essentialTags)), (tiff !! k) as [[]|].
  - rewrite !elem_of_cons, elem_of_nil. intros [->|[->|[->|[]]]]; done.
Qed.

(** X14.  TIFF erase has no sidecar fallback.  It succeeds exactly when the
    data decodes to at least one IFD, the cleaned first IFD encodes and the
    file can be written; otherwise it returns [false] and changes nothing. *)
Theorem tiff_erase_outcome (lib : Libraries) (fs : Fs.fsys) (filePath : string) :
  TiffProcessor.eraseExifFromFile lib fs filePath
  = match Fs.files fs !! filePath ≫= UTIF_decode lib with
    | Some (tiff :: _) =>
        match UTIF_encode lib [cleanTiff tiff] with
        | Some newData =>
            if decide (filePath ∈ Fs.locked fs) then (fs, false)
            else ({| Fs.files := <[filePath := newData]> (Fs.files fs);
                     Fs.locked := Fs.locked fs |}, true)
        | None => (fs, false)
        end
    | _ => (fs, false)
    end.
Proof.
  unfold TiffProcessor.eraseExifFromFile, Fs.readFileSync.
  destruct (Fs.files fs !! filePath) as [data|]; [|done].
  cbn -[Fs.writeFileSync fold_left cleanTiff].
  destruct (UTIF_decode lib data) as [[|tiff rest]|]; try done.
  cbn -[Fs.writeFileSync fold_left cleanTiff].
  change (TiffProcessor.keep_truthy tiff _ "data") with (cleanTiff tiff).
  destruct (UTIF_encode lib [cleanTiff tiff]) as [newData|]; [|done].
  cbn -[Fs.writeFileSync]. unfold Fs.writeFileSync.
  by destruct (decide (filePath ∈ Fs.locked fs)).
Qed.

(** X15.  The IFD that erase encodes is a part of the decoded one: it holds the
    nine structural tags that were defined, width, height and data when they
    were truthy, each with the value it had, and no other key; whatever apply
    wrote under the metadata tags is gone. *)
Theorem tiff_erase_keeps_structure_only (tiff : gmap string JS.value) :
  cleanTiff tiff ⊆ tiff ∧
  (∀ k, is_Some (cleanTiff tiff !! k) →
     k ∈ TiffProcessor.essentialTags ++ ["width"; "height"; "data"]) ∧
  (∀ k v, k ∈ TiffProcessor.essentialTags → tiff !! k = Some v → v ≠ JS.Undefined →
     cleanTiff tiff !! k = Some v) ∧
  (∀ k v, k ∈ ["width"; "height"; "data"] → tiff !! k = Some v → JS.truthy v = true →
     cleanTiff tiff !! k = Some v) ∧
  (∀ k, k ∈ ["t271"; "t272"; "t315"; "t42035"; "t42036"; "t34855"; "t34864"; "t34867"] →
     cleanTiff tiff !! k = None).
Proof.
  split; [|split; [|split; [|split]]].
  - apply map_subseteq_spec. intros k v. rewrite cleanTiff_lookup.
    destruct (bool_decide (k ∈ TiffProcessor.essentialTags)).
    + by destruct (tiff !! k) as [[]|].
    + destruct (bool_decide (k ∈ ["width"; "height"; "data"])); [|done].
      destruct (tiff !! k) as [w|]; [|done]. by destruct (JS.truthy w).
  - intros k. rewrite cleanTiff_lookup, elem_of_app.
    destruct (bool_decide (k ∈ TiffProcessor.essentialTags)) eqn:He.
    { intros _. left. by apply bool_decide_eq_true_1 in He. }
    destruct (bool_decide (k ∈ ["width"; "height"; "data"])) eqn:Hw.
    { intros _. right. by apply bool_decide_eq_true_1 in Hw. }
    by intros [? ?].
  - intros k v Hk Hv Hdef. rewrite cleanTiff_lookup, bool_decide_eq_true_2, Hv by done.
    by destruct v.
  - intros k v Hk Hv Htrue. rewrite cleanTiff_lookup, Hv, Htrue.
    rewrite (bool_decide_eq_true_2 (k ∈ ["width"; "height"; "data"])) by done.
    destruct (bool_decide (k ∈ TiffProcessor.essentialTags)); [|done].
    by destruct v.
  - intros k Hk. rewrite cleanTiff_lookup.
    rewrite !elem_of_cons, elem_of_nil in Hk.
    destruct Hk as [->|[->|[->|[->|[->|[->|[->|[->|[]]]]]]]]]; reflexivity.
Qed.

(** ** Dispatch *)

(** X16.  A DNG is processed exactly as a TIFF, for apply and for erase and
    whatever the selection: the RAW processor hands it to the TIFF processor,
    and both reject the same selections. *)
Theorem dng_is_processed_as_tiff (lib : Libraries) (fs : Fs.fsys) (filePath : string)
    (selection : option Models.Selection) :
  FileTypes.getFileType filePath = FileTypes.tiff
  ∨ FileTypes.getFileType filePath = FileTypes.dng →
  ExifManager.applyExifToFile lib fs filePath selection
  = TiffProcessor.applyExifToFile lib fs filePath selection ∧
  ExifManager.eraseExifFromFile lib fs filePath
  = TiffProcessor.eraseExifFromFile lib fs filePath.
Proof.
  unfold ExifManager.applyExifToFile, ExifManager.eraseExifFromFile.
  intros [-> | Hdng]; [done|]. rewrite Hdng.
  unfold RawProcessor.applyExifToFile, RawProcessor.eraseExifFromFile.
  rewrite (getFileType_dng _ Hdng). split; [|done].
  change (RawProcessor.validateSelection selection)
    with (TiffProcessor.validateSelection selection).
  unfold TiffProcessor.applyExifToFile.
  by destruct (TiffProcessor.validateSelection selection) as [[]|].
Qed.

Lemma dng_is_processed_as_tiff_example :
  ExifManager.applyExifToFile Sample.lib Sample.disk "/photos/d.dng" None
  = TiffProcessor.applyExifToFile Sample.lib Sample.disk "/photos/d.dng" None ∧
  ExifManager.eraseExifFromFile Sample.lib Sample.disk "/photos/d.dng"
  = TiffProcessor.eraseExifFromFile Sample.lib Sample.disk "/photos/d.dng".
Proof.
  apply (dng_is_processed_as_tiff Sample.lib Sample.disk "/photos/d.dng" None).
  right. reflexivity.
Defined.

Lemma fsys_eq (fs fs' : Fs.fsys) :
  Fs.files fs = Fs.files fs' → Fs.locked fs = Fs.locked fs' → fs = fs'.
Proof. destruct fs, fs'. cbn. by intros -> ->. Qed.

(** ** RAW files and their sidecars *)

Lemma raw_apply_outcome (lib : Libraries) (fs : Fs.fsys)
    (filePath : string) (sel : Models.Selection) :
  FileTypes.getFileType filePath = FileTypes.raw →
  complete (Some sel) →
  ∃ xmp,
    Sidecar.generateXmpSidecar sel = Ok xmp ∧
    ExifManager.applyExifToFile lib fs filePath (Some sel)
    = if decide (filePath +:+ ".xmp" ∈ Fs.locked fs) then (fs, false)
      else ({| Fs.files := <[filePath +:+ ".xmp" := xmp]> (Fs.files fs);
               Fs.locked := Fs.locked fs |}, true).
Proof.
  intros Htype Hsel.
  assert (∃ xmp, Sidecar.generateXmpSidecar sel = Ok xmp) as [xmp Hxmp].
  { apply complete_selection_of in Hsel as (cam & l & f & ->). eexists. reflexivity. }
  exists xmp. split; [done|].
  unfold ExifManager.applyExifToFile. rewrite Htype.
  unfold RawProcessor.applyExifToFile.
  change (RawProcessor.validateSelection (Some sel))
    with (JpegProcessor.validateSelection (Some sel)).
  rewrite (validate_complete _ Hsel), (raw_is_not_dng _ Htype).
  cbn -[Sidecar.createSidecarFile]. unfold Sidecar.createSidecarFile.
  cbn -[Sidecar.generateXmpSidecar Fs.writeFileSync]. rewrite Hxmp.
  cbn -[Fs.writeFileSync]. unfold Fs.writeFileSync.
  by destruct (decide (filePath +:+ ".xmp" ∈ Fs.locked fs)).
Qed.

(** X17.  Apply on a proprietary RAW file writes the rendered document to
    [path + '.xmp'], over any sidecar that was there, and returns [true];
    when that path cannot be written it returns [false]. *)
Theorem raw_apply_writes_the_sidecar (lib : Libraries) (fs : Fs.fsys)
    (filePath : string) (sel : Models.Selection) :
  FileTypes.getFileType filePath = FileTypes.raw →
  complete (Some sel) →
  ∃ xmp,
    Sidecar.generateXmpSidecar sel = Ok xmp ∧
    ExifManager.applyExifToFile lib fs filePath (Some sel)
    = if decide (filePath +:+ ".xmp" ∈ Fs.locked fs) then (fs, false)
      else ({| Fs.files := <[filePath +:+ ".xmp" := xmp]> (Fs.files fs);
               Fs.locked := Fs.locked fs |}, true).
Proof. apply raw_apply_outcome. Qed.

(** X18.  Erase undoes apply on a proprietary RAW file.  With a writable
    sidecar path, apply followed by erase returns [true] twice and leaves the
    file system without the sidecar; when there was no sidecar before, that is
    the file system apply started from. *)
Theorem raw_apply_then_erase (lib : Libraries) (fs : Fs.fsys)
    (filePath : string) (sel : Models.Selection) :
  FileTypes.getFileType filePath = FileTypes.raw →
  complete (Some sel) →
  filePath +:+ ".xmp" ∉ Fs.locked fs →
  let applied := ExifManager.applyExifToFile lib fs filePath (Some sel) in
  let erased := ExifManager.eraseExifFromFile lib applied.1 filePath in
  applied.2 = true ∧ erased.2 = true ∧
  erased.1 = {| Fs.files := delete (filePath +:+ ".xmp") (Fs.files fs);
                Fs.locked := Fs.locked fs |} ∧
  (Fs.files fs !! (filePath +:+ ".xmp") = None → erased.1 = fs).
Proof.
  intros Htype Hsel Hfree. cbn zeta.
  destruct (raw_apply_outcome lib fs filePath sel Htype Hsel) as (xmp & _ & ->).
  rewrite decide_False by done. cbn [fst snd]. split; [done|].
  unfold ExifManager.eraseExifFromFile. rewrite Htype.
  unfold RawProcessor.eraseExifFromFile. rewrite (raw_is_not_dng _ Htype).
  unfold Sidecar.removeSidecarFile, Fs.existsSync, Fs.unlinkSync. cbn [Fs.files Fs.locked].
  rewrite lookup_insert_eq. rewrite bool_decide_eq_true_2 by done.
  rewrite decide_False by done. cbn. rewrite delete_insert_eq.
  split; [done|]. split; [done|].
  intros Hnone. apply fsys_eq; cbn; [|done]. by apply delete_id.
Qed.

Lemma raw_apply_then_erase_example :
  let applied := ExifManager.applyExifToFile Sample.lib Sample.disk "/photos/e.cr2"
                   (Some Sample.selection) in
  let erased := ExifManager.eraseExifFromFile Sample.lib applied.1 "/photos/e.cr2" in
  applied.2 = true ∧ erased.2 = true ∧
  erased.1 = {| Fs.files := delete ("/photos/e.cr2" +:+ ".xmp") (Fs.files Sample.disk);
                Fs.locked := Fs.locked Sample.disk |} ∧
  (Fs.files Sample.disk !! ("/photos/e.cr2" +:+ ".xmp") = None → erased.1 = Sample.disk).
Proof.
  apply (raw_apply_then_erase Sample.lib Sample.disk "/photos/e.cr2" Sample.selection).
  - reflexivity.
  - exact sample_selection_complete.
  - vm_compute. discriminate.
Defined.

Lemma raw_apply_writes_the_sidecar_example :
  ∃ xmp,
    Sidecar.generateXmpSidecar Sample.selection = Ok xmp ∧
    ExifManager.applyExifToFile Sample.lib Sample.disk "/photos/e.cr2" (Some Sample.selection)
    = if decide ("/photos/e.cr2" +:+ ".xmp" ∈ Fs.locked Sample.disk) then (Sample.disk, false)
      else ({| Fs.files := <["/photos/e.cr2" +:+ ".xmp" := xmp]> (Fs.files Sample.disk);
               Fs.locked := Fs.locked Sample.disk |}, true).
Proof.
  apply (raw_apply_writes_the_sidecar Sample.lib Sample.disk "/photos/e.cr2" Sample.selection).
  - reflexivity.
  - exact sample_selection_complete.
Defined.

(** X19.  The mount of the lens and the maker and name of the film are recorded
    nowhere: two selections that differ in them alone give the same file
    system and the same outcome, for every file type. *)
Theorem film_name_and_mount_are_not_recorded (lib : Libraries) (fs : Fs.fsys)
    (filePath : string) (cam : Models.Camera) (l : Models.Lens) (f : Models.Film)
    (shot ph mount' maker' name' : JS.value) :
  let l' := {| Models.lens_maker := Models.lens_maker l;
               Models.lens_model := Models.lens_model l;
               Models.focalLength := Models.focalLength l;
               Models.aperture := Models.aperture l;
               Models.mount := mount' |} in
  let f' := {| Models.film_maker := maker'; Models.film_name := name';
               Models.iso := Models.iso f |} in
  ExifManager.applyExifToFile lib fs filePath (Some (selection_of cam l' f' shot ph))
  = ExifManager.applyExifToFile lib fs filePath (Some (selection_of cam l f shot ph)).
Proof. destruct l, f. reflexivity. Qed.

(** ** Collecting the files of a folder *)

(** The scan of a subdirectory is the scan of its listing one level down. *)
Lemma scanEntry_directory (recursive : bool) (dirPath : string) (rel : list string)
    (entry : string) (entries : list (string * Fs.entry)) :
  FileCollector.scanEntry recursive dirPath rel entry (Fs.Directory (Some entries))
  = Some (if recursive
          then FileCollector.scanListing recursive (Fs.path_join dirPath entry)
                 (rel ++ [entry]) entries
          else []).
Proof.
  cbn [FileCollector.scanEntry]. destruct recursive; [|done]. f_equal.
  induction entries as [|[e st] rest IH]; [done|].
  cbn [FileCollector.scanListing]. rewrite <- IH.
  by destruct (FileCollector.scanEntry true _ _ e st).
Qed.

(** X20.  Without recursion the collection is the supported plain files of the
    folder itself, in listing order, up to the first entry that cannot be
    examined; each is named by its entry, lies in directory ['.'], and
    subdirectories contribute nothing. *)
Theorem collect_without_recursion (entries : list (string * Fs.entry)) (folderPath : string) :
  FileCollector.collectFilesRecursively (Fs.Directory (Some entries)) folderPath false
  = (fun entry => {| FileCollector.name := entry.1;
                     FileCollector.path := Fs.path_join folderPath entry.1;
                     FileCollector.directory := "." |})
    <$> List.filter is_supported_file (before_dangling entries).
Proof.
  unfold FileCollector.collectFilesRecursively.
  induction entries as [|[e st] rest IH]; [done|].
  cbn [FileCollector.scanListing before_dangling].
  destruct st as [|listing| |].
  - cbn [FileCollector.scanEntry List.filter]. unfold is_supported_file at 1. cbn [fst snd].
    destruct (FileTypes.isSupportedFile e); cbn [app fmap list_fmap]; by rewrite IH.
  - destruct listing as [entries|].
    + rewrite scanEntry_directory. cbn [List.filter app]. by rewrite IH.
    + cbn [FileCollector.scanEntry List.filter app]. by rewrite IH.
  - cbn [FileCollector.scanEntry List.filter app]. by rewrite IH.
  - done.
Qed.

(** X21.  An entry that cannot be examined ends the scan of its own directory
    and of nothing else: what was found before it is kept, the entries after
    it are skipped, and the scan of the parent goes on.  A directory that
    cannot be listed contributes nothing. *)
Theorem scan_stops_at_a_failing_entry (recursive : bool) (dirPath : string)
    (rel : list string) (before after inner rest : list (string * Fs.entry))
    (e sub : string) :
  FileCollector.scanListing recursive dirPath rel (before ++ (e, Fs.Dangling) :: after)
  = FileCollector.scanListing recursive dirPath rel before ∧
  FileCollector.scanListing recursive dirPath rel
    ((sub, Fs.Directory (Some (inner ++ (e, Fs.Dangling) :: after))) :: rest)
  = FileCollector.scanListing recursive dirPath rel
      ((sub, Fs.Directory (Some inner)) :: rest) ∧
  FileCollector.scanListing recursive dirPath rel ((sub, Fs.Directory None) :: rest)
  = FileCollector.scanListing recursive dirPath rel rest ∧
  FileCollector.collectFilesRecursively (Fs.Directory None) dirPath recursive = [] ∧
  FileCollector.collectFilesRecursively Fs.Dangling dirPath recursive = [].
Proof.
  assert (Hstop : ∀ r d rl l,
    FileCollector.scanListing r d rl (l ++ (e, Fs.Dangling) :: after)
    = FileCollector.scanListing r d rl l).
  { intros r d rl l. induction l as [|[x st] l IH]; [done|].
    cbn [app FileCollector.scanListing]. by rewrite IH. }
  split; [apply Hstop|]. split; [|split; [|done]].
  - cbn [FileCollector.scanListing]. rewrite !scanEntry_directory.
    destruct recursive; [|done]. by rewrite Hstop.
  - cbn [FileCollector.scanListing FileCollector.scanEntry]. by destruct recursive.
Qed.

Lemma well_named_listing (entries : list (string * Fs.entry)) :
  well_named (Fs.Directory (Some entries)) = true ↔
  Forall (fun entry => valid_name entry.1 = true ∧ well_named entry.2 = true) entries.
Proof.
  cbn [well_named]. induction entries as [|[e st] rest IH].
  - split; [constructor|done].
  - rewrite !andb_true_iff, Forall_cons, IH. cbn [fst snd]. tauto.
Qed.

Lemma entry_induction (P : Fs.entry → Prop) :
  P Fs.File → P Fs.Other → P Fs.Dangling → P (Fs.Directory None) →
  (∀ entries, Forall (fun entry => P entry.2) entries → P (Fs.Directory (Some entries))) →
  ∀ stat, P stat.
Proof.
  intros Hfile Hother Hdangling Hnone Hdir.
  fix IH 1. intros [|[entries|]| |]; try assumption.
  apply Hdir. induction entries as [|[e st] rest IHrest]; constructor; [apply IH|exact IHrest].
Qed.

Lemma join_snoc (rel : list string) (entry : string) :
  JS.join "/" (rel ++ [entry])
  = match rel with
    | [] => entry
    | _ => JS.join "/" rel +:+ "/" +:+ entry
    end.
Proof.
  induction rel as [|a rel IH]; [done|].
  destruct rel as [|b rel]; [done|].
  change ((a :: b :: rel) ++ [entry]) with (a :: ((b :: rel) ++ [entry])).
  cbn [JS.join app] in *. rewrite IH. by rewrite !append_assoc.
Qed.

Lemma getFileExtension_join (dir name : string) :
  valid_name name = true →
  FileTypes.getFileExtension (dir +:+ "/" +:+ name) = FileTypes.getFileExtension name.
Proof.
  unfold valid_name. intros [Hne Hslash]%andb_true_iff.
  apply negb_true_iff, String.eqb_neq in Hne.
  unfold FileTypes.getFileExtension.
  by rewrite basename_join, basename_plain.
Qed.

Lemma supported_known (p : string) :
  FileTypes.isSupportedFile p = true → FileTypes.getFileType p ≠ FileTypes.unknown.
Proof.
  unfold FileTypes.isSupportedFile, FileTypes.getFileType.
  destruct (FileTypes.isJpegFile p); [done|].
  destruct (FileTypes.isTiffFile p); [done|].
  destruct (FileTypes.isDngFile p); [done|].
  by destruct (FileTypes.isRawFile p).
Qed.

Lemma same_extension (p q : string) :
  FileTypes.getFileExtension p = FileTypes.getFileExtension q →
  FileTypes.isSupportedFile p = FileTypes.isSupportedFile q ∧
  FileTypes.getFileType p = FileTypes.getFileType q.
Proof.
  unfold FileTypes.isSupportedFile, FileTypes.getFileType, FileTypes.isJpegFile,
    FileTypes.isTiffFile, FileTypes.isDngFile, FileTypes.isRawFile.
  by intros ->.
Qed.

Lemma scanEntry_consistent (recursive : bool) (stat : Fs.entry) :
  ∀ dirPath rel entry found,
    valid_name entry = true → well_named stat = true →
    FileCollector.scanEntry recursive dirPath rel entry stat = Some found →
    Forall consistent found.
Proof.
  induction stat as [| | | |entries IH] using entry_induction;
    intros dirPath rel entry found Hentry Hnamed.
  - cbn [FileCollector.scanEntry].
    destruct (FileTypes.isSupportedFile entry) eqn:Hsup; intros [= <-]; [|constructor].
    constructor; [|constructor]. unfold consistent. cbn [FileCollector.path FileCollector.name].
    unfold Fs.path_join.
    destruct (same_extension _ _ (getFileExtension_join dirPath entry Hentry)) as [Hs Ht].
    assert (Hname : FileTypes.getFileExtension (JS.join "/" (rel ++ [entry]))
                    = FileTypes.getFileExtension entry).
    { rewrite join_snoc. destruct rel; [done|]. by apply getFileExtension_join. }
    destruct (same_extension _ _ Hname) as [_ Ht'].
    split; [|split].
    + by rewrite Hs.
    + apply supported_known. by rewrite Hs.
    + by rewrite Ht, Ht'.
  - intros [= <-]. constructor.
  - done.
  - cbn [FileCollector.scanEntry]. destruct recursive; intros [= <-]; constructor.
  - rewrite scanEntry_directory. intros [= <-]. destruct recursive; [|constructor].
    apply well_named_listing in Hnamed.
    generalize (Fs.path_join dirPath entry) (rel ++ [entry]). intros d rl.
    induction entries as [|[e st] rest IHrest]; [constructor|].
    apply Forall_cons in IH as [IHst IHall]. apply Forall_cons in Hnamed as [[He Hst] Hrest].
    cbn [fst snd] in *. cbn [FileCollector.scanListing].
    destruct (FileCollector.scanEntry true d rl e st) as [found|] eqn:Hscan; [|constructor].
    apply Forall_app. split; [by eapply IHst|by apply IHrest].
Qed.

(** X22.  In a folder whose entries carry names a directory can hold, every
    collected file is one the processors accept: its full path has a supported
    extension, and the type recorded for its relative name is the type the
    processors see, never unknown. *)
Theorem collected_files_are_supported (root : Fs.entry) (folderPath : string)
    (recursive : bool) :
  well_named root = true →
  Forall consistent (FileCollector.collectFilesRecursively root folderPath recursive).
Proof.
  intros Hnamed. unfold FileCollector.collectFilesRecursively.
  destruct root as [|[entries|]| |]; try constructor.
  apply well_named_listing in Hnamed.
  generalize (@nil string). intros rel.
  induction entries as [|[e st] rest IH]; [constructor|].
  apply Forall_cons in Hnamed as [[He Hst] Hrest]. cbn [fst snd] in *.
  cbn [FileCollector.scanListing].
  destruct (FileCollector.scanEntry recursive folderPath rel e st) as [found|] eqn:Hscan;
    [|constructor].
  apply Forall_app. split; [by eapply scanEntry_consistent|by apply IH].
Qed.

Lemma collected_files_are_supported_example :
  Forall consistent (FileCollector.collectFilesRecursively Sample.folder "/photos" true).
Proof. apply (collected_files_are_supported Sample.folder "/photos" true). reflexivity. Defined.

(** ** The equipment store *)

Lemma strict_eq_true (a b : JS.value) : JS.strict_eq a b = true → a = b.
Proof.
  destruct a as [| |x|[x|]|x|x], b as [| |y|[y|]|y|y]; cbn; try done.
  - by intros ->%Bool.eqb_prop.
  - by intros ->%Z.eqb_eq.
  - by intros ->%String.eqb_eq.
Qed.

Lemma find_is_Some {A : Type} (p : A → bool) (l : list A) :
  is_Some (List.find p l) ↔ Exists (fun x => p x = true) l.
Proof.
  induction l as [|x l IH]; cbn.
  - split; [by intros [? ?]|by intros ?%Exists_nil].
  - rewrite Exists_cons. destruct (p x) eqn:Hx.
    + split; [by left|by eexists].
    + rewrite IH. split; [by right|]. by intros [?|?]; [congruence|].
Qed.

Lemma Exists_alter {A : Type} (P : A → Prop) (f : A → A) (i : nat) (l : list A) :
  (∀ x, P (f x) ↔ P x) → Exists P (alter f i l) ↔ Exists P l.
Proof.
  intros Hf. revert i. induction l as [|x l IH]; intros [|i]; cbn; try done.
  - by rewrite !Exists_cons, Hf.
  - by rewrite !Exists_cons, IH.
Qed.

Lemma filter_none {A : Type} (p : A → bool) (l : list A) :
  (0 <? List.length (List.filter p l))%nat = false → Forall (fun x => p x = false) l.
Proof.
  induction l as [|x l IH]; cbn; [constructor|].
  destruct (p x) eqn:Hx; cbn; [done|]. intros H. constructor; [done|by apply IH].
Qed.

Lemma elem_of_alter {A : Type} (f : A → A) (i : nat) (l : list A) (y : A) :
  y ∈ alter f i l → y ∈ l ∨ ∃ x, x ∈ l ∧ y = f x.
Proof.
  revert i. induction l as [|x l IH]; intros [|i]; cbn; try (by left).
  - intros [->|Hy]%elem_of_cons.
    + right. exists x. split; [by left|done].
    + left. by right.
  - intros [->|Hy]%elem_of_cons; [left; by left|].
    destruct (IH _ Hy) as [?|(z & ? & ?)]; [left; by right|].
    right. exists z. split; [by right|done].
Qed.

Lemma elem_of_List_filter {A : Type} (p : A → bool) (l : list A) (x : A) :
  x ∈ List.filter p l ↔ x ∈ l ∧ p x = true.
Proof. by rewrite !list_elem_of_In, List.filter_In. Qed.

Lemma camera_found (dm : DataManager.t) (id : JS.value) :
  is_Some (DataManager.getCameraById dm id) ↔
  Exists (fun c => JS.strict_eq (DataManager.c_id c) id = true)
    (DataManager.cameras (DataManager.data dm)).
Proof. unfold DataManager.getCameraById. by rewrite fmap_is_Some, find_is_Some. Qed.

Lemma lens_found (dm : DataManager.t) (id : JS.value) :
  is_Some (DataManager.getLensById dm id) ↔
  Exists (fun l => JS.strict_eq (DataManager.l_id l) id = true)
    (DataManager.lenses (DataManager.data dm)).
Proof. unfold DataManager.getLensById. by rewrite fmap_is_Some, find_is_Some. Qed.

(** Linkage depends on the identifiers in the three collections only. *)
Lemma linked_by_ids (dm dm' : DataManager.t) :
  (∀ s, s ∈ DataManager.setups (DataManager.data dm') →
        s ∈ DataManager.setups (DataManager.data dm) ∨
        (JS.typeof (DataManager.s_id s) = "string" ∧
         is_Some (DataManager.getCameraById dm (DataManager.s_cameraId s)) ∧
         is_Some (DataManager.getLensById dm (DataManager.s_lensId s)))) →
  (∀ id, is_Some (DataManager.getCameraById dm id) →
         (∃ s, s ∈ DataManager.setups (DataManager.data dm') ∧ DataManager.s_cameraId s = id) →
         is_Some (DataManager.getCameraById dm' id)) →
  (∀ id, is_Some (DataManager.getLensById dm id) →
         (∃ s, s ∈ DataManager.setups (DataManager.data dm') ∧ DataManager.s_lensId s = id) →
         is_Some (DataManager.getLensById dm' id)) →
  linked dm → linked dm'.
Proof.
  intros Hs Hc Hl Hdm s Hin.
  assert (JS.typeof (DataManager.s_id s) = "string" ∧
          is_Some (DataManager.getCameraById dm (DataManager.s_cameraId s)) ∧
          is_Some (DataManager.getLensById dm (DataManager.s_lensId s))) as (H0 & H1 & H2).
  { destruct (Hs s Hin) as [Hold|?]; [by apply Hdm|done]. }
  split; [done|]. split; [apply Hc|apply Hl]; eauto.
Qed.

Ltac saved :=
  match goal with
  | |- context [DataManager.saveData ?s ?dm ?fs] =>
      destruct (DataManager.saveData s dm fs) as [? ?]
  end.

Lemma serve_keeps_linked (JSON_stringify : DataManager.Data → string) (r : request)
    (dm : DataManager.t) (fs : Fs.fsys) :
  linked dm → linked (serve JSON_stringify r (dm, fs)).1.
Proof.
  intros Hdm. destruct r; cbn [serve].
  - (* createCamera *)
    unfold DataManager.createCamera. saved. cbn [fst].
    apply (linked_by_ids dm); [by left| |done|done].
    intros id Hid _. apply camera_found. apply camera_found in Hid.
    cbn. apply Exists_app. by left.
  - (* updateCamera *)
    unfold DataManager.updateCamera.
    destruct (DataManager.findIndex _ _) as [index|]; [|done]. saved. cbn [fst].
    apply (linked_by_ids dm); [by left| |done|done].
    intros i Hi _. apply camera_found. apply camera_found in Hi. cbn.
    by apply Exists_alter.
  - (* deleteCamera *)
    unfold DataManager.deleteCamera.
    destruct (0 <? _)%nat eqn:Hused; [done|]. saved. cbn [fst].
    apply filter_none in Hused.
    apply (linked_by_ids dm); [by left| |done|done].
    intros i Hi (s & Hs & <-). apply camera_found. apply camera_found in Hi. cbn.
    apply Exists_exists in Hi as (c & Hc & Heq). apply Exists_exists. exists c.
    split; [|done]. apply elem_of_List_filter. split; [done|].
    apply negb_true_iff. apply strict_eq_true in Heq. rewrite Heq.
    rewrite Forall_forall in Hused. by apply Hused.
  - (* createLens *)
    unfold DataManager.createLens. saved. cbn [fst].
    apply (linked_by_ids dm); [by left|done| |done].
    intros id Hid _. apply lens_found. apply lens_found in Hid.
    cbn. apply Exists_app. by left.
  - (* updateLens *)
    unfold DataManager.updateLens.
    destruct (DataManager.findIndex _ _) as [index|]; [|done]. saved. cbn [fst].
    apply (linked_by_ids dm); [by left|done| |done].
    intros i Hi _. apply lens_found. apply lens_found in Hi. cbn.
    by apply Exists_alter.
  - (* deleteLens *)
    unfold DataManager.deleteLens.
    destruct (0 <? _)%nat eqn:Hused; [done|]. saved. cbn [fst].
    apply filter_none in Hused.
    apply (linked_by_ids dm); [by left|done| |done].
    intros i Hi (s & Hs & <-). apply lens_found. apply lens_found in Hi. cbn.
    apply Exists_exists in Hi as (c & Hc & Heq). apply Exists_exists. exists c.
    split; [|done]. apply elem_of_List_filter. split; [done|].
    apply negb_true_iff. apply strict_eq_true in Heq. rewrite Heq.
    rewrite Forall_forall in Hused. by apply Hused.
  - unfold DataManager.createFilm. saved. cbn [fst].
    by apply (linked_by_ids dm); [left|..].
  - unfold DataManager.updateFilm.
    destruct (DataManager.findIndex _ _) as [index|]; [|done]. saved. cbn [fst].
    by apply (linked_by_ids dm); [left|..].
  - unfold DataManager.deleteFilm. saved. cbn [fst].
    by apply (linked_by_ids dm); [left|..].
  - unfold DataManager.createPhotographer. saved. cbn [fst].
    by apply (linked_by_ids dm); [left|..].
  - unfold DataManager.updatePhotographer.
    destruct (DataManager.findIndex _ _) as [index|]; [|done]. saved. cbn [fst].
    by apply (linked_by_ids dm); [left|..].
  - unfold DataManager.deletePhotographer. saved. cbn [fst].
    by apply (linked_by_ids dm); [left|..].
  - (* createSetup *)
    unfold DataManager.createSetup.
    destruct (DataManager.getCameraById dm cameraId) as [camera|] eqn:Hc; [|done].
    destruct (DataManager.getLensById dm lensId) as [lens|] eqn:Hl; [|done].
    saved. cbn [fst].
    apply (linked_by_ids dm); [|done|done|done].
    intros s. cbn. rewrite elem_of_app, list_elem_of_singleton.
    intros [?| ->]; [by left|right]. cbn. by rewrite Hc, Hl.
  - (* updateSetup *)
    unfold DataManager.updateSetup.
    destruct (DataManager.findIndex _ _) as [index|]; [|done].
    destruct (DataManager.getCameraById dm cameraId) as [camera|] eqn:Hc; [|done].
    destruct (DataManager.getLensById dm lensId) as [lens|] eqn:Hl; [|done].
    saved. cbn [fst].
    apply (linked_by_ids dm); [|done|done|done].
    intros s. cbn. intros [?|(s0 & Hs0 & ->)]%elem_of_alter; [by left|right].
    cbn. rewrite Hc, Hl. split; [|done]. by apply Hdm.
  - (* deleteSetup *)
    unfold DataManager.deleteSetup. saved. cbn [fst].
    apply (linked_by_ids dm); [|done|done|done].
    intros s. cbn. intros [Hs _]%elem_of_List_filter. by left.
Qed.

(** X23.  No call breaks the links of the store.  When every setup has a
    string for an identifier and names a camera and a lens that can be found,
    the same holds after any create, update or delete, whether or not the data
    file could be saved; so it holds after any sequence of calls on a store
    that started empty. *)
Theorem store_stays_linked (JSON_stringify : DataManager.Data → string)
    (requests : list request) (dm : DataManager.t) (fs : Fs.fsys) (file : string) :
  (linked dm → linked (fold_left (fun st r => serve JSON_stringify r st) requests (dm, fs)).1) ∧
  linked (fold_left (fun st r => serve JSON_stringify r st) requests
            ({| DataManager.DATA_FILE := file; DataManager.data := DataManager.empty |}, fs)).1.
Proof.
  assert (Hall : ∀ st, linked st.1 →
            linked (fold_left (fun st r => serve JSON_stringify r st) requests st).1).
  { induction requests as [|r rest IH]; intros [dm0 fs0] H0; [done|].
    cbn [fold_left]. apply IH. by apply serve_keeps_linked. }
  split; [apply (Hall (dm, fs))|]. apply Hall. intros s Hs. by apply elem_of_nil in Hs.
Qed.

Lemma strict_eq_sym (a b : JS.value) : JS.strict_eq a b = JS.strict_eq b a.
Proof.
  destruct a as [| |x|[x|]|x|x], b as [| |y|[y|]|y|y]; cbn; try done.
  - by destruct x, y.
  - apply Z.eqb_sym.
  - apply String.eqb_sym.
Qed.

Lemma find_filter_neg {A : Type} (p : A → bool) (l : list A) :
  List.find p (List.filter (fun x => negb (p x)) l) = None.
Proof.
  induction l as [|x l IH]; [done|]. cbn. destruct (p x) eqn:Hx; cbn; [done|].
  by rewrite Hx.
Qed.

Lemma find_filter_kept {A : Type} (p q : A → bool) (l : list A) :
  (∀ x, p x = true → q x = true) → List.find p (List.filter q l) = List.find p l.
Proof.
  intros Hpq. induction l as [|x l IH]; [done|]. cbn.
  destruct (p x) eqn:Hp.
  - rewrite (Hpq x Hp). cbn. by rewrite Hp.
  - destruct (q x); cbn; [by rewrite Hp|done].
Qed.

Lemma find_snoc {A : Type} (p : A → bool) (l : list A) (x : A) :
  List.find p (l ++ [x])
  = match List.find p l with
    | Some y => Some y
    | None => if p x then Some x else None
    end.
Proof.
  induction l as [|y l IH]; [done|]. cbn. by destruct (p y).
Qed.

Lemma findIndex_find {A : Type} (p : A → bool) (l : list A) :
  match DataManager.findIndex p l with
  | None => List.find p l = None
  | Some i => ∃ x, l !! i = Some x ∧ List.find p l = Some x ∧ p x = true
  end.
Proof.
  induction l as [|y l IH]; [done|]. cbn. destruct (p y) eqn:Hy; [by exists y|].
  destruct (DataManager.findIndex p l) as [i|]; cbn; [|done].
  destruct IH as (x & ? & ? & ?). by exists x.
Qed.

Lemma find_alter_first {A : Type} (p : A → bool) (f : A → A) (l : list A) (i : nat) (x : A) :
  DataManager.findIndex p l = Some i → l !! i = Some x → p (f x) = true →
  List.find p (alter f i l) = Some (f x).
Proof.
  revert i. induction l as [|y l IH]; intros i; [done|]. cbn.
  destruct (p y) eqn:Hy.
  - intros [= <-] [= ->] Hfx. cbn. by rewrite Hfx.
  - destruct (DataManager.findIndex p l) as [j|]; [|done]. cbn.
    intros [= <-] Hx Hfx. cbn. rewrite Hy. by apply IH.
Qed.

Lemma find_alter_other {A : Type} (q : A → bool) (f : A → A) (l : list A) (i : nat) :
  (∀ x, l !! i = Some x → q x = false ∧ q (f x) = false) →
  List.find q (alter f i l) = List.find q l.
Proof.
  revert i. induction l as [|y l IH]; intros [|i] Hx; cbn; try done.
  - destruct (Hx y eq_refl) as [-> ->]. done.
  - destruct (q y); [done|]. by apply IH.
Qed.

Lemma saveData_outcome (JSON_stringify : DataManager.Data → string) (dm : DataManager.t)
    (fs : Fs.fsys) :
  DataManager.saveData JSON_stringify dm fs
  = if decide (DataManager.DATA_FILE dm ∈ Fs.locked fs) then (fs, false)
    else ({| Fs.files := <[DataManager.DATA_FILE dm :=
                             JSON_stringify (DataManager.data dm)]> (Fs.files fs);
             Fs.locked := Fs.locked fs |}, true).
Proof.
  unfold DataManager.saveData, Fs.writeFileSync.
  by destruct (decide (DataManager.DATA_FILE dm ∈ Fs.locked fs)).
Qed.

(** X24.  A camera or a lens that a setup names cannot be deleted: the call
    returns [success: false] and changes neither the store nor the file
    system.  One that no setup names is removed, every object under another
    identifier stays, and [success] tells whether the data file was
    written. *)
Theorem equipment_in_use_is_not_deleted (JSON_stringify : DataManager.Data → string)
    (dm : DataManager.t) (fs : Fs.fsys) (id : JS.value) :
  let setups := DataManager.setups (DataManager.data dm) in
  let camera := DataManager.deleteCamera JSON_stringify dm fs id in
  let lens := DataManager.deleteLens JSON_stringify dm fs id in
  (Exists (fun s => JS.strict_eq (DataManager.s_cameraId s) id = true) setups →
     camera = (dm, fs, {| DataManager.success := false;
                          DataManager.message :=
                            "Cannot delete camera: it is used in existing setups" |})) ∧
  (Forall (fun s => JS.strict_eq (DataManager.s_cameraId s) id = false) setups →
     DataManager.getCameraById camera.1.1 id = None ∧
     (∀ id', JS.strict_eq id' id = false →
        DataManager.getCameraById camera.1.1 id' = DataManager.getCameraById dm id') ∧
     DataManager.success camera.2
       = bool_decide (DataManager.DATA_FILE dm ∉ Fs.locked fs)) ∧
  (Exists (fun s => JS.strict_eq (DataManager.s_lensId s) id = true) setups →
     lens = (dm, fs, {| DataManager.success := false;
                        DataManager.message :=
                          "Cannot delete lens: it is used in existing setups" |})) ∧
  (Forall (fun s => JS.strict_eq (DataManager.s_lensId s) id = false) setups →
     DataManager.getLensById lens.1.1 id = None ∧
     (∀ id', JS.strict_eq id' id = false →
        DataManager.getLensById lens.1.1 id' = DataManager.getLensById dm id') ∧
     DataManager.success lens.2
       = bool_decide (DataManager.DATA_FILE dm ∉ Fs.locked fs)).
Proof.
  assert (Hsome : ∀ (p : DataManager.SetupObj → bool) l,
            Exists (fun s => p s = true) l → (0 <? List.length (List.filter p l))%nat = true).
  { intros p l. induction l as [|s l IH]; [by intros ?%Exists_nil|].
    cbn. destruct (p s) eqn:Hs; [done|]. intros [?|?]%Exists_cons; [congruence|by apply IH]. }
  assert (Hnone : ∀ (p : DataManager.SetupObj → bool) l,
            Forall (fun s => p s = false) l → (0 <? List.length (List.filter p l))%nat = false).
  { intros p l. induction l as [|s l IH]; [done|].
    intros [Hs Hl]%Forall_cons. cbn. rewrite Hs. by apply IH. }
  cbn zeta. unfold DataManager.deleteCamera, DataManager.deleteLens.
  split; [|split; [|split]].
  - intros Hused. by rewrite (Hsome _ _ Hused).
  - intros Hfree. rewrite (Hnone _ _ Hfree), saveData_outcome.
    destruct (decide (_ ∈ Fs.locked fs)) as [Hlock|Hlock]; cbn [fst snd DataManager.success];
      (split; [|split]).
    1, 4: unfold DataManager.getCameraById; cbn; by rewrite find_filter_neg.
    1, 3: intros id' Hid'; unfold DataManager.getCameraById; cbn; f_equal;
          apply find_filter_kept; intros c ->%strict_eq_true; by rewrite Hid'.
    + by rewrite bool_decide_eq_false_2 by (by intros ?).
    + by rewrite bool_decide_eq_true_2.
  - intros Hused. by rewrite (Hsome _ _ Hused).
  - intros Hfree. rewrite (Hnone _ _ Hfree), saveData_outcome.
    destruct (decide (_ ∈ Fs.locked fs)) as [Hlock|Hlock]; cbn [fst snd DataManager.success];
      (split; [|split]).
    1, 4: unfold DataManager.getLensById; cbn; by rewrite find_filter_neg.
    1, 3: intros id' Hid'; unfold DataManager.getLensById; cbn; f_equal;
          apply find_filter_kept; intros c ->%strict_eq_true; by rewrite Hid'.
    + by rewrite bool_decide_eq_false_2 by (by intros ?).
    + by rewrite bool_decide_eq_true_2.
Qed.

(** X25.  A camera created under an identifier the store does not hold yet can
    be read back under it, goes last in the list, and hides no other camera.
    The call returns the camera when the data file was saved and [null] when
    it was not, although the camera has joined the store either way;
    [createPhotographer] returns its object in both cases. *)
Theorem created_camera_is_found (JSON_stringify : DataManager.Data → string)
    (dm : DataManager.t) (fs : Fs.fsys) (uuid now : string) (maker model name email : JS.value) :
  DataManager.getCameraById dm (JS.Str uuid) = None →
  let camera := {| DataManager.c_id := JS.Str uuid; DataManager.c_maker := maker;
                   DataManager.c_model := model; DataManager.c_createdAt := JS.Str now |} in
  let created := DataManager.createCamera JSON_stringify dm fs uuid now maker model in
  DataManager.getCameraById created.1.1 (JS.Str uuid) = Some camera ∧
  DataManager.getCameras created.1.1 = DataManager.getCameras dm ++ [camera] ∧
  (∀ id, JS.strict_eq id (JS.Str uuid) = false →
     DataManager.getCameraById created.1.1 id = DataManager.getCameraById dm id) ∧
  created.2 = (if decide (DataManager.DATA_FILE dm ∈ Fs.locked fs) then None else Some camera) ∧
  Fs.files created.1.2 !! DataManager.DATA_FILE dm
  = (if decide (DataManager.DATA_FILE dm ∈ Fs.locked fs)
     then Fs.files fs !! DataManager.DATA_FILE dm
     else Some (JSON_stringify (DataManager.data created.1.1))) ∧
  (DataManager.createPhotographer JSON_stringify dm fs uuid now name email).2
  = {| DataManager.p_id := JS.Str uuid; DataManager.p_name := name;
       DataManager.p_email := email; DataManager.p_createdAt := JS.Str now |}.
Proof.
  intros Hfresh. cbn zeta.
  unfold DataManager.createCamera, DataManager.createPhotographer.
  rewrite !saveData_outcome.
  unfold DataManager.set_cameras, DataManager.set_photographers.
  cbn [DataManager.DATA_FILE].
  unfold DataManager.getCameraById in *.
  apply fmap_None in Hfresh.
  split; [|split; [|split; [|split; [|split]]]].
  - destruct (decide _); cbn [fst snd DataManager.data DataManager.cameras];
      rewrite find_snoc, Hfresh; cbn; by rewrite String.eqb_refl.
  - unfold DataManager.getCameras.
    destruct (decide _); cbn [fst snd DataManager.data DataManager.cameras];
      by rewrite fmap_app.
  - intros id Hid. rewrite strict_eq_sym in Hid.
    destruct (decide _); cbn [fst snd DataManager.data DataManager.cameras];
      rewrite find_snoc; cbn [DataManager.c_id]; rewrite Hid;
      by destruct (List.find (fun c => JS.strict_eq (DataManager.c_id c) id) _).
  - by destruct (decide _).
  - destruct (decide _); cbn [fst snd Fs.files]; [done|]. by rewrite lookup_insert_eq.
  - by destruct (decide _).
Qed.

Lemma created_camera_is_found_example :
  let camera := {| DataManager.c_id := JS.Str "c2"; DataManager.c_maker := JS.Str "Nikon";
                   DataManager.c_model := JS.Str "FM2";
                   DataManager.c_createdAt := JS.Str "2025-07-02" |} in
  let created := DataManager.createCamera Studio.stringify Studio.store Sample.disk
                   "c2" "2025-07-02" (JS.Str "Nikon") (JS.Str "FM2") in
  DataManager.getCameraById created.1.1 (JS.Str "c2") = Some camera ∧
  DataManager.getCameras created.1.1 = DataManager.getCameras Studio.store ++ [camera] ∧
  (∀ id, JS.strict_eq id (JS.Str "c2") = false →
     DataManager.getCameraById created.1.1 id = DataManager.getCameraById Studio.store id) ∧
  created.2 = (if decide (DataManager.DATA_FILE Studio.store ∈ Fs.locked Sample.disk)
               then None else Some camera) ∧
  Fs.files created.1.2 !! DataManager.DATA_FILE Studio.store
  = (if decide (DataManager.DATA_FILE Studio.store ∈ Fs.locked Sample.disk)
     then Fs.files Sample.disk !! DataManager.DATA_FILE Studio.store
     else Some (Studio.stringify (DataManager.data created.1.1))) ∧
  (DataManager.createPhotographer Studio.stringify Studio.store Sample.disk
     "c2" "2025-07-02" (JS.Str "John Roe") JS.Null).2
  = {| DataManager.p_id := JS.Str "c2"; DataManager.p_name := JS.Str "John Roe";
       DataManager.p_email := JS.Null; DataManager.p_createdAt := JS.Str "2025-07-02" |}.
Proof.
  apply (created_camera_is_found Studio.stringify Studio.store Sample.disk "c2" "2025-07-02"
           (JS.Str "Nikon") (JS.Str "FM2") (JS.Str "John Roe") JS.Null).
  reflexivity.
Defined.

(** X26.  An update under an identifier the store does not find returns
    [false] and changes nothing.  Otherwise the first camera under that
    identifier takes the new maker and model and keeps its identifier and its
    creation time, cameras under other identifiers are as they were, and the
    result tells whether the data file was written. *)
Theorem updated_camera_keeps_its_identity (JSON_stringify : DataManager.Data → string)
    (dm : DataManager.t) (fs : Fs.fsys) (id maker model : JS.value) :
  let updated := DataManager.updateCamera JSON_stringify dm fs id maker model in
  match DataManager.getCameraById dm id with
  | None => updated = (dm, fs, false)
  | Some camera =>
      DataManager.getCameraById updated.1.1 id
      = Some {| DataManager.c_id := DataManager.c_id camera; DataManager.c_maker := maker;
                DataManager.c_model := model;
                DataManager.c_createdAt := DataManager.c_createdAt camera |} ∧
      List.length (DataManager.getCameras updated.1.1)
      = List.length (DataManager.getCameras dm) ∧
      (∀ id', JS.strict_eq id' id = false →
         DataManager.getCameraById updated.1.1 id' = DataManager.getCameraById dm id') ∧
      updated.2 = bool_decide (DataManager.DATA_FILE dm ∉ Fs.locked fs)
  end.
Proof.
  cbn zeta. unfold DataManager.updateCamera, DataManager.getCameraById.
  pose proof (findIndex_find (fun c => JS.strict_eq (DataManager.c_id c) id)
                (DataManager.cameras (DataManager.data dm))) as Hfind.
  destruct (DataManager.findIndex _ _) as [index|] eqn:Hindex.
  - destruct Hfind as (c & Hc & -> & Hid). cbn [fmap option_fmap option_map].
    rewrite saveData_outcome. unfold DataManager.set_cameras. cbn [DataManager.DATA_FILE].
    assert (Hrest :
      List.find (fun c0 => JS.strict_eq (DataManager.c_id c0) id)
        (alter (fun c0 => {| DataManager.c_id := DataManager.c_id c0;
                             DataManager.c_maker := maker; DataManager.c_model := model;
                             DataManager.c_createdAt := DataManager.c_createdAt c0 |})
           index (DataManager.cameras (DataManager.data dm)))
      = Some {| DataManager.c_id := DataManager.c_id c; DataManager.c_maker := maker;
                DataManager.c_model := model;
                DataManager.c_createdAt := DataManager.c_createdAt c |}).
    { exact (find_alter_first (fun c0 => JS.strict_eq (DataManager.c_id c0) id)
               (fun c0 => {| DataManager.c_id := DataManager.c_id c0;
                             DataManager.c_maker := maker; DataManager.c_model := model;
                             DataManager.c_createdAt := DataManager.c_createdAt c0 |})
               _ index c Hindex Hc Hid). }
    assert (Hother : ∀ id', JS.strict_eq id' id = false →
      List.find (fun c0 => JS.strict_eq (DataManager.c_id c0) id')
        (alter (fun c0 => {| DataManager.c_id := DataManager.c_id c0;
                             DataManager.c_maker := maker; DataManager.c_model := model;
                             DataManager.c_createdAt := DataManager.c_createdAt c0 |})
           index (DataManager.cameras (DataManager.data dm)))
      = List.find (fun c0 => JS.strict_eq (DataManager.c_id c0) id')
          (DataManager.cameras (DataManager.data dm))).
    { intros id' Hid'. apply find_alter_other. intros x Hx. cbn.
      assert (x = c) as -> by congruence.
      apply strict_eq_true in Hid. rewrite Hid. by rewrite strict_eq_sym. }
    unfold DataManager.getCameras.
    destruct (decide _) as [Hlock|Hlock];
      cbn [fst snd DataManager.data DataManager.cameras]; rewrite Hrest;
      (split; [done|split; [by rewrite !length_fmap, length_alter|split]]).
    + intros id' Hid'. by rewrite Hother.
    + by rewrite bool_decide_eq_false_2 by (by intros ?).
    + intros id' Hid'. by rewrite Hother.
    + by rewrite bool_decide_eq_true_2.
  - by rewrite Hfind.
Qed.

(** ** From the store to a selection *)

Lemma Setup_fromObject_id (s : DataManager.SetupObj) : DataManager.Setup_fromObject s = s.
Proof. by destruct s. Qed.

Lemma getSetups_eq (dm : DataManager.t) :
  DataManager.getSetups dm = DataManager.setups (DataManager.data dm).
Proof.
  unfold DataManager.getSetups. rewrite <- (list_fmap_id (DataManager.setups _)) at 2.
  apply list_fmap_ext. intros _ s _. apply Setup_fromObject_id.
Qed.

Lemma find_elem {A : Type} (p : A → bool) (l : list A) (x : A) :
  List.find p l = Some x → x ∈ l ∧ p x = true.
Proof.
  intros [? ?]%List.find_some. split; [by apply list_elem_of_In|done].
Qed.

(** In a linked store the details of a setup that is found are complete. *)
Lemma linked_details (dm : DataManager.t) (id : JS.value) :
  linked dm → is_Some (DataManager.getSetupById dm id) →
  ∃ s c l,
    DataManager.getSetupWithDetails dm id
    = Some {| DataManager.d_setup := s; DataManager.d_camera := Some c;
              DataManager.d_lens := Some l |}.
Proof.
  intros Hdm [s Hs]. unfold DataManager.getSetupWithDetails. rewrite Hs.
  unfold DataManager.getSetupById in Hs.
  apply fmap_Some in Hs as (s0 & [Hin _]%find_elem & ->). rewrite Setup_fromObject_id.
  destruct (Hdm s0 Hin) as (_ & [c Hc] & [l Hl]). rewrite Hc, Hl. by exists s0, c, l.
Qed.

Lemma linked_setup_found (dm : DataManager.t) (s : DataManager.SetupObj) :
  linked dm → s ∈ DataManager.setups (DataManager.data dm) →
  is_Some (DataManager.getSetupById dm (DataManager.s_id s)).
Proof.
  intros Hdm Hin. unfold DataManager.getSetupById. apply fmap_is_Some, find_is_Some.
  apply Exists_exists. exists s. split; [done|].
  destruct (Hdm s Hin) as (Hid & _). destruct (DataManager.s_id s) as [| |?|?|u|?]; try done.
  cbn. apply String.eqb_refl.
Qed.

Lemma setupChoicesOf_returns (dm : DataManager.t) (setups : list DataManager.SetupObj) :
  linked dm → setups ⊆ DataManager.setups (DataManager.data dm) →
  ∃ choices, CLI.setupChoicesOf dm setups = Ok choices.
Proof.
  intros Hdm. induction setups as [|s rest IH]; intros Hsub; [by eexists|].
  cbn [CLI.setupChoicesOf].
  assert (Hin : s ∈ DataManager.setups (DataManager.data dm)) by (apply Hsub; by left).
  destruct (linked_details dm _ Hdm (linked_setup_found dm s Hdm Hin)) as (s0 & c & l & ->).
  cbn -[CLI.setupChoicesOf].
  destruct IH as [choices ->]; [|by eexists].
  intros x Hx. apply Hsub. by right.
Qed.

Lemma found_not_empty {A B : Type} (f : A → B) (p : A → bool) (l : list A) :
  is_Some (List.find p l) → (List.length (f <$> l) =? 0)%nat = false.
Proof. destruct l; [by intros [? ?]|done]. Qed.

(** X27.  A linked store gives a selection that the processors accept.  When
    the answers name a setup, a film and a photographer that the store finds,
    [selectSetupAndFilm] returns a selection with a camera, a lens and a film,
    the photographer's name, and for shot ISO the number read from the input,
    or the ISO of the film when the input was left empty. *)
Theorem selection_of_a_linked_store_is_valid (dm : DataManager.t)
    (promptWithCancel : CLI.Questions → CLI.Reply)
    (setupId filmId photographerId : JS.value) (shotISO : string) :
  linked dm →
  (∀ questions, promptWithCancel questions = CLI.Answers setupId filmId shotISO photographerId) →
  is_Some (DataManager.getSetupById dm setupId) →
  is_Some (DataManager.getFilmById dm filmId) →
  is_Some (DataManager.getPhotographerById dm photographerId) →
  ∃ selection film photographer,
    DataManager.getFilmById dm filmId = Some film ∧
    DataManager.getPhotographerById dm photographerId = Some photographer ∧
    CLI.selectSetupAndFilm dm promptWithCancel = Ok (CLI.Selected selection) ∧
    complete (Some selection) ∧
    JpegProcessor.validateSelection (Some selection) = Ok () ∧
    Models.film selection = Some (CLI.toFilm film) ∧
    Models.photographer selection = DataManager.p_name photographer ∧
    Models.shotISO selection
    = (if String.eqb shotISO "" then DataManager.f_iso film
       else JS.parseInt (JS.Str shotISO)).
Proof.
  intros Hdm Hprompt Hsetup Hfilm Hphotographer.
  destruct (linked_details dm setupId Hdm Hsetup) as (s & c & l & Hdetails).
  destruct (setupChoicesOf_returns dm (DataManager.getSetups dm) Hdm) as [choices Hchoices].
  { by rewrite getSetups_eq. }
  unfold CLI.selectSetupAndFilm.
  unfold DataManager.getSetups at 1, DataManager.getFilms at 1,
    DataManager.getPhotographers at 1.
  rewrite (found_not_empty _ (fun s => JS.strict_eq (DataManager.s_id s) setupId))
    by (by apply fmap_is_Some in Hsetup).
  rewrite (found_not_empty _ (fun f => JS.strict_eq (DataManager.f_id f) filmId))
    by (by apply fmap_is_Some in Hfilm).
  rewrite (found_not_empty _ (fun p => JS.strict_eq (DataManager.p_id p) photographerId))
    by (by apply fmap_is_Some in Hphotographer).
  destruct Hfilm as [film Hfilm]. destruct Hphotographer as [photographer Hphotographer].
  exists {| Models.setup :=
              Some (CLI.toSetupDetails {| DataManager.d_setup := s;
                                          DataManager.d_camera := Some c;
                                          DataManager.d_lens := Some l |});
            Models.film := Some (CLI.toFilm film);
            Models.shotISO := if String.eqb shotISO "" then DataManager.f_iso film
                              else JS.parseInt (JS.Str shotISO);
            Models.photographer := DataManager.p_name photographer |},
    film, photographer.
  split; [done|]. split; [done|].
  rewrite Hchoices. cbn -[DataManager.getSetupWithDetails DataManager.getFilmById
    DataManager.getPhotographerById JS.parseInt].
  rewrite Hprompt, Hdetails, Hfilm, Hphotographer.
  split.
  - destruct (String.eqb_spec shotISO "") as [->|Hne]; [done|]. by cbn -[JS.parseInt].
  - split; [by eexists _, _, _, _, _|done].
Qed.

Lemma studio_store_linked : linked Studio.store.
Proof.
  intros s Hs. apply list_elem_of_singleton in Hs. rewrite Hs.
  split; [reflexivity|]. split; eexists; reflexivity.
Defined.

Lemma selection_of_a_linked_store_example :
  ∃ selection film photographer,
    DataManager.getFilmById Studio.store (JS.Str "f1") = Some film ∧
    DataManager.getPhotographerById Studio.store (JS.Str "p1") = Some photographer ∧
    CLI.selectSetupAndFilm Studio.store Studio.prompt = Ok (CLI.Selected selection) ∧
    complete (Some selection) ∧
    JpegProcessor.validateSelection (Some selection) = Ok () ∧
    Models.film selection = Some (CLI.toFilm film) ∧
    Models.photographer selection = DataManager.p_name photographer ∧
    Models.shotISO selection
    = (if String.eqb "" "" then DataManager.f_iso film else JS.parseInt (JS.Str "")).
Proof.
  apply (selection_of_a_linked_store_is_valid Studio.store Studio.prompt
           (JS.Str "s1") (JS.Str "f1") (JS.Str "p1") "").
  - exact studio_store_linked.
  - reflexivity.
  - eexists. reflexivity.
  - eexists. reflexivity.
  - eexists. reflexivity.
Defined.

(** The selection built from the sample store is the sample selection at
    box speed, up to the identifiers. *)
Example selection_of_the_sample_store :
  CLI.selectSetupAndFilm Studio.store Studio.prompt = Ok (CLI.Selected Sample.box_speed).
Proof. reflexivity. Qed.

(** ** Answers typed at the prompt *)

Lemma trimStart_head (s : string) (c : ascii) (r : string) :
  JS.trimStart s = String c r → JS.is_space c = false.
Proof.
  induction s as [|x s IH]; [done|]. cbn [JS.trimStart].
  destruct (JS.is_space x) eqn:Hx; [done|]. by intros [= <- <-].
Qed.

Lemma trimEnd_empty (s : string) :
  JS.trimEnd s = "" → s = "" ∨ ∃ c r, s = String c r ∧ JS.is_space c = true.
Proof.
  destruct s as [|c r]; [by left|]. cbn [JS.trimEnd]. right. exists c, r. split; [done|].
  destruct (JS.trimEnd r); [|done]. by destruct (JS.is_space c).
Qed.

Lemma trim_empty (s : string) : JS.trim s = "" → JS.trimStart s = "".
Proof.
  unfold JS.trim. intros [H|(c & r & H & Hc)]%trimEnd_empty; [done|].
  apply trimStart_head in H. congruence.
Qed.

Lemma parseInt_blank (s : string) : JS.trim s = "" → JS.parseInt_string s = JS.NaN.
Proof. intros H%trim_empty. unfold JS.parseInt_string. by rewrite H. Qed.

(** X28.  What an accepted answer to the shot ISO question becomes.  The empty
    answer gives the ISO of the film; an answer of white space alone is
    accepted too and gives [NaN], which is falsy, so that no writer records
    it; any other accepted answer gives a positive integer.  (The answer has
    at most 15 characters, the range in which [parseInt] is exact.) *)
Theorem accepted_shot_iso (input : string) (filmISO : JS.value) :
  (String.length input ≤ 15)%nat →
  CLI.validateShotISO input = JS.Bool true →
  let shotISO := if JS.truthy (JS.Str input) then JS.parseInt (JS.Str input) else filmISO in
  (input = "" ∧ shotISO = filmISO) ∨
  (input ≠ "" ∧ JS.trim input = "" ∧ shotISO = JS.Num JS.NaN ∧ JS.truthy shotISO = false ∧
   Sidecar.sensitivity_element shotISO = "") ∨
  (∃ n, shotISO = JS.Num (JS.Int n) ∧ 0 < n).
Proof.
  intros _. unfold CLI.validateShotISO. cbn [JS.truthy].
  destruct (String.eqb_spec input "") as [->|Hne]; [by left|]. cbn [negb].
  destruct (String.eqb_spec (JS.trim input) "") as [Hblank|Hfull]; cbn [negb].
  - intros _. right. left. unfold JS.parseInt. cbn [JS.toString].
    by rewrite (parseInt_blank _ Hblank).
  - unfold JS.parseInt. cbn [JS.toString].
    destruct (JS.parseInt_string input) as [n|]; [|done].
    destruct (0 <? n) eqn:Hn; [|done]. intros _. right. right. exists n.
    split; [done|]. by apply Z.ltb_lt.
Qed.

Lemma accepted_shot_iso_example :
  let shotISO := if JS.truthy (JS.Str "800") then JS.parseInt (JS.Str "800")
                 else JS.Num (JS.Int 400) in
  ("800" = "" ∧ shotISO = JS.Num (JS.Int 400)) ∨
  ("800" ≠ "" ∧ JS.trim "800" = "" ∧ shotISO = JS.Num JS.NaN ∧ JS.truthy shotISO = false ∧
   Sidecar.sensitivity_element shotISO = "") ∨
  (∃ n, shotISO = JS.Num (JS.Int n) ∧ 0 < n).
Proof.
  apply (accepted_shot_iso "800" (JS.Num (JS.Int 400))); [cbn; lia|reflexivity].
Defined.

(** ** The folder path typed or dropped at the prompt *)

Lemma unescape_plain (s : string) :
  lacks "\" s = true → CLI.unescape_spaces s = s.
Proof.
  induction s as [|c s IH]; [done|]. rewrite lacks_cons.
  intros [Hc Hs]%andb_true_iff. apply negb_true_iff, Ascii.eqb_neq in Hc.
  cbn [CLI.unescape_spaces].
  destruct c as [[] [] [] [] [] [] [] []]; by rewrite ?(IH Hs).
Qed.

Lemma unescape_escape (s : string) :
  lacks "\" s = true → CLI.unescape_spaces (escape_spaces s) = s.
Proof.
  induction s as [|c s IH]; [done|]. rewrite lacks_cons.
  intros [Hc Hs]%andb_true_iff. apply negb_true_iff, Ascii.eqb_neq in Hc.
  cbn [escape_spaces]. destruct (Ascii.eqb_spec c " ") as [->|Hsp].
  - cbn [CLI.unescape_spaces]. by rewrite (IH Hs).
  - cbn [CLI.unescape_spaces].
    destruct c as [[] [] [] [] [] [] [] []]; by rewrite ?(IH Hs).
Qed.

Lemma trimEnd_length (s : string) : (String.length (JS.trimEnd s) ≤ String.length s)%nat.
Proof.
  induction s as [|c s IH]; [done|]. cbn [JS.trimEnd].
  destruct (JS.trimEnd s); [destruct (JS.is_space c)|]; cbn in *; lia.
Qed.

Lemma trimStart_length (s : string) : (String.length (JS.trimStart s) ≤ String.length s)%nat.
Proof.
  induction s as [|c s IH]; [done|]. cbn [JS.trimStart].
  destruct (JS.is_space c); cbn in *; lia.
Qed.

(** A string that [trim] leaves alone is one that neither [trimStart] nor
    [trimEnd] changes. *)
Lemma trim_fixed (s : string) :
  JS.trim s = s → JS.trimStart s = s ∧ JS.trimEnd s = s.
Proof.
  unfold JS.trim. intros H.
  assert (Hstart : JS.trimStart s = s).
  { destruct s as [|c r]; [done|]. cbn [JS.trimStart] in *.
    destruct (JS.is_space c); [|done].
    apply (f_equal String.length) in H.
    pose proof (trimEnd_length (JS.trimStart r)). pose proof (trimStart_length r).
    cbn in H. lia. }
  split; [done|]. by rewrite Hstart in H.
Qed.

Lemma trimEnd_snoc (s : string) (q : ascii) :
  JS.is_space q = false → JS.trimEnd (s +:+ String q "") = s +:+ String q "".
Proof.
  intros Hq. induction s as [|c s IH].
  - rewrite append_nil_l. cbn. by rewrite Hq.
  - rewrite append_cons. cbn [JS.trimEnd]. rewrite IH.
    destruct s; [by rewrite append_nil_l|by rewrite append_cons].
Qed.

Lemma escape_cons (c : ascii) (s : string) :
  escape_spaces (String c s)
  = if Ascii.eqb c " " then String "\" (String " " (escape_spaces s))
    else String c (escape_spaces s).
Proof. reflexivity. Qed.

Lemma trimEnd_escape (s : string) :
  JS.trimEnd s = s → JS.trimEnd (escape_spaces s) = escape_spaces s.
Proof.
  induction s as [|c s IH]; [done|]. cbn [JS.trimEnd].
  destruct (JS.trimEnd s) as [|c' s'] eqn:Hs.
  - destruct (JS.is_space c) eqn:Hc; [done|]. intros [= <-]. cbn [escape_spaces].
    destruct (Ascii.eqb_spec c " ") as [->|_]; [done|]. cbn. by rewrite Hc.
  - intros [= <-]. specialize (IH eq_refl).
    assert (Hne : ∃ x r, escape_spaces (String c' s') = String x r).
    { rewrite escape_cons. destruct (Ascii.eqb c' " "); by eexists _, _. }
    destruct Hne as (x & r & Hr).
    rewrite (escape_cons c). destruct (Ascii.eqb c " ").
    + cbn [JS.trimEnd]. rewrite IH, Hr. done.
    + cbn [JS.trimEnd]. rewrite IH, Hr. done.
Qed.

Lemma endsWith_append (a b : string) : CLI.endsWith (a +:+ b) b = true.
Proof.
  unfold CLI.endsWith. rewrite length_append.
  replace (String.length a + String.length b - String.length b)%nat
    with (String.length a) by lia.
  rewrite substring_suffix, String.eqb_refl, andb_true_r. apply Nat.leb_le. lia.
Qed.

(** A path between two quotation marks [q]. *)
Lemma quoted_path (q : ascii) (p : string) :
  JS.is_space q = false →
  let s := String q p +:+ String q "" in
  JS.trim s = s ∧ JS.starts_with (String q "") s = true ∧
  CLI.endsWith s (String q "") = true ∧ CLI.slice_1_minus_1 s = p.
Proof.
  intros Hq. cbn zeta. split; [|split; [|split]].
  - unfold JS.trim. rewrite append_cons. cbn [JS.trimStart]. rewrite Hq.
    rewrite <- append_cons. by apply trimEnd_snoc.
  - rewrite append_cons. cbn. by rewrite Ascii.eqb_refl.
  - apply endsWith_append.
  - unfold CLI.slice_1_minus_1. rewrite length_append, append_cons. cbn [String.length].
    replace (S (String.length p) + 1 - 2)%nat with (String.length p) by lia.
    cbn [String.substring]. apply substring_prefix.
Qed.

(** X29.  [cleanFolderPath] gives back the path that was meant.  A path without
    backslash, without white space at its ends and without a quotation mark at
    its start comes back unchanged when it is typed as it is, put between
    double or single quotation marks, or typed with a backslash before every
    space. *)
Theorem cleanFolderPath_recovers_the_path (p : string) :
  JS.trim p = p → lacks "\" p = true →
  JS.starts_with Sidecar.quote p = false → JS.starts_with "'" p = false →
  CLI.cleanFolderPath p = p ∧
  CLI.cleanFolderPath (Sidecar.quote +:+ p +:+ Sidecar.quote) = p ∧
  CLI.cleanFolderPath ("'" +:+ p +:+ "'") = p ∧
  CLI.cleanFolderPath (escape_spaces p) = p.
Proof.
  intros Htrim Hplain Hdouble Hsingle.
  split; [|split; [|split]].
  - unfold CLI.cleanFolderPath. rewrite Htrim, Hdouble, Hsingle. cbn [andb orb].
    by apply unescape_plain.
  - unfold CLI.cleanFolderPath, Sidecar.quote.
    destruct (quoted_path "034" p eq_refl) as (Ht & Hs & He & Hsl).
    change (String "034" "" +:+ p +:+ String "034" "") with (String "034" p +:+ String "034" "").
    rewrite Ht, Hs, He. cbn [andb orb]. rewrite Hsl, Htrim. by apply unescape_plain.
  - unfold CLI.cleanFolderPath.
    destruct (quoted_path "'" p eq_refl) as (Ht & Hs & He & Hsl).
    change ("'" +:+ p +:+ "'") with (String "'" p +:+ String "'" "").
    rewrite Ht, Hs, He. rewrite andb_true_l, orb_true_r. rewrite Hsl, Htrim.
    by apply unescape_plain.
  - unfold CLI.cleanFolderPath.
    destruct (trim_fixed p Htrim) as [Hstart Hend].
    assert (Hkeep : JS.trim (escape_spaces p) = escape_spaces p
                    ∧ JS.starts_with Sidecar.quote (escape_spaces p) = false
                    ∧ JS.starts_with "'" (escape_spaces p) = false).
    { destruct p as [|c r]; [done|].
      pose proof (trimStart_head _ _ _ Hstart) as Hc.
      pose proof (trimEnd_escape _ Hend) as Hesc.
      cbn [escape_spaces] in *.
      destruct (Ascii.eqb_spec c " ") as [->|Hsp]; [done|].
      unfold JS.trim. cbn [JS.trimStart]. rewrite Hc. split; [done|].
      unfold Sidecar.quote in *. cbn [JS.starts_with] in *. split.
      - by destruct (Ascii.eqb "034" c).
      - by destruct (Ascii.eqb "'" c). }
    destruct Hkeep as (-> & -> & ->). cbn [andb orb]. by apply unescape_escape.
Qed.

Lemma cleanFolderPath_example :
  CLI.cleanFolderPath "/Volumes/Film Scans/roll 12" = "/Volumes/Film Scans/roll 12" ∧
  CLI.cleanFolderPath (Sidecar.quote +:+ "/Volumes/Film Scans/roll 12" +:+ Sidecar.quote)
    = "/Volumes/Film Scans/roll 12" ∧
  CLI.cleanFolderPath ("'" +:+ "/Volumes/Film Scans/roll 12" +:+ "'")
    = "/Volumes/Film Scans/roll 12" ∧
  CLI.cleanFolderPath (escape_spaces "/Volumes/Film Scans/roll 12")
    = "/Volumes/Film Scans/roll 12".
Proof. apply (cleanFolderPath_recovers_the_path "/Volumes/Film Scans/roll 12"); reflexivity. Defined.

(** ** The composed lens model *)

Lemma trimStart_blank (s : string) : JS.trimStart s = "" ↔ blank s = true.
Proof.
  induction s as [|c s IH]; [done|]. cbn [JS.trimStart blank].
  destruct (JS.is_space c); [by rewrite IH|]. split; [done|]. by intros [= ].
Qed.

Lemma trim_blank (s : string) : JS.trim s = "" ↔ blank s = true.
Proof.
  split.
  - intros H%trim_empty. by apply trimStart_blank.
  - intros H%trimStart_blank. unfold JS.trim. by rewrite H.
Qed.

Lemma blank_append (a b : string) : blank (a +:+ b) = blank a && blank b.
Proof.
  induction a as [|c a IH]; [by rewrite append_nil_l|].
  rewrite append_cons. cbn [blank]. by rewrite IH, andb_assoc.
Qed.

Lemma blank_join (parts : list string) :
  blank (JS.join " " parts) = forallb blank parts.
Proof.
  induction parts as [|p parts IH]; [done|].
  destruct parts as [|q parts]; [cbn; by rewrite andb_true_r|].
  cbn [JS.join forallb] in *. rewrite !blank_append, IH. done.
Qed.

Lemma stored_string_blank (s : string) : stored (JS.Str s) = negb (blank s).
Proof.
  unfold stored. cbn [JS.truthy JS.blank_string].
  destruct (String.eqb_spec (JS.trim s) "") as [Ht|Ht].
  - rewrite andb_false_r. symmetry. apply negb_false_iff. by apply trim_blank.
  - rewrite andb_true_r. destruct (String.eqb_spec s "") as [->|Hs]; [done|].
    cbn. symmetry. apply negb_true_iff. apply not_true_is_false. by rewrite <- trim_blank.
Qed.

Lemma lens_model_stored (l : Models.Lens) :
  stored (JS.Str (Models.getLensModelWithAperture l)) = true ↔
  JS.truthy (Models.focalLength l) = true ∨ JS.truthy (Models.aperture l) = true ∨
  (JS.truthy (Models.lens_model l) = true ∧ JS.trim (JS.toString (Models.lens_model l)) ≠ "").
Proof.
  rewrite stored_string_blank, negb_true_iff. unfold Models.getLensModelWithAperture.
  rewrite blank_join, trim_blank.
  assert (Hmm : ∀ s, blank (s +:+ "mm") = false).
  { intros s. rewrite blank_append. apply andb_false_r. }
  assert (Hf : ∀ s, blank ("f/" +:+ s) = false) by done.
  destruct (JS.truthy (Models.lens_model l)), (JS.truthy (Models.focalLength l)),
    (JS.truthy (Models.aperture l)); cbn [app forallb];
    rewrite ?Hmm, ?Hf, ?andb_false_r, ?andb_true_r; cbn [andb];
    try (destruct (blank (JS.toString (Models.lens_model l)))); intuition congruence.
Qed.

(** X30.  The lens model that [getLensModelWithAperture] composes is stored,
    and the LensModel tag written on a clean object, exactly when the lens has
    a focal length, an aperture, or a model that is not blank; otherwise the
    tag stays absent. *)
Theorem lens_model_tag_is_written_iff (lib : Libraries) (cam : Models.Camera)
    (l : Models.Lens) (f : Models.Film) (shot ph : JS.value) :
  let written :=
    JS.truthy (Models.focalLength l) = true ∨ JS.truthy (Models.aperture l) = true ∨
    (JS.truthy (Models.lens_model l) = true ∧
     JS.trim (JS.toString (Models.lens_model l)) ≠ "") in
  (stored (JS.Str (Models.getLensModelWithAperture l)) = true ↔ written) ∧
  ∃ full,
    JpegProcessor.setAllExifValues lib Tags.createCleanExifObject
      (selection_of cam l f shot ph) = Ok full ∧
    (written → Tags.tag_of full "Exif" Tags.ExifIFD_LensModel
               = Some (JS.Str (Models.getLensModelWithAperture l))) ∧
    (¬ written → Tags.tag_of full "Exif" Tags.ExifIFD_LensModel = None).
Proof.
  cbn zeta. split; [apply lens_model_stored|].
  eexists. split; [apply setAllExifValues_selection_of|].
  rewrite <- lens_model_stored. split.
  - intros H. read_tag. rewrite H. by split_ifs.
  - intros H%not_true_is_false. read_tag. rewrite H, tag_of_clean. by split_ifs.
Qed.
